(** * The transaction-signing ceremony of the Cardano Ledger host library

    A shallow embedding of [signTransaction] and of the functions it is
    built from: the per-stage message builders, the chunked transfer of
    oversized output fields, the witness path collector and the request
    validator.  Generators ([function*]) are embedded as interaction
    trees of finite depth: a computation either returns, throws, or
    yields one request and waits for the response bytes. *)

From Stdlib Require Import List String Ascii Bool Arith PeanoNat NArith ZArith Lia.
From Stdlib Require Import Strings.Byte DecimalString DecimalN.
Import ListNotations.

Local Open Scope list_scope.

(** ** Bytes, hex strings and the helpers of [utils/serialize] *)

Definition Buffer := list byte.

(** A [HexString] is a JavaScript string; [hex.length] and
    [hex.substring] count characters. *)
Definition HexString := list ascii.

Definition hex (s : string) : HexString := list_ascii_of_string s.

(** [s.substring(start, end)] for [start <= end]. *)
Definition substring (s : HexString) (start end_ : nat) : HexString :=
  firstn (end_ - start) (skipn start s).

Definition byte_of_N (n : N) : byte :=
  match Byte.of_N n with
  | Some b => b
  | None => x00
  end.

Definition hex_digit (c : ascii) : option N :=
  let n := N_of_ascii c in
  if ((48 <=? n) && (n <=? 57))%N then Some (n - 48)%N
  else if ((97 <=? n) && (n <=? 102))%N then Some (n - 87)%N
  else if ((65 <=? n) && (n <=? 70))%N then Some (n - 55)%N
  else None.

Definition is_some {A} (o : option A) : bool :=
  match o with
  | Some _ => true
  | None => false
  end.

(** The well-formedness that the type [HexString] stands for: an even
    number of hexadecimal digits. *)
Fixpoint isHexString (h : HexString) : bool :=
  match h with
  | [] => true
  | hi :: lo :: rest =>
      is_some (hex_digit hi) && is_some (hex_digit lo) && isHexString rest
  | _ => false
  end.

(** Modelled from the spec: [hex_to_buf] of [utils/serialize], which is
    not among the sources, yields "the raw bytes" of a hex string; it is
    [Buffer.from(data, 'hex')], which decodes two digits per byte and
    stops at the first pair that is not hexadecimal. *)
Fixpoint hex_to_buf (h : HexString) : Buffer :=
  match h with
  | hi :: lo :: rest =>
      match hex_digit hi, hex_digit lo with
      | Some a, Some b => byte_of_N (16 * a + b) :: hex_to_buf rest
      | _, _ => []
      end
  | _ => []
  end.

(** Modelled from the spec: [uint32_to_buf] of [utils/serialize], which
    is not among the sources, yields the "4-byte length prefix": the
    number in four bytes, most significant first. *)
Definition uint32_to_buf (n : N) : Buffer :=
  [ byte_of_N ((n / 16777216) mod 256);
    byte_of_N ((n / 65536) mod 256);
    byte_of_N ((n / 256) mod 256);
    byte_of_N (n mod 256) ]%N.

(** The inverse reading of a four-byte prefix, used to state what a
    prefix says. *)
Definition buf_to_uint32 (b : Buffer) : N :=
  match b with
  | [b3; b2; b1; b0] =>
      (Byte.to_N b3 * 16777216 + Byte.to_N b2 * 65536
       + Byte.to_N b1 * 256 + Byte.to_N b0)%N
  | _ => 0%N
  end.

Definition hex_char (n : N) : ascii :=
  if (n <? 10)%N then ascii_of_N (48 + n) else ascii_of_N (87 + n).

(** Modelled from the spec: [buf_to_hex] of [utils/serialize] and
    [Buffer.toString('hex')]: two lower-case digits per byte. *)
Definition buf_to_hex (b : Buffer) : HexString :=
  flat_map (fun x => [hex_char (Byte.to_N x / 16); hex_char (Byte.to_N x mod 16)]%N) b.

(** ** Requests sent to the device *)

Inductive INS : Type :=
| INS_DERIVE_ADDRESS
| INS_SIGN_TX.

(** [SendParams]: the field [expectedResponseLength] is optional in the
    source ([expectedResponseLength?: number]); [None] is a request built
    without it. *)
Record SendParams : Type := mkSendParams {
  ins : INS;
  p1 : Z;
  p2 : Z;
  data : Buffer;
  expectedResponseLength : option nat
}.

Definition send (p1_ p2_ : Z) (data_ : Buffer) (erl : option nat) : SendParams :=
  {| ins := INS_SIGN_TX; p1 := p1_; p2 := p2_; data := data_;
     expectedResponseLength := erl |}.

(** ** Errors *)

(** What the ceremony can throw.  [VersionIncompatible] is the failure
    of [ensureLedgerAppVersionCompatible]; [DeviceVersionUnsupported] is
    thrown by the request validator; [GenericError] is a plain
    [throw Error(...)]; [AssertionError] is a failed [assert]. *)
Inductive Error : Type :=
| VersionIncompatible
| DeviceVersionUnsupported (message : string)
| GenericError (message : string)
| AssertionError (message : string).

(** ** Interactions *)

(** [Interaction<T>] is [Generator<SendParams, T, Buffer>]: the body
    runs until it returns a [T], throws, or yields a request, after
    which it is resumed with the response. *)
Inductive Interaction (A : Type) : Type :=
| Return (a : A)
| Throw (e : Error)
| Yield (m : SendParams) (k : Buffer -> Interaction A).

Arguments Return {A} a.
Arguments Throw {A} e.
Arguments Yield {A} m k.

Fixpoint bind {A B} (i : Interaction A) (f : A -> Interaction B) : Interaction B :=
  match i with
  | Return a => f a
  | Throw e => Throw e
  | Yield m k => Yield m (fun r => bind (k r) f)
  end.

Declare Scope interaction_scope.
Delimit Scope interaction_scope with interaction.

Notation "x <- c1 ;; c2" := (bind c1 (fun x => c2))
  (at level 61, c1 at next level, right associativity) : interaction_scope.
Notation "c1 ;; c2" := (bind c1 (fun _ => c2))
  (at level 61, right associativity) : interaction_scope.

Local Open Scope interaction_scope.

(** [yield send(...)] with the response dropped. *)
Definition yield_ (m : SendParams) : Interaction unit :=
  Yield m (fun _ => Return tt).

(** [const response = yield send(...)]. *)
Definition yield (m : SendParams) : Interaction Buffer :=
  Yield m (fun r => Return r).

(** [assert(cond, msg)]. *)
Definition assert (cond : bool) (msg : string) : Interaction unit :=
  if cond then Return tt else Throw (AssertionError msg).

(** [for (const x of l) { yield* f(x) }]. *)
Fixpoint forEach {X} (l : list X) (f : X -> Interaction unit) : Interaction unit :=
  match l with
  | [] => Return tt
  | x :: rest => f x ;; forEach rest f
  end.

(** [if (cond) { yield* body }]. *)
Definition when (cond : bool) (body : Interaction unit) : Interaction unit :=
  if cond then body else Return tt.

(** [if (o != null) { yield* f(o) }]. *)
Definition whenSome {X} (o : option X) (f : X -> Interaction unit) : Interaction unit :=
  match o with
  | Some x => f x
  | None => Return tt
  end.

(** ** Driving an interaction *)

(** The device, as the host sees it: the response to the request that
    was sent last, given every request sent so far (the last one
    included). *)
Definition Device := list SendParams -> Buffer.

Inductive Outcome (A : Type) : Type :=
| Done (a : A)
| Failed (e : Error).

Arguments Done {A} a.
Arguments Failed {A} e.

(** The driving loop: one [send] per yielded request, in order.  The
    first component is the list of all requests sent, [sent] being those
    of before. *)
Fixpoint drive {A} (d : Device) (sent : list SendParams) (i : Interaction A)
  : list SendParams * Outcome A :=
  match i with
  | Return a => (sent, Done a)
  | Throw e => (sent, Failed e)
  | Yield m k => drive d (sent ++ [m]) (k (d (sent ++ [m])))
  end.

Definition messages {A} (d : Device) (i : Interaction A) : list SendParams :=
  fst (drive d [] i).

Definition outcome {A} (d : Device) (i : Interaction A) : Outcome A :=
  snd (drive d [] i).

Definition thrown {A} (o : Outcome A) : option Error :=
  match o with
  | Done _ => None
  | Failed e => Some e
  end.

(** The device that answers every request with the empty buffer. *)
Definition silent : Device := fun _ => [].

(** The requests of an interaction, and how it ends, when every
    response is empty. *)
Fixpoint trace {A} (i : Interaction A) : list SendParams :=
  match i with
  | Return _ => []
  | Throw _ => []
  | Yield m k => m :: trace (k [])
  end.

Fixpoint ending {A} (i : Interaction A) : Outcome A :=
  match i with
  | Return a => Done a
  | Throw e => Failed e
  | Yield _ k => ending (k [])
  end.

(** An interaction is oblivious when neither the requests it sends nor
    whether and how it fails depend on the responses. *)
Definition oblivious {A} (i : Interaction A) : Prop :=
  forall (d : Device) (sent : list SendParams),
    fst (drive d sent i) = sent ++ trace i /\
    thrown (snd (drive d sent i)) = thrown (ending i).

(** ** The typed signing request

    The declarations of [types/internal] and [types/public] are not
    among the sources.  The types below have the fields and the variants
    that the signing code reads; what a value holds beyond them reaches
    the device only through the serialization library, which is a
    parameter of the development. *)

Definition ValidBIP32Path := list N.
Definition Uint64_str := string.
Definition Int64_str := string.

(** Modelled from the spec: the firmware version is (major, minor,
    patch). *)
Record Version : Type := mkVersion {
  major : N;
  minor : N;
  patch : N
}.

(** The capability flags that the signing code consults. *)
Record DeviceCompatibility : Type := mkCompatibility {
  supportsMary : bool;
  supportsCatalystRegistration : bool;
  supportsCIP36 : bool;
  supportsZeroTtl : bool;
  supportsPoolRegistrationAsOperator : bool;
  supportsPoolRetirement : bool;
  supportsMultisigTransaction : bool;
  supportsMint : bool;
  supportsAlonzo : bool;
  supportsReqSignersInOrdinaryTx : bool;
  supportsBabbage : bool;
  supportsCIP36Vote : bool
}.

Inductive TransactionSigningMode : Type :=
| ORDINARY_TRANSACTION
| MULTISIG_TRANSACTION
| POOL_REGISTRATION_AS_OPERATOR
| PLUTUS_TRANSACTION.

Inductive StakeCredentialType : Type :=
| SC_KEY_PATH
| SC_KEY_HASH
| SC_SCRIPT_HASH.

Inductive ParsedStakeCredential : Type :=
| StakeCredential_KEY_PATH (path : ValidBIP32Path)
| StakeCredential_KEY_HASH (keyHashHex : HexString)
| StakeCredential_SCRIPT_HASH (scriptHashHex : HexString).

Definition stakeCredential_type (c : ParsedStakeCredential) : StakeCredentialType :=
  match c with
  | StakeCredential_KEY_PATH _ => SC_KEY_PATH
  | StakeCredential_KEY_HASH _ => SC_KEY_HASH
  | StakeCredential_SCRIPT_HASH _ => SC_SCRIPT_HASH
  end.

Definition StakeCredentialType_eqb (a b : StakeCredentialType) : bool :=
  match a, b with
  | SC_KEY_PATH, SC_KEY_PATH => true
  | SC_KEY_HASH, SC_KEY_HASH => true
  | SC_SCRIPT_HASH, SC_SCRIPT_HASH => true
  | _, _ => false
  end.

Inductive AddressType : Type :=
| BASE_PAYMENT_KEY_STAKE_KEY
| BASE_PAYMENT_SCRIPT_STAKE_KEY
| BASE_PAYMENT_KEY_STAKE_SCRIPT
| BASE_PAYMENT_SCRIPT_STAKE_SCRIPT
| POINTER_KEY
| POINTER_SCRIPT
| ENTERPRISE_KEY
| ENTERPRISE_SCRIPT
| BYRON
| REWARD_KEY
| REWARD_SCRIPT.

Definition AddressType_eqb (a b : AddressType) : bool :=
  match a, b with
  | BASE_PAYMENT_KEY_STAKE_KEY, BASE_PAYMENT_KEY_STAKE_KEY
  | BASE_PAYMENT_SCRIPT_STAKE_KEY, BASE_PAYMENT_SCRIPT_STAKE_KEY
  | BASE_PAYMENT_KEY_STAKE_SCRIPT, BASE_PAYMENT_KEY_STAKE_SCRIPT
  | BASE_PAYMENT_SCRIPT_STAKE_SCRIPT, BASE_PAYMENT_SCRIPT_STAKE_SCRIPT
  | POINTER_KEY, POINTER_KEY
  | POINTER_SCRIPT, POINTER_SCRIPT
  | ENTERPRISE_KEY, ENTERPRISE_KEY
  | ENTERPRISE_SCRIPT, ENTERPRISE_SCRIPT
  | BYRON, BYRON
  | REWARD_KEY, REWARD_KEY
  | REWARD_SCRIPT, REWARD_SCRIPT => true
  | _, _ => false
  end.

Record ParsedAddressParams : Type := mkAddressParams {
  addressParams_type : AddressType;
  spendingPath : option ValidBIP32Path;
  stakingPath : option ValidBIP32Path
}.

Inductive ParsedOutputDestination : Type :=
| Destination_THIRD_PARTY (addressHex : HexString)
| Destination_DEVICE_OWNED (addressParams : ParsedAddressParams).

Record ParsedInput : Type := mkInput {
  input_txHashHex : HexString;
  input_outputIndex : N;
  input_path : option ValidBIP32Path
}.

Record ParsedToken (T : Type) : Type := mkToken {
  assetNameHex : HexString;
  token_amount : T
}.

Record ParsedAssetGroup (T : Type) : Type := mkAssetGroup {
  policyIdHex : HexString;
  tokens : list (ParsedToken T)
}.

Arguments tokens {T} _.

Inductive TxOutputFormat : Type :=
| ARRAY_LEGACY
| MAP_BABBAGE.

Inductive ParsedDatum : Type :=
| Datum_HASH (datumHashHex : HexString)
| Datum_INLINE (datumHex : HexString).

Record ParsedOutput : Type := mkOutput {
  output_format : TxOutputFormat;
  output_amount : Uint64_str;
  tokenBundle : list (ParsedAssetGroup Uint64_str);
  destination : ParsedOutputDestination;
  datum : option ParsedDatum;
  referenceScriptHex : option HexString
}.

Inductive ParsedPoolOwner : Type :=
| PoolOwner_THIRD_PARTY (hashHex : HexString)
| PoolOwner_DEVICE_OWNED (path : ValidBIP32Path).

Inductive ParsedPoolKey : Type :=
| PoolKey_THIRD_PARTY (hashHex : HexString)
| PoolKey_DEVICE_OWNED (path : ValidBIP32Path).

(** Relays, metadata and the reward account of a pool are never read by
    the signing code. *)
Record ParsedPoolParams : Type := mkPoolParams {
  poolKey : ParsedPoolKey;
  vrfHashHex : HexString;
  pledge : Uint64_str;
  cost : Uint64_str;
  rewardAccount : ParsedOutputDestination;
  owners : list ParsedPoolOwner;
  relays : list string;
  metadata : option string
}.

Inductive CertificateType : Type :=
| CT_STAKE_REGISTRATION
| CT_STAKE_DEREGISTRATION
| CT_STAKE_DELEGATION
| CT_STAKE_POOL_REGISTRATION
| CT_STAKE_POOL_RETIREMENT.

Inductive ParsedCertificate : Type :=
| STAKE_REGISTRATION (stakeCredential : ParsedStakeCredential)
| STAKE_DEREGISTRATION (stakeCredential : ParsedStakeCredential)
| STAKE_DELEGATION (stakeCredential : ParsedStakeCredential) (poolKeyHashHex : HexString)
| STAKE_POOL_REGISTRATION (pool : ParsedPoolParams)
| STAKE_POOL_RETIREMENT (path : ValidBIP32Path) (retirementEpoch : Uint64_str).

Definition certificate_type (c : ParsedCertificate) : CertificateType :=
  match c with
  | STAKE_REGISTRATION _ => CT_STAKE_REGISTRATION
  | STAKE_DEREGISTRATION _ => CT_STAKE_DEREGISTRATION
  | STAKE_DELEGATION _ _ => CT_STAKE_DELEGATION
  | STAKE_POOL_REGISTRATION _ => CT_STAKE_POOL_REGISTRATION
  | STAKE_POOL_RETIREMENT _ _ => CT_STAKE_POOL_RETIREMENT
  end.

Record ParsedWithdrawal : Type := mkWithdrawal {
  withdrawal_amount : Uint64_str;
  withdrawal_stakeCredential : ParsedStakeCredential
}.

Inductive ParsedRequiredSigner : Type :=
| RequiredSigner_PATH (path : ValidBIP32Path)
| RequiredSigner_HASH (hashHex : HexString).

Inductive CIP36VoteRegistrationFormat : Type :=
| CIP_15
| CIP_36.

Record ParsedCVoteDelegation : Type := mkDelegation {
  delegation_voteKey : HexString;
  delegation_weight : N
}.

Record ParsedCVoteRegistrationParams : Type := mkCVoteParams {
  cvote_format : CIP36VoteRegistrationFormat;
  votePublicKey : option HexString;
  votePublicKeyPath : option ValidBIP32Path;
  delegations : option (list ParsedCVoteDelegation);
  cvote_stakingPath : ValidBIP32Path;
  paymentDestination : ParsedOutputDestination;
  nonce : Uint64_str;
  votingPurpose : option Uint64_str
}.

Inductive ParsedTxAuxiliaryData : Type :=
| ARBITRARY_HASH (hashHex : HexString)
| CIP36_REGISTRATION (params : ParsedCVoteRegistrationParams).

Record ParsedTransaction : Type := mkTransaction {
  inputs : list ParsedInput;
  outputs : list ParsedOutput;
  fee : Uint64_str;
  ttl : option Uint64_str;
  certificates : list ParsedCertificate;
  withdrawals : list ParsedWithdrawal;
  auxiliaryData : option ParsedTxAuxiliaryData;
  validityIntervalStart : option Uint64_str;
  mint : option (list (ParsedAssetGroup Int64_str));
  scriptDataHashHex : option HexString;
  collateralInputs : list ParsedInput;
  requiredSigners : list ParsedRequiredSigner;
  includeNetworkId : bool;
  collateralOutput : option ParsedOutput;
  totalCollateral : option Uint64_str;
  referenceInputs : list ParsedInput
}.

Record ParsedSigningRequest : Type := mkRequest {
  tx : ParsedTransaction;
  signingMode : TransactionSigningMode;
  additionalWitnessPaths : list ValidBIP32Path
}.

(** ** The result of the ceremony *)

Inductive TxAuxiliaryDataSupplementType : Type :=
| Supplement_CIP36_REGISTRATION.

Record TxAuxiliaryDataSupplement : Type := mkSupplement {
  supplement_type : TxAuxiliaryDataSupplementType;
  auxiliaryDataHashHex : HexString;
  cip36VoteRegistrationSignatureHex : HexString
}.

Record Witness : Type := mkWitness {
  witness_path : ValidBIP32Path;
  witnessSignatureHex : HexString
}.

Record SignedTransactionData : Type := mkSigned {
  txHashHex : HexString;
  witnesses : list Witness;
  auxiliaryDataSupplement : option TxAuxiliaryDataSupplement
}.

(** ** JavaScript truthiness *)

(** [if (s)] for [s : string | null]: the empty string is falsy. *)
Definition truthy_string (s : option string) : bool :=
  match s with
  | Some EmptyString => false
  | Some _ => true
  | None => false
  end.

Definition truthy_hex (s : option HexString) : bool :=
  match s with
  | Some [] => false
  | Some _ => true
  | None => false
  end.

(** [if (o)] for an object or an array or [null]: every object, the
    empty array included, is truthy. *)
Definition truthy_object {A} (o : option A) : bool := is_some o.

(** ** The serialization library

    One encoder per transaction element, consumed and not specified by
    the signing code. *)
Class Serialization : Type := mkSerialization {
  serializeTxInit :
    ParsedTransaction -> TransactionSigningMode -> nat -> Version -> Buffer;
  serializeTxInput : ParsedInput -> Buffer;
  serializeTxOutputBasicParams : ParsedOutput -> Version -> Buffer;
  serializeTxOutputDatum : ParsedDatum -> Version -> Buffer;
  serializeTxOutputRefScript : HexString -> Buffer;
  serializeAssetGroup : forall T, ParsedAssetGroup T -> Buffer;
  serializeToken : forall T, ParsedToken T -> (T -> Buffer) -> Buffer;
  uint64_to_buf : Uint64_str -> Buffer;
  int64_to_buf : Int64_str -> Buffer;
  serializeTxFee : Uint64_str -> Buffer;
  serializeTxTtl : Uint64_str -> Buffer;
  serializeTxCertificate : ParsedCertificate -> Version -> Buffer;
  serializePoolInitialParams : ParsedPoolParams -> Buffer;
  serializePoolInitialParamsLegacy : ParsedPoolParams -> Buffer;
  serializePoolKey : ParsedPoolKey -> Buffer;
  serializeFinancials : ParsedPoolParams -> Buffer;
  serializePoolRewardAccount : ParsedOutputDestination -> Buffer;
  serializePoolOwner : ParsedPoolOwner -> Buffer;
  serializePoolRelay : string -> Buffer;
  serializePoolMetadata : option string -> Buffer;
  serializeTxWithdrawal : ParsedWithdrawal -> Version -> Buffer;
  serializeTxAuxiliaryData : ParsedTxAuxiliaryData -> Buffer;
  serializeCVoteRegistrationInit : ParsedCVoteRegistrationParams -> Buffer;
  serializeCVoteRegistrationVoteKey :
    option HexString -> option ValidBIP32Path -> Version -> Buffer;
  serializeCVoteRegistrationDelegation : ParsedCVoteDelegation -> Buffer;
  serializeCVoteRegistrationStakingPath : ValidBIP32Path -> Buffer;
  serializeCVoteRegistrationPaymentDestination :
    ParsedOutputDestination -> Version -> Buffer;
  serializeCVoteRegistrationNonce : Uint64_str -> Buffer;
  serializeCVoteRegistrationVotingPurpose : option Uint64_str -> Buffer;
  serializeTxValidityStart : Uint64_str -> Buffer;
  serializeMintBasicParams : list (ParsedAssetGroup Int64_str) -> Buffer;
  serializeRequiredSigner : ParsedRequiredSigner -> Buffer;
  serializeTotalCollateral : Uint64_str -> Buffer;
  serializeTxWitnessRequest : ValidBIP32Path -> Buffer
}.

Arguments serializeAssetGroup {_ T} _.
Arguments serializeToken {_ T} _ _.

(** ** The firmware side

    What [getVersion], [utils] and the constants of [types/internal] and
    [serialization/txOutput] provide; none of them is among the sources. *)
Class Platform : Type := mkPlatform {
  (** [MAX_CHUNK_SIZE], a positive number of bytes. *)
  chunkLimit : positive;
  (** The widths of the two hashes. *)
  AUXILIARY_DATA_HASH_LENGTH : nat;
  TX_HASH_LENGTH : nat;
  (** The capability matrix. *)
  getCompatibility : Version -> DeviceCompatibility;
  getVersionString : Version -> string;
  (** The oldest firmware version that the library supports. *)
  minimumSupportedVersion : Version
}.

(** ** Stage tags *)

Module P1.
Definition STAGE_INIT : Z := 0x01.
Definition STAGE_AUX_DATA : Z := 0x08.
Definition STAGE_INPUTS : Z := 0x02.
Definition STAGE_OUTPUTS : Z := 0x03.
Definition STAGE_FEE : Z := 0x04.
Definition STAGE_TTL : Z := 0x05.
Definition STAGE_CERTIFICATES : Z := 0x06.
Definition STAGE_WITHDRAWALS : Z := 0x07.
Definition STAGE_VALIDITY_INTERVAL_START : Z := 0x09.
Definition STAGE_MINT : Z := 0x0b.
Definition STAGE_SCRIPT_DATA_HASH : Z := 0x0c.
Definition STAGE_COLLATERAL_INPUTS : Z := 0x0d.
Definition STAGE_REQUIRED_SIGNERS : Z := 0x0e.
Definition STAGE_COLLATERAL_OUTPUT : Z := 0x12.
Definition STAGE_TOTAL_COLLATERAL : Z := 0x10.
Definition STAGE_REFERENCE_INPUTS : Z := 0x11.
Definition STAGE_CONFIRM : Z := 0x0a.
Definition STAGE_WITNESSES : Z := 0x0f.
End P1.

(** The [P2] enumerations are local to the functions of the source; they
    are kept apart here by one module per function. *)
Module P2.
Definition UNUSED : Z := 0x00.
End P2.

Module TokenBundleP2.
Definition ASSET_GROUP : Z := 0x31.
Definition TOKEN : Z := 0x32.
End TokenBundleP2.

Module OutputP2.
Definition BASIC_DATA : Z := 0x30.
Definition DATUM : Z := 0x34.
Definition DATUM_CHUNK : Z := 0x35.
Definition SCRIPT : Z := 0x36.
Definition SCRIPT_CHUNK : Z := 0x37.
Definition CONFIRM : Z := 0x33.
End OutputP2.

Module PoolP2.
Definition INIT : Z := 0x30.
Definition POOL_KEY : Z := 0x31.
Definition VRF_KEY : Z := 0x32.
Definition FINANCIALS : Z := 0x33.
Definition REWARD_ACCOUNT : Z := 0x34.
Definition OWNERS : Z := 0x35.
Definition RELAYS : Z := 0x36.
Definition METADATA : Z := 0x37.
Definition CONFIRMATION : Z := 0x38.
End PoolP2.

Module PoolLegacyP2.
Definition POOL_PARAMS : Z := 0x30.
Definition OWNERS : Z := 0x31.
Definition RELAYS : Z := 0x32.
Definition METADATA : Z := 0x33.
Definition CONFIRMATION : Z := 0x34.
End PoolLegacyP2.

Module AuxDataP2.
Definition INIT : Z := 0x36.
Definition VOTE_KEY : Z := 0x30.
Definition DELEGATION : Z := 0x37.
Definition STAKING_KEY : Z := 0x31.
Definition PAYMENT_ADDRESS : Z := 0x32.
Definition NONCE : Z := 0x33.
Definition VOTING_PURPOSE : Z := 0x35.
Definition CONFIRM : Z := 0x34.
End AuxDataP2.

Module MintP2.
Definition BASIC_DATA : Z := 0x30.
Definition CONFIRM : Z := 0x33.
End MintP2.

(** Modelled from the spec: the constant [ED25519_SIGNATURE_LENGTH] of
    [types/internal]; a witness signature has 64 bytes. *)
Definition ED25519_SIGNATURE_LENGTH : nat := 64.

(** ** Deduplication of witness paths *)

(** [JSON.stringify] of an array of non-negative integers. *)
Definition decimal (n : N) : string := NilEmpty.string_of_uint (N.to_uint n).

Fixpoint join_numbers (p : list N) : string :=
  match p with
  | [] => ""%string
  | n :: rest =>
      match rest with
      | [] => decimal n
      | _ :: _ => (decimal n ++ "," ++ join_numbers rest)%string
      end
  end.

Definition JSON_stringify (p : ValidBIP32Path) : string :=
  ("[" ++ join_numbers p ++ "]")%string.

(** A JavaScript object used as a map from strings: its own string keys
    are enumerated in the order in which they were first assigned (keys
    that are array indices would come first, but no key written by
    [uniquify] is one: each starts with a bracket). *)
Definition JsObject (V : Type) : Type := list (string * V).

(** [o[k] = v]: an existing key keeps its place. *)
Fixpoint obj_set {V} (o : JsObject V) (k : string) (v : V) : JsObject V :=
  match o with
  | [] => [(k, v)]
  | (k', v') :: rest =>
      if String.eqb k' k then (k', v) :: rest else (k', v') :: obj_set rest k v
  end.

Definition Object_values {V} (o : JsObject V) : list V := map snd o.

Definition uniquify (witnessPaths : list ValidBIP32Path) : list ValidBIP32Path :=
  let uniquifier :=
    fold_left (fun u p => obj_set u (JSON_stringify p) p) witnessPaths [] in
  Object_values uniquifier.

Definition path_eqb (p q : ValidBIP32Path) : bool :=
  if list_eq_dec N.eq_dec p q then true else false.

(** Deduplication as the specification words it: by structural equality
    of the path, keeping the first occurrence of each path in place. *)
Fixpoint dedupe (l : list ValidBIP32Path) : list ValidBIP32Path :=
  match l with
  | [] => []
  | p :: rest => p :: filter (fun q => negb (path_eqb q p)) (dedupe rest)
  end.

(** The paths that the walk over the transaction collects, before
    [additionalWitnessPaths] is appended. *)
Definition input_witnessPaths (l : list ParsedInput) : list ValidBIP32Path :=
  flat_map (fun input =>
    match input_path input with
    | Some path => [path]
    | None => []
    end) l.

Definition certificate_witnessPaths (cert : ParsedCertificate) : list ValidBIP32Path :=
  match cert with
  | STAKE_DELEGATION stakeCredential _
  | STAKE_DEREGISTRATION stakeCredential =>
      match stakeCredential with
      | StakeCredential_KEY_PATH path => [path]
      | _ => []
      end
  | STAKE_POOL_REGISTRATION pool =>
      flat_map (fun owner =>
        match owner with
        | PoolOwner_DEVICE_OWNED path => [path]
        | _ => []
        end) (owners pool)
      ++ match poolKey pool with
         | PoolKey_DEVICE_OWNED path => [path]
         | _ => []
         end
  | STAKE_POOL_RETIREMENT path _ => [path]
  | _ => []
  end.

Definition withdrawal_witnessPaths (withdrawal : ParsedWithdrawal) : list ValidBIP32Path :=
  match withdrawal_stakeCredential withdrawal with
  | StakeCredential_KEY_PATH path => [path]
  | _ => []
  end.

Definition requiredSigner_witnessPaths (signer : ParsedRequiredSigner) : list ValidBIP32Path :=
  match signer with
  | RequiredSigner_PATH path => [path]
  | _ => []
  end.

Definition TransactionSigningMode_eqb (a b : TransactionSigningMode) : bool :=
  match a, b with
  | ORDINARY_TRANSACTION, ORDINARY_TRANSACTION
  | MULTISIG_TRANSACTION, MULTISIG_TRANSACTION
  | POOL_REGISTRATION_AS_OPERATOR, POOL_REGISTRATION_AS_OPERATOR
  | PLUTUS_TRANSACTION, PLUTUS_TRANSACTION => true
  | _, _ => false
  end.

(** The walk of [gatherWitnessPaths] over the transaction: each [push]
    appends to the list collected so far. *)
Definition structuralWitnessPaths (request : ParsedSigningRequest) : list ValidBIP32Path :=
  if negb (TransactionSigningMode_eqb (signingMode request) MULTISIG_TRANSACTION) then
    input_witnessPaths (inputs (tx request))
    ++ flat_map certificate_witnessPaths (certificates (tx request))
    ++ flat_map withdrawal_witnessPaths (withdrawals (tx request))
    ++ flat_map requiredSigner_witnessPaths (requiredSigners (tx request))
    ++ input_witnessPaths (collateralInputs (tx request))
  else [].

Definition gatherWitnessPaths (request : ParsedSigningRequest) : list ValidBIP32Path :=
  let witnessPaths := structuralWitnessPaths request in
  let witnessPaths := witnessPaths ++ additionalWitnessPaths request in
  uniquify witnessPaths.

(** ** The ceremony *)

(** The pre-flight checks do not talk to the device: they return or
    throw. *)
Definition Check : Type := option Error.

Definition passes : Check := None.

(** [if (cond) throw e], followed by the rest of the function. *)
Definition throwIf (cond : bool) (e : Error) (rest : Check) : Check :=
  if cond then Some e else rest.

(** A call of a checking function as the first statement of a
    generator. *)
Definition checked (c : Check) : Interaction unit :=
  match c with
  | Some e => Throw e
  | None => Return tt
  end.

Definition Version_ltb (a b : Version) : bool :=
  ((major a <? major b)
   || ((major a =? major b)
       && ((minor a <? minor b)
           || ((minor a =? minor b) && (patch a <? patch b)))))%N.

Section Ceremony.

Context {library : Serialization} {platform : Platform}.

Definition MAX_CHUNK_SIZE : nat := Pos.to_nat chunkLimit.

(** Modelled from the spec: [ensureLedgerAppVersionCompatible] of
    [getVersion], which is not among the sources: a version below the
    minimum supported one is rejected outright. *)
Definition ensureLedgerAppVersionCompatible (version : Version) : Check :=
  throwIf (Version_ltb version minimumSupportedVersion) VersionIncompatible
  passes.

Definition signTx_init (tx : ParsedTransaction) (signingMode : TransactionSigningMode)
    (witnessPaths : list ValidBIP32Path) (version : Version) : Interaction unit :=
  yield_ (send P1.STAGE_INIT P2.UNUSED
            (serializeTxInit tx signingMode (List.length witnessPaths) version)
            (Some 0)).

Definition signTx_addInput (input : ParsedInput) : Interaction unit :=
  yield_ (send P1.STAGE_INPUTS P2.UNUSED (serializeTxInput input) (Some 0)).

(** The [while] loop of [signTx_addOutput_sendChunks]; [start] grows
    with every turn, so that [length hex] turns are never used up. *)
Fixpoint sendChunks_loop (turns : nat) (hex : HexString) (p2 : Z) (start : nat)
  : Interaction unit :=
  match turns with
  | O => Return tt
  | S turns' =>
      if start <? List.length hex then
        let end_ := Nat.min (List.length hex) (start + MAX_CHUNK_SIZE * 2) in
        let chunk := substring hex start end_ in
        yield_ (send P1.STAGE_OUTPUTS p2
                  (uint32_to_buf (N.of_nat (List.length chunk / 2)) ++ hex_to_buf chunk)
                  (Some 0)) ;;
        sendChunks_loop turns' hex p2 end_
      else Return tt
  end.

Definition signTx_addOutput_sendChunks (hex : HexString) (p2 : Z) : Interaction unit :=
  (* First chunk is already sent with previous APDU, so we start with 2nd chunk *)
  let start := MAX_CHUNK_SIZE * 2 in
  sendChunks_loop (List.length hex) hex p2 start.

Definition signTx_addTokenBundle {T} (tokenBundle : list (ParsedAssetGroup T))
    (p1 : Z) (serializeTokenAmountFn : T -> Buffer) : Interaction unit :=
  forEach tokenBundle (fun assetGroup =>
    yield_ (send p1 TokenBundleP2.ASSET_GROUP
              (serializeAssetGroup assetGroup) (Some 0)) ;;
    forEach (tokens assetGroup) (fun token =>
      yield_ (send p1 TokenBundleP2.TOKEN
                (serializeToken token serializeTokenAmountFn) (Some 0)))).

Definition signTx_addOutput (output : ParsedOutput) (version : Version)
  : Interaction unit :=
  yield_ (send P1.STAGE_OUTPUTS OutputP2.BASIC_DATA
            (serializeTxOutputBasicParams output version) (Some 0)) ;;
  signTx_addTokenBundle (tokenBundle output) P1.STAGE_OUTPUTS uint64_to_buf ;;
  (* Datum *)
  whenSome (datum output) (fun datum =>
    yield_ (send P1.STAGE_OUTPUTS OutputP2.DATUM
              (serializeTxOutputDatum datum version) (Some 0)) ;;
    match datum with
    | Datum_INLINE datumHex =>
        (* [datumHex.length / 2 > MAX_CHUNK_SIZE], a comparison of reals *)
        let additionalChunksNeeded := MAX_CHUNK_SIZE * 2 <? List.length datumHex in
        when additionalChunksNeeded
          (signTx_addOutput_sendChunks datumHex OutputP2.DATUM_CHUNK)
    | Datum_HASH _ => Return tt
    end) ;;
  (* Reference Script *)
  match referenceScriptHex output with
  | Some ((_ :: _) as referenceScriptHex) =>
      yield_ (send P1.STAGE_OUTPUTS OutputP2.SCRIPT
                (serializeTxOutputRefScript referenceScriptHex) (Some 0)) ;;
      when (MAX_CHUNK_SIZE * 2 <? List.length referenceScriptHex)
        (signTx_addOutput_sendChunks referenceScriptHex OutputP2.SCRIPT_CHUNK)
  | _ => Return tt
  end ;;
  yield_ (send P1.STAGE_OUTPUTS OutputP2.CONFIRM [] (Some 0)).

Definition signTx_addStakePoolRegistrationCertificate (certificate : ParsedCertificate)
  : Interaction unit :=
  match certificate with
  | STAKE_POOL_REGISTRATION pool =>
      yield_ (send P1.STAGE_CERTIFICATES PoolP2.INIT
                (serializePoolInitialParams pool) (Some 0)) ;;
      yield_ (send P1.STAGE_CERTIFICATES PoolP2.POOL_KEY
                (serializePoolKey (poolKey pool)) (Some 0)) ;;
      yield_ (send P1.STAGE_CERTIFICATES PoolP2.VRF_KEY
                (hex_to_buf (vrfHashHex pool)) (Some 0)) ;;
      yield_ (send P1.STAGE_CERTIFICATES PoolP2.FINANCIALS
                (serializeFinancials pool) (Some 0)) ;;
      yield_ (send P1.STAGE_CERTIFICATES PoolP2.REWARD_ACCOUNT
                (serializePoolRewardAccount (rewardAccount pool)) (Some 0)) ;;
      forEach (owners pool) (fun owner =>
        yield_ (send P1.STAGE_CERTIFICATES PoolP2.OWNERS
                  (serializePoolOwner owner) (Some 0))) ;;
      forEach (relays pool) (fun relay =>
        yield_ (send P1.STAGE_CERTIFICATES PoolP2.RELAYS
                  (serializePoolRelay relay) (Some 0))) ;;
      yield_ (send P1.STAGE_CERTIFICATES PoolP2.METADATA
                (serializePoolMetadata (metadata pool)) (Some 0)) ;;
      yield_ (send P1.STAGE_CERTIFICATES PoolP2.CONFIRMATION [] (Some 0))
  | _ => Throw (AssertionError "invalid certificate type")
  end.

Definition signTx_addStakePoolRegistrationCertificateLegacy
    (certificate : ParsedCertificate) : Interaction unit :=
  match certificate with
  | STAKE_POOL_REGISTRATION pool =>
      yield_ (send P1.STAGE_CERTIFICATES PoolLegacyP2.POOL_PARAMS
                (serializePoolInitialParamsLegacy pool) (Some 0)) ;;
      forEach (owners pool) (fun owner =>
        yield_ (send P1.STAGE_CERTIFICATES PoolLegacyP2.OWNERS
                  (serializePoolOwner owner) (Some 0))) ;;
      forEach (relays pool) (fun relay =>
        yield_ (send P1.STAGE_CERTIFICATES PoolLegacyP2.RELAYS
                  (serializePoolRelay relay) (Some 0))) ;;
      yield_ (send P1.STAGE_CERTIFICATES PoolLegacyP2.METADATA
                (serializePoolMetadata (metadata pool)) (Some 0)) ;;
      yield_ (send P1.STAGE_CERTIFICATES PoolLegacyP2.CONFIRMATION [] (Some 0))
  | _ => Throw (AssertionError "invalid certificate type")
  end.

Definition signTx_addCertificate (certificate : ParsedCertificate) (version : Version)
  : Interaction unit :=
  yield_ (send P1.STAGE_CERTIFICATES P2.UNUSED
            (serializeTxCertificate certificate version) (Some 0)) ;;
  (* additional data for pool certificate *)
  match certificate_type certificate with
  | CT_STAKE_POOL_REGISTRATION =>
      if supportsPoolRegistrationAsOperator (getCompatibility version) then
        signTx_addStakePoolRegistrationCertificate certificate
      else
        signTx_addStakePoolRegistrationCertificateLegacy certificate
  | _ => Return tt
  end.

Definition signTx_addWithdrawal (withdrawal : ParsedWithdrawal) (version : Version)
  : Interaction unit :=
  yield_ (send P1.STAGE_WITHDRAWALS P2.UNUSED
            (serializeTxWithdrawal withdrawal version) (Some 0)).

Definition signTx_setFee (fee : Uint64_str) : Interaction unit :=
  yield_ (send P1.STAGE_FEE P2.UNUSED (serializeTxFee fee) (Some 0)).

Definition signTx_setTtl (ttl : Uint64_str) : Interaction unit :=
  yield_ (send P1.STAGE_TTL P2.UNUSED (serializeTxTtl ttl) (Some 0)).

Definition signTx_setAuxiliaryData (auxiliaryData : ParsedTxAuxiliaryData)
    (version : Version) : Interaction (option TxAuxiliaryDataSupplement) :=
  (* both variants of the type are in [supportedAuxiliaryDataTypes] *)
  assert (match auxiliaryData with
          | ARBITRARY_HASH _ => true
          | CIP36_REGISTRATION _ => true
          end) "Auxiliary data type not implemented" ;;
  yield_ (send P1.STAGE_AUX_DATA P2.UNUSED
            (serializeTxAuxiliaryData auxiliaryData) (Some 0)) ;;
  match auxiliaryData with
  | CIP36_REGISTRATION params =>
      when (supportsCIP36 (getCompatibility version))
        (* this APDU was not used previously for Catalyst *)
        (yield_ (send P1.STAGE_AUX_DATA AuxDataP2.INIT
                   (serializeCVoteRegistrationInit params) (Some 0))) ;;
      (if truthy_hex (votePublicKey params)
          || truthy_object (votePublicKeyPath params) then
         yield_ (send P1.STAGE_AUX_DATA AuxDataP2.VOTE_KEY
                   (serializeCVoteRegistrationVoteKey (votePublicKey params)
                      (votePublicKeyPath params) version)
                   (Some 0))
       else
         match delegations params with
         | Some delegations =>
             forEach delegations (fun delegation =>
               yield_ (send P1.STAGE_AUX_DATA AuxDataP2.DELEGATION
                         (serializeCVoteRegistrationDelegation delegation)
                         (Some 0)))
         | None =>
             (* should have been caught by previous validation *)
             Throw (GenericError "wrong CIP36 registration params")
         end) ;;
      yield_ (send P1.STAGE_AUX_DATA AuxDataP2.STAKING_KEY
                (serializeCVoteRegistrationStakingPath (cvote_stakingPath params))
                (Some 0)) ;;
      yield_ (send P1.STAGE_AUX_DATA AuxDataP2.PAYMENT_ADDRESS
                (serializeCVoteRegistrationPaymentDestination
                   (paymentDestination params) version)
                (Some 0)) ;;
      yield_ (send P1.STAGE_AUX_DATA AuxDataP2.NONCE
                (serializeCVoteRegistrationNonce (nonce params)) (Some 0)) ;;
      when (supportsCIP36 (getCompatibility version))
        (* this APDU was not used previously for Catalyst *)
        (yield_ (send P1.STAGE_AUX_DATA AuxDataP2.VOTING_PURPOSE
                   (serializeCVoteRegistrationVotingPurpose (votingPurpose params))
                   (Some 0))) ;;
      let ED25519_SIGNATURE_LENGTH := 64 in
      response <- yield (send P1.STAGE_AUX_DATA AuxDataP2.CONFIRM []
                           (Some (AUXILIARY_DATA_HASH_LENGTH
                                  + ED25519_SIGNATURE_LENGTH))) ;;
      let auxDataHash := firstn AUXILIARY_DATA_HASH_LENGTH response in
      let signature :=
        firstn ED25519_SIGNATURE_LENGTH
          (skipn AUXILIARY_DATA_HASH_LENGTH response) in
      Return (Some {| supplement_type := Supplement_CIP36_REGISTRATION;
                      auxiliaryDataHashHex := buf_to_hex auxDataHash;
                      cip36VoteRegistrationSignatureHex := buf_to_hex signature |})
  | ARBITRARY_HASH _ => Return None
  end.

Definition signTx_setAuxiliaryData_before_v2_3 (auxiliaryData : ParsedTxAuxiliaryData)
  : Interaction (option TxAuxiliaryDataSupplement) :=
  match auxiliaryData with
  | ARBITRARY_HASH hashHex =>
      yield_ (send P1.STAGE_AUX_DATA P2.UNUSED (hex_to_buf hashHex) (Some 0)) ;;
      Return None
  | CIP36_REGISTRATION _ =>
      Throw (AssertionError "Auxiliary data type not implemented")
  end.

(** No [expectedResponseLength] is given here. *)
Definition signTx_setValidityIntervalStart (validityIntervalStartStr : Uint64_str)
  : Interaction unit :=
  yield_ (send P1.STAGE_VALIDITY_INTERVAL_START P2.UNUSED
            (serializeTxValidityStart validityIntervalStartStr) None).

Definition signTx_setMint (mint : list (ParsedAssetGroup Int64_str)) : Interaction unit :=
  yield_ (send P1.STAGE_MINT MintP2.BASIC_DATA
            (serializeMintBasicParams mint) (Some 0)) ;;
  signTx_addTokenBundle mint P1.STAGE_MINT int64_to_buf ;;
  yield_ (send P1.STAGE_MINT MintP2.CONFIRM [] (Some 0)).

(** No [expectedResponseLength] is given here. *)
Definition signTx_setScriptDataHash (scriptDataHash : HexString) : Interaction unit :=
  yield_ (send P1.STAGE_SCRIPT_DATA_HASH P2.UNUSED (hex_to_buf scriptDataHash) None).

Definition signTx_addCollateralInput (collateralInput : ParsedInput) : Interaction unit :=
  yield_ (send P1.STAGE_COLLATERAL_INPUTS P2.UNUSED
            (serializeTxInput collateralInput) (Some 0)).

Definition signTx_addRequiredSigner (requiredSigner : ParsedRequiredSigner)
  : Interaction unit :=
  yield_ (send P1.STAGE_REQUIRED_SIGNERS P2.UNUSED
            (serializeRequiredSigner requiredSigner) (Some 0)).

Definition signTx_addCollateralOutput (collateralOutput : ParsedOutput)
    (version : Version) : Interaction unit :=
  yield_ (send P1.STAGE_COLLATERAL_OUTPUT OutputP2.BASIC_DATA
            (serializeTxOutputBasicParams collateralOutput version) (Some 0)) ;;
  signTx_addTokenBundle (tokenBundle collateralOutput) P1.STAGE_COLLATERAL_OUTPUT
    uint64_to_buf ;;
  yield_ (send P1.STAGE_COLLATERAL_OUTPUT OutputP2.CONFIRM [] (Some 0)).

Definition signTx_addTotalCollateral (totalCollateral : Uint64_str) : Interaction unit :=
  yield_ (send P1.STAGE_TOTAL_COLLATERAL P2.UNUSED
            (serializeTotalCollateral totalCollateral) (Some 0)).

Definition signTx_addReferenceInput (referenceInput : ParsedInput) : Interaction unit :=
  yield_ (send P1.STAGE_REFERENCE_INPUTS P2.UNUSED
            (serializeTxInput referenceInput) (Some 0)).

Definition signTx_awaitConfirm : Interaction HexString :=
  response <- yield (send P1.STAGE_CONFIRM P2.UNUSED [] (Some TX_HASH_LENGTH)) ;;
  Return (buf_to_hex response).

Definition signTx_getWitness (path : ValidBIP32Path) : Interaction Witness :=
  response <- yield (send P1.STAGE_WITNESSES P2.UNUSED
                       (serializeTxWitnessRequest path)
                       (Some ED25519_SIGNATURE_LENGTH)) ;;
  Return {| witness_path := path; witnessSignatureHex := buf_to_hex response |}.

(** [for (const path of witnessPaths) { witnesses.push(yield* ...) }]. *)
Fixpoint getWitnesses (witnessPaths : list ValidBIP32Path) : Interaction (list Witness) :=
  match witnessPaths with
  | [] => Return []
  | path :: rest =>
      witness <- signTx_getWitness path ;;
      witnesses <- getWitnesses rest ;;
      Return (witness :: witnesses)
  end.

(** *** The request validator *)

Definition hasStakeCredentialInCertificates (tx : ParsedTransaction)
    (stakeCredentialType : StakeCredentialType) : bool :=
  existsb (fun c =>
    match c with
    | STAKE_DELEGATION stakeCredential _
    | STAKE_DEREGISTRATION stakeCredential
    | STAKE_REGISTRATION stakeCredential =>
        StakeCredentialType_eqb (stakeCredential_type stakeCredential)
          stakeCredentialType
    | _ => false
    end) (certificates tx).

Definition hasStakeCredentialInWithdrawals (tx : ParsedTransaction)
    (stakeCredentialType : StakeCredentialType) : bool :=
  existsb (fun w =>
    StakeCredentialType_eqb (stakeCredential_type (withdrawal_stakeCredential w))
      stakeCredentialType) (withdrawals tx).

Definition hasScriptHashInAddressParams (tx : ParsedTransaction) : bool :=
  let scriptAddressTypes :=
    [ BASE_PAYMENT_KEY_STAKE_SCRIPT;
      BASE_PAYMENT_SCRIPT_STAKE_KEY;
      BASE_PAYMENT_SCRIPT_STAKE_SCRIPT;
      ENTERPRISE_SCRIPT;
      POINTER_SCRIPT;
      REWARD_SCRIPT ] in
  existsb (fun o =>
    match destination o with
    | Destination_DEVICE_OWNED addressParams =>
        existsb (AddressType_eqb (addressParams_type addressParams))
          scriptAddressTypes
    | Destination_THIRD_PARTY _ => false
    end) (outputs tx).

(** The text of every [DeviceVersionUnsupported] of the validator. *)
Definition unsupported (feature : string) (version : Version) : Error :=
  DeviceVersionUnsupported
    (feature ++ " not supported by Ledger app version "
     ++ getVersionString version ++ ".")%string.

Notation "'guard' c 'raise' e ; rest" := (throwIf c e rest)
  (at level 10, c at level 9, e at level 9, rest at level 200,
   format "'[v' 'guard'  c  'raise'  e ; '/' rest ']'").

(** The checks that follow the block on required signers. *)
Definition ensureRequestSupported_afterRequiredSigners (version : Version)
    (request : ParsedSigningRequest) : Check :=
  let compat := getCompatibility version in
  guard (includeNetworkId (tx request) && negb (supportsAlonzo compat))
    raise (unsupported "Network id in tx body" version) ;
  guard (truthy_object (collateralOutput (tx request)) && negb (supportsBabbage compat))
    raise (unsupported "Collateral output" version) ;
  guard (truthy_string (totalCollateral (tx request)) && negb (supportsBabbage compat))
    raise (unsupported "Total collateral" version) ;
  guard ((0 <? List.length (referenceInputs (tx request))) && negb (supportsBabbage compat))
    raise (unsupported "Reference inputs" version) ;
  (* catalyst/CIP36 registration is a specific type of auxiliary data that
     requires a HW wallet signature *)
  let auxiliaryData := auxiliaryData (tx request) in
  let hasCIP15Registration :=
    match auxiliaryData with
    | Some (CIP36_REGISTRATION params) =>
        match cvote_format params with CIP_15 => true | CIP_36 => false end
    | _ => false
    end in
  guard (hasCIP15Registration && negb (supportsCatalystRegistration compat))
    raise (unsupported "Catalyst registration" version) ;
  let hasCIP36Registration :=
    match auxiliaryData with
    | Some (CIP36_REGISTRATION params) =>
        match cvote_format params with CIP_36 => true | CIP_15 => false end
    | _ => false
    end in
  guard (hasCIP36Registration && negb (supportsCIP36 compat))
    raise (unsupported "CIP36 registration" version) ;
  let hasKeyPath :=
    match auxiliaryData with
    | Some (CIP36_REGISTRATION params) => is_some (votePublicKeyPath params)
    | _ => false
    end in
  guard (hasKeyPath && negb (supportsCIP36Vote compat))
    raise (unsupported "Vote key derivation path in CIP15/CIP36 registration" version) ;
  let thirdPartyPayment :=
    match auxiliaryData with
    | Some (CIP36_REGISTRATION params) =>
        match paymentDestination params with
        | Destination_DEVICE_OWNED _ => false
        | Destination_THIRD_PARTY _ => true
        end
    | _ => false
    end in
  guard (thirdPartyPayment && negb (supportsCIP36 compat))
    raise (unsupported "CIP36 payment addresses not owned by the device" version) ;
  passes.

Definition ensureRequestSupportedByAppVersion (version : Version)
    (request : ParsedSigningRequest) : Check :=
  let compat := getCompatibility version in
  (* signing modes *)
  guard (TransactionSigningMode_eqb (signingMode request) POOL_REGISTRATION_AS_OPERATOR
         && negb (supportsPoolRegistrationAsOperator compat))
    raise (unsupported "Pool registration as operator" version) ;
  guard (TransactionSigningMode_eqb (signingMode request) MULTISIG_TRANSACTION
         && negb (supportsMultisigTransaction compat))
    raise (unsupported "Multisig transactions" version) ;
  guard (TransactionSigningMode_eqb (signingMode request) PLUTUS_TRANSACTION
         && negb (supportsAlonzo compat))
    raise (unsupported "Plutus transactions" version) ;
  (* transaction elements *)
  guard (hasScriptHashInAddressParams (tx request)
         && negb (supportsMultisigTransaction compat))
    raise (unsupported "Script hash in address parameters in output" version) ;
  let hasDatumInOutputs := existsb (fun o => is_some (datum o)) (outputs (tx request)) in
  guard (hasDatumInOutputs && negb (supportsAlonzo compat))
    raise (unsupported "Datum in output" version) ;
  let hasMapFormatInOutputs :=
    existsb (fun o =>
      match output_format o with MAP_BABBAGE => true | ARRAY_LEGACY => false end)
      (outputs (tx request)) in
  guard (hasMapFormatInOutputs && negb (supportsBabbage compat))
    raise (unsupported "Outputs with map format" version) ;
  guard (match ttl (tx request) with
         | Some t => String.eqb t "0"
         | None => false
         end && negb (supportsZeroTtl compat))
    raise (unsupported "Zero TTL" version) ;
  guard (hasStakeCredentialInWithdrawals (tx request) SC_SCRIPT_HASH
         && negb (supportsMultisigTransaction compat))
    raise (unsupported "Script hash in withdrawal" version) ;
  guard (hasStakeCredentialInWithdrawals (tx request) SC_KEY_HASH
         && negb (supportsAlonzo compat))
    raise (unsupported "Key hash in withdrawal" version) ;
  let hasPoolRetirement :=
    existsb (fun c =>
      match certificate_type c with
      | CT_STAKE_POOL_RETIREMENT => true
      | _ => false
      end) (certificates (tx request)) in
  guard (hasPoolRetirement && negb (supportsPoolRetirement compat))
    raise (unsupported "Pool retirement certificate" version) ;
  guard (hasStakeCredentialInCertificates (tx request) SC_SCRIPT_HASH
         && negb (supportsMultisigTransaction compat))
    raise (unsupported "Script hash in certificate stake credential" version) ;
  guard (hasStakeCredentialInCertificates (tx request) SC_KEY_HASH
         && negb (supportsAlonzo compat))
    raise (unsupported "Key hash in certificate stake credential" version) ;
  guard (truthy_object (mint (tx request)) && negb (supportsMint compat))
    raise (unsupported "Mint" version) ;
  guard (truthy_string (validityIntervalStart (tx request)) && negb (supportsMary compat))
    raise (unsupported "Validity interval start" version) ;
  guard (truthy_hex (scriptDataHashHex (tx request)) && negb (supportsAlonzo compat))
    raise (unsupported "Script data hash" version) ;
  guard ((0 <? List.length (collateralInputs (tx request))) && negb (supportsAlonzo compat))
    raise (unsupported "Collateral inputs" version) ;
  if 0 <? List.length (requiredSigners (tx request)) then
    guard (negb (supportsAlonzo compat))
      raise (unsupported "Required signers" version) ;
    if negb (supportsReqSignersInOrdinaryTx compat) then
      match signingMode request with
      | ORDINARY_TRANSACTION =>
          Some (unsupported "Required signers in ordinary transaction" version)
      | MULTISIG_TRANSACTION =>
          Some (unsupported "Required signers in multisig transaction" version)
      | _ => ensureRequestSupported_afterRequiredSigners version request
      end
    else ensureRequestSupported_afterRequiredSigners version request
  else ensureRequestSupported_afterRequiredSigners version request.

(** *** The orchestrator *)

Definition signTransaction (version : Version) (request : ParsedSigningRequest)
  : Interaction SignedTransactionData :=
  checked (ensureLedgerAppVersionCompatible version) ;;
  checked (ensureRequestSupportedByAppVersion version request) ;;
  let auxDataBeforeTxBody :=
    supportsCatalystRegistration (getCompatibility version)
    || supportsCIP36 (getCompatibility version) in
  let tx := tx request in
  let signingMode := signingMode request in
  let witnessPaths := gatherWitnessPaths request in
  (* init *)
  signTx_init tx signingMode witnessPaths version ;;
  (* auxiliary data *)
  auxiliaryDataSupplement <-
    match auxiliaryData tx with
    | Some auxiliaryData =>
        if auxDataBeforeTxBody then signTx_setAuxiliaryData auxiliaryData version
        else Return None
    | None => Return None
    end ;;
  (* inputs *)
  forEach (inputs tx) signTx_addInput ;;
  (* outputs *)
  forEach (outputs tx) (fun output => signTx_addOutput output version) ;;
  (* fee *)
  signTx_setFee (fee tx) ;;
  (* ttl *)
  whenSome (ttl tx) signTx_setTtl ;;
  (* certificates *)
  forEach (certificates tx) (fun certificate =>
    signTx_addCertificate certificate version) ;;
  (* withdrawals *)
  forEach (withdrawals tx) (fun withdrawal =>
    signTx_addWithdrawal withdrawal version) ;;
  (* auxiliary data before Ledger app version 2.3.x *)
  auxiliaryDataSupplement <-
    match auxiliaryData tx with
    | Some auxiliaryData =>
        if negb auxDataBeforeTxBody then
          signTx_setAuxiliaryData_before_v2_3 auxiliaryData
        else Return auxiliaryDataSupplement
    | None => Return auxiliaryDataSupplement
    end ;;
  (* validity start *)
  whenSome (validityIntervalStart tx) signTx_setValidityIntervalStart ;;
  (* mint *)
  whenSome (mint tx) signTx_setMint ;;
  (* script data hash *)
  whenSome (scriptDataHashHex tx) signTx_setScriptDataHash ;;
  (* collateral inputs *)
  forEach (collateralInputs tx) signTx_addCollateralInput ;;
  (* required signers *)
  forEach (requiredSigners tx) signTx_addRequiredSigner ;;
  (* collateral output *)
  whenSome (collateralOutput tx) (fun collateralOutput =>
    signTx_addCollateralOutput collateralOutput version) ;;
  (* totalCollateral *)
  whenSome (totalCollateral tx) signTx_addTotalCollateral ;;
  (* reference input *)
  forEach (referenceInputs tx) signTx_addReferenceInput ;;
  (* confirm *)
  txHashHex <- signTx_awaitConfirm ;;
  (* witnesses *)
  witnesses <- getWitnesses witnessPaths ;;
  Return {| txHashHex := txHashHex;
            witnesses := witnesses;
            auxiliaryDataSupplement := auxiliaryDataSupplement |}.

End Ceremony.

(** * Properties *)

(** ** Driving, traces and obliviousness *)

Lemma drive_bind {A B} (d : Device) (i : Interaction A) (f : A -> Interaction B) sent :
  drive d sent (bind i f) =
  match snd (drive d sent i) with
  | Done a => drive d (fst (drive d sent i)) (f a)
  | Failed e => (fst (drive d sent i), Failed e)
  end.
Proof.
  revert sent. induction i as [a | e | m k IH]; intros sent; simpl; auto.
Qed.

Lemma trace_bind {A B} (i : Interaction A) (f : A -> Interaction B) :
  trace (bind i f) =
  trace i ++ match ending i with
             | Done a => trace (f a)
             | Failed _ => []
             end.
Proof.
  induction i as [a | e | m k IH]; simpl; auto.
  now rewrite IH.
Qed.

Lemma ending_bind {A B} (i : Interaction A) (f : A -> Interaction B) :
  ending (bind i f) =
  match ending i with
  | Done a => ending (f a)
  | Failed e => Failed e
  end.
Proof.
  induction i as [a | e | m k IH]; simpl; auto.
Qed.

Lemma drive_silent {A} (i : Interaction A) sent :
  drive silent sent i = (sent ++ trace i, ending i).
Proof.
  revert sent. induction i as [a | e | m k IH]; intros sent; simpl.
  - now rewrite app_nil_r.
  - now rewrite app_nil_r.
  - unfold silent at 1. rewrite IH. now rewrite <- app_assoc.
Qed.

(** Two interactions of one shape send the same requests and end alike,
    whatever they return. *)
Definition same_shape {A B} (i : Interaction A) (j : Interaction B) : Prop :=
  trace i = trace j /\ thrown (ending i) = thrown (ending j).

Lemma same_shape_refl {A} (i : Interaction A) : same_shape i i.
Proof. split; reflexivity. Qed.

Lemma same_shape_Return {A B} (a : A) (b : B) : same_shape (Return a) (Return b).
Proof. split; reflexivity. Qed.

Lemma same_shape_bind {A A' B B'} (i : Interaction A) (j : Interaction A')
    (f : A -> Interaction B) (g : A' -> Interaction B') :
  same_shape i j ->
  (forall a b, same_shape (f a) (g b)) ->
  same_shape (bind i f) (bind j g).
Proof.
  intros [Ht He] Hfg. unfold same_shape.
  rewrite !trace_bind, !ending_bind, Ht.
  destruct (ending i) as [a | e], (ending j) as [b | e']; simpl in He;
    try discriminate.
  - destruct (Hfg a b) as [H1 H2]. now rewrite H1, H2.
  - injection He as ->. split; reflexivity.
Qed.

Lemma oblivious_Return {A} (a : A) : oblivious (Return a).
Proof. intros d sent; simpl. now rewrite app_nil_r. Qed.

Lemma oblivious_Throw {A} (e : Error) : oblivious (@Throw A e).
Proof. intros d sent; simpl. now rewrite app_nil_r. Qed.

Lemma oblivious_Yield {A} (m : SendParams) (k : Buffer -> Interaction A) :
  (forall r, oblivious (k r)) ->
  (forall r, same_shape (k r) (k [])) ->
  oblivious (Yield m k).
Proof.
  intros Hk Hs d sent; simpl.
  destruct (Hk (d (sent ++ [m])) d (sent ++ [m])) as [H1 H2].
  destruct (Hs (d (sent ++ [m]))) as [H3 H4].
  rewrite H1, H2, H3, H4, <- app_assoc. split; reflexivity.
Qed.

Lemma oblivious_bind {A B} (i : Interaction A) (f : A -> Interaction B) :
  oblivious i ->
  (forall a, oblivious (f a)) ->
  (forall a b, same_shape (f a) (f b)) ->
  oblivious (bind i f).
Proof.
  intros Hi Hf Hs d sent.
  rewrite drive_bind, trace_bind, ending_bind.
  destruct (Hi d sent) as [H1 H2].
  destruct (snd (drive d sent i)) as [a | e], (ending i) as [a0 | e0];
    simpl in H2; try discriminate.
  - destruct (Hf a d (fst (drive d sent i))) as [H3 H4].
    destruct (Hs a a0) as [H5 H6].
    rewrite H3, H4, H1, H5, H6, <- app_assoc. split; reflexivity.
  - injection H2 as ->. simpl. now rewrite H1, app_nil_r.
Qed.

Lemma oblivious_seq {A B} (i : Interaction A) (j : Interaction B) :
  oblivious i -> oblivious j -> oblivious (bind i (fun _ => j)).
Proof.
  intros Hi Hj. apply oblivious_bind; auto using same_shape_refl.
Qed.

(** A plain interaction sends its requests, drops every response, and
    completes. *)
Inductive plain : Interaction unit -> Prop :=
| plain_Return : plain (Return tt)
| plain_Yield m i : plain i -> plain (Yield m (fun _ => i)).

Lemma plain_yield_ m : plain (yield_ m).
Proof. apply plain_Yield, plain_Return. Qed.

Lemma plain_seq (i j : Interaction unit) :
  plain i -> plain j -> plain (bind i (fun _ => j)).
Proof.
  induction 1 as [| m i Hi IH]; intros Hj; simpl; auto.
  apply (plain_Yield m (bind i (fun _ => j))). auto.
Qed.

Lemma plain_forEach {X} (l : list X) (f : X -> Interaction unit) :
  (forall x, plain (f x)) -> plain (forEach l f).
Proof.
  intros Hf. induction l as [| x l IH]; simpl.
  - constructor.
  - apply plain_seq; auto.
Qed.

Lemma plain_when (c : bool) (i : Interaction unit) : plain i -> plain (when c i).
Proof. destruct c; simpl; auto using plain_Return. Qed.

Lemma plain_whenSome {X} (o : option X) (f : X -> Interaction unit) :
  (forall x, plain (f x)) -> plain (whenSome o f).
Proof. destruct o; simpl; auto using plain_Return. Qed.

Lemma plain_ending (i : Interaction unit) : plain i -> ending i = Done tt.
Proof. induction 1; simpl; auto. Qed.

Lemma plain_drive (i : Interaction unit) (d : Device) sent :
  plain i -> drive d sent i = (sent ++ trace i, Done tt).
Proof.
  intros H. revert sent. induction H as [| m i Hi IH]; intros sent; simpl.
  - now rewrite app_nil_r.
  - rewrite IH. now rewrite <- app_assoc.
Qed.

Lemma plain_oblivious (i : Interaction unit) : plain i -> oblivious i.
Proof.
  intros H d sent. rewrite (plain_drive i d sent H), (plain_ending i H).
  split; reflexivity.
Qed.

Lemma trace_seq_plain {B} (i : Interaction unit) (j : Interaction B) :
  plain i -> trace (bind i (fun _ => j)) = trace i ++ trace j.
Proof. intros H. now rewrite trace_bind, (plain_ending i H). Qed.

Lemma ending_seq_plain {B} (i : Interaction unit) (j : Interaction B) :
  plain i -> ending (bind i (fun _ => j)) = ending j.
Proof. intros H. now rewrite ending_bind, (plain_ending i H). Qed.

Lemma drive_seq_plain {B} (i : Interaction unit) (j : Interaction B) d sent :
  plain i -> drive d sent (bind i (fun _ => j)) = drive d (sent ++ trace i) j.
Proof. intros H. now rewrite drive_bind, (plain_drive i d sent H). Qed.

Lemma trace_forEach {X} (l : list X) (f : X -> Interaction unit) :
  (forall x, plain (f x)) ->
  trace (forEach l f) = flat_map (fun x => trace (f x)) l.
Proof.
  intros Hf. induction l as [| x l IH]; simpl; auto.
  rewrite trace_seq_plain by auto. now rewrite IH.
Qed.

Create HintDb plain.
#[export] Hint Resolve plain_Return plain_yield_ plain_seq plain_forEach
  plain_when plain_whenSome : plain.

(** [sends_only P i]: [i] is plain and every request it sends
    satisfies [P]. *)
Inductive sends_only (P : SendParams -> Prop) : Interaction unit -> Prop :=
| sends_only_Return : sends_only P (Return tt)
| sends_only_Yield m i : P m -> sends_only P i -> sends_only P (Yield m (fun _ => i)).

Lemma sends_only_yield_ (P : SendParams -> Prop) m : P m -> sends_only P (yield_ m).
Proof. intros H. apply sends_only_Yield; [assumption | constructor]. Qed.

Lemma sends_only_seq P (i j : Interaction unit) :
  sends_only P i -> sends_only P j -> sends_only P (bind i (fun _ => j)).
Proof.
  induction 1 as [| m i Hm Hi IH]; intros Hj; simpl; auto.
  apply (sends_only_Yield P m (bind i (fun _ => j))); auto.
Qed.

Lemma sends_only_forEach P {X} (l : list X) (f : X -> Interaction unit) :
  (forall x, sends_only P (f x)) -> sends_only P (forEach l f).
Proof.
  intros Hf. induction l as [| x l IH]; simpl.
  - constructor.
  - apply sends_only_seq; auto.
Qed.

Lemma sends_only_when P (c : bool) (i : Interaction unit) :
  sends_only P i -> sends_only P (when c i).
Proof. destruct c; simpl; auto using sends_only_Return. Qed.

Lemma sends_only_whenSome P {X} (o : option X) (f : X -> Interaction unit) :
  (forall x, sends_only P (f x)) -> sends_only P (whenSome o f).
Proof. destruct o; simpl; auto using sends_only_Return. Qed.

Lemma sends_only_weaken (P Q : SendParams -> Prop) i :
  (forall m, P m -> Q m) -> sends_only P i -> sends_only Q i.
Proof. intros HPQ. induction 1; constructor; auto. Qed.

Lemma sends_only_plain P i : sends_only P i -> plain i.
Proof. induction 1; constructor; auto. Qed.

Lemma sends_only_Forall P i : sends_only P i -> Forall P (trace i).
Proof. induction 1; simpl; constructor; auto. Qed.

(** A request of the signing instruction, of a given stage, with a given
    [expectedResponseLength]. *)
Definition staged (stage : Z) (erl : option nat) (m : SendParams) : Prop :=
  ins m = INS_SIGN_TX /\ p1 m = stage /\ expectedResponseLength m = erl.

Lemma staged_send stage p2_ data_ erl : staged stage erl (send stage p2_ data_ erl).
Proof. repeat split. Qed.

Ltac sending :=
  repeat first
    [ solve [eauto with plain]
    | apply sends_only_Return
    | apply sends_only_yield_; apply staged_send
    | apply sends_only_seq
    | apply sends_only_forEach; intros
    | apply sends_only_when
    | apply sends_only_whenSome; intros
    | match goal with
      | |- sends_only _ (match ?x with _ => _ end) => destruct x
      | |- sends_only _ (if ?x then _ else _) => destruct x
      end ].

Ltac plainly :=
  repeat first
    [ solve [eauto using sends_only_plain with plain]
    | apply plain_Return
    | apply plain_yield_
    | apply plain_seq
    | apply plain_forEach; intros
    | apply plain_when
    | apply plain_whenSome; intros
    | match goal with
      | |- plain (match ?x with _ => _ end) => destruct x
      | |- plain (if ?x then _ else _) => destruct x
      end ].

Section StageFacts.

Context {library : Serialization} {platform : Platform}.

(** *** The stages that only send *)

Lemma sends_sendChunks_loop turns hex p2 start :
  sends_only (staged P1.STAGE_OUTPUTS (Some 0)) (sendChunks_loop turns hex p2 start).
Proof.
  revert start. induction turns as [| turns IH]; intros start;
    cbn [sendChunks_loop].
  - constructor.
  - destruct (start <? List.length hex); [| constructor].
    apply sends_only_seq; [apply sends_only_yield_, staged_send | apply IH].
Qed.

Lemma sends_sendChunks hex p2 :
  sends_only (staged P1.STAGE_OUTPUTS (Some 0)) (signTx_addOutput_sendChunks hex p2).
Proof. apply sends_sendChunks_loop. Qed.

Lemma sends_addTokenBundle {T} (b : list (ParsedAssetGroup T)) p1 f :
  sends_only (staged p1 (Some 0)) (signTx_addTokenBundle b p1 f).
Proof. unfold signTx_addTokenBundle. sending. Qed.

#[local] Hint Resolve sends_sendChunks sends_addTokenBundle : plain.

Lemma sends_init tx mode paths version :
  sends_only (staged P1.STAGE_INIT (Some 0)) (signTx_init tx mode paths version).
Proof. unfold signTx_init. sending. Qed.

Lemma sends_addInput input :
  sends_only (staged P1.STAGE_INPUTS (Some 0)) (signTx_addInput input).
Proof. unfold signTx_addInput. sending. Qed.

Lemma sends_addOutput output version :
  sends_only (staged P1.STAGE_OUTPUTS (Some 0)) (signTx_addOutput output version).
Proof. unfold signTx_addOutput. sending. Qed.

Lemma sends_addCertificate certificate version :
  sends_only (staged P1.STAGE_CERTIFICATES (Some 0))
    (signTx_addCertificate certificate version).
Proof.
  unfold signTx_addCertificate.
  destruct certificate; cbn [certificate_type]; sending;
    unfold signTx_addStakePoolRegistrationCertificate,
      signTx_addStakePoolRegistrationCertificateLegacy; sending.
Qed.

Lemma sends_addWithdrawal w version :
  sends_only (staged P1.STAGE_WITHDRAWALS (Some 0)) (signTx_addWithdrawal w version).
Proof. unfold signTx_addWithdrawal. sending. Qed.

Lemma sends_setFee fee :
  sends_only (staged P1.STAGE_FEE (Some 0)) (signTx_setFee fee).
Proof. unfold signTx_setFee. sending. Qed.

Lemma sends_setTtl ttl :
  sends_only (staged P1.STAGE_TTL (Some 0)) (signTx_setTtl ttl).
Proof. unfold signTx_setTtl. sending. Qed.

Lemma sends_setValidityIntervalStart s :
  sends_only (staged P1.STAGE_VALIDITY_INTERVAL_START None)
    (signTx_setValidityIntervalStart s).
Proof. unfold signTx_setValidityIntervalStart. sending. Qed.

Lemma sends_setMint mint :
  sends_only (staged P1.STAGE_MINT (Some 0)) (signTx_setMint mint).
Proof. unfold signTx_setMint. sending. Qed.

Lemma sends_setScriptDataHash h :
  sends_only (staged P1.STAGE_SCRIPT_DATA_HASH None) (signTx_setScriptDataHash h).
Proof. unfold signTx_setScriptDataHash. sending. Qed.

Lemma sends_addCollateralInput input :
  sends_only (staged P1.STAGE_COLLATERAL_INPUTS (Some 0))
    (signTx_addCollateralInput input).
Proof. unfold signTx_addCollateralInput. sending. Qed.

Lemma sends_addRequiredSigner signer :
  sends_only (staged P1.STAGE_REQUIRED_SIGNERS (Some 0))
    (signTx_addRequiredSigner signer).
Proof. unfold signTx_addRequiredSigner. sending. Qed.

Lemma sends_addCollateralOutput output version :
  sends_only (staged P1.STAGE_COLLATERAL_OUTPUT (Some 0))
    (signTx_addCollateralOutput output version).
Proof. unfold signTx_addCollateralOutput. sending. Qed.

Lemma sends_addTotalCollateral t :
  sends_only (staged P1.STAGE_TOTAL_COLLATERAL (Some 0)) (signTx_addTotalCollateral t).
Proof. unfold signTx_addTotalCollateral. sending. Qed.

Lemma sends_addReferenceInput input :
  sends_only (staged P1.STAGE_REFERENCE_INPUTS (Some 0))
    (signTx_addReferenceInput input).
Proof. unfold signTx_addReferenceInput. sending. Qed.

#[local] Hint Resolve sends_init sends_addInput sends_addOutput sends_addCertificate
  sends_addWithdrawal sends_setFee sends_setTtl sends_setValidityIntervalStart
  sends_setMint sends_setScriptDataHash sends_addCollateralInput
  sends_addRequiredSigner sends_addCollateralOutput sends_addTotalCollateral
  sends_addReferenceInput : plain.

(** *** The stages that read a response *)

Lemma oblivious_yield m : oblivious (yield m).
Proof.
  apply oblivious_Yield; intros; [apply oblivious_Return | apply same_shape_Return].
Qed.

Lemma oblivious_awaitConfirm : oblivious signTx_awaitConfirm.
Proof.
  unfold signTx_awaitConfirm. apply oblivious_bind; intros.
  - apply oblivious_yield.
  - apply oblivious_Return.
  - apply same_shape_Return.
Qed.

Lemma oblivious_getWitness path : oblivious (signTx_getWitness path).
Proof.
  unfold signTx_getWitness. apply oblivious_bind; intros.
  - apply oblivious_yield.
  - apply oblivious_Return.
  - apply same_shape_Return.
Qed.

(** The request for the witness of one path. *)
Definition witnessRequest (path : ValidBIP32Path) : SendParams :=
  send P1.STAGE_WITNESSES P2.UNUSED (serializeTxWitnessRequest path)
    (Some ED25519_SIGNATURE_LENGTH).

Lemma trace_getWitnesses paths :
  trace (getWitnesses paths) = map witnessRequest paths /\
  exists ws, ending (getWitnesses paths) = Done ws.
Proof.
  induction paths as [| p paths [IHt [ws IHe]]]; simpl.
  - split; eauto.
  - rewrite trace_bind, ending_bind, IHt, IHe. simpl.
    rewrite app_nil_r. split; eauto.
Qed.

Lemma oblivious_getWitnesses paths : oblivious (getWitnesses paths).
Proof.
  induction paths as [| p paths IH]; cbn [getWitnesses].
  - apply oblivious_Return.
  - apply oblivious_bind; intros.
    + apply oblivious_getWitness.
    + apply oblivious_bind; intros;
        [assumption | apply oblivious_Return | apply same_shape_Return].
    + apply same_shape_bind; intros;
        [apply same_shape_refl | apply same_shape_Return].
Qed.

Lemma oblivious_setAuxiliaryData_before_v2_3 a :
  oblivious (signTx_setAuxiliaryData_before_v2_3 a).
Proof.
  destruct a; cbn [signTx_setAuxiliaryData_before_v2_3].
  - apply oblivious_seq; [apply plain_oblivious; plainly | apply oblivious_Return].
  - apply oblivious_Throw.
Qed.

Lemma oblivious_setAuxiliaryData a version :
  oblivious (signTx_setAuxiliaryData a version).
Proof.
  unfold signTx_setAuxiliaryData.
  destruct a as [h | params]; cbn [assert bind].
  - apply oblivious_seq; [apply plain_oblivious; plainly | apply oblivious_Return].
  - repeat (apply oblivious_seq; [try solve [apply plain_oblivious; plainly] |]).
    + destruct (truthy_hex (votePublicKey params)
                || truthy_object (votePublicKeyPath params)).
      * apply plain_oblivious; plainly.
      * destruct (delegations params);
          [apply plain_oblivious; plainly | apply oblivious_Throw].
    + apply oblivious_bind; intros;
        [apply oblivious_yield | apply oblivious_Return | apply same_shape_Return].
Qed.

End StageFacts.

Section CeremonyFacts.

Context {library : Serialization} {platform : Platform}.

#[local] Hint Resolve sends_sendChunks sends_addTokenBundle
  sends_init sends_addInput sends_addOutput sends_addCertificate
  sends_addWithdrawal sends_setFee sends_setTtl sends_setValidityIntervalStart
  sends_setMint sends_setScriptDataHash sends_addCollateralInput
  sends_addRequiredSigner sends_addCollateralOutput sends_addTotalCollateral
  sends_addReferenceInput : plain.

(** Whether the firmware takes the auxiliary data before the
    transaction body. *)
Definition auxDataBeforeTxBody (version : Version) : bool :=
  supportsCatalystRegistration (getCompatibility version)
  || supportsCIP36 (getCompatibility version).

(** Both pre-flight checks pass. *)
Definition preflight (version : Version) (request : ParsedSigningRequest) : Check :=
  match ensureLedgerAppVersionCompatible version with
  | Some e => Some e
  | None => ensureRequestSupportedByAppVersion version request
  end.

(** The requests of the stages from INPUTS to WITHDRAWALS. *)
Definition requestsInputsToWithdrawals (version : Version) (tx : ParsedTransaction)
  : list SendParams :=
  trace (forEach (inputs tx) signTx_addInput)
  ++ trace (forEach (outputs tx) (fun output => signTx_addOutput output version))
  ++ trace (signTx_setFee (fee tx))
  ++ trace (whenSome (ttl tx) signTx_setTtl)
  ++ trace (forEach (certificates tx) (fun c => signTx_addCertificate c version))
  ++ trace (forEach (withdrawals tx) (fun w => signTx_addWithdrawal w version)).

(** The requests of the stages from VALIDITY_START to REFERENCE_INPUTS. *)
Definition requestsValidityToReferenceInputs (version : Version) (tx : ParsedTransaction)
  : list SendParams :=
  trace (whenSome (validityIntervalStart tx) signTx_setValidityIntervalStart)
  ++ trace (whenSome (mint tx) signTx_setMint)
  ++ trace (whenSome (scriptDataHashHex tx) signTx_setScriptDataHash)
  ++ trace (forEach (collateralInputs tx) signTx_addCollateralInput)
  ++ trace (forEach (requiredSigners tx) signTx_addRequiredSigner)
  ++ trace (whenSome (collateralOutput tx)
              (fun o => signTx_addCollateralOutput o version))
  ++ trace (whenSome (totalCollateral tx) signTx_addTotalCollateral)
  ++ trace (forEach (referenceInputs tx) signTx_addReferenceInput).

Definition confirmRequest : SendParams :=
  send P1.STAGE_CONFIRM P2.UNUSED [] (Some TX_HASH_LENGTH).

(** The requests of CONFIRM and WITNESSES. *)
Definition requestsConfirmAndWitnesses (request : ParsedSigningRequest)
  : list SendParams :=
  confirmRequest :: map witnessRequest (gatherWitnessPaths request).

(** The AUX_DATA stage in its place after INIT, and in its place after
    WITHDRAWALS. *)
Definition auxDataStageEarly (version : Version) (tx : ParsedTransaction)
  : Interaction (option TxAuxiliaryDataSupplement) :=
  match auxiliaryData tx with
  | Some auxiliaryData =>
      if auxDataBeforeTxBody version then signTx_setAuxiliaryData auxiliaryData version
      else Return None
  | None => Return None
  end.

Definition auxDataStageLate (version : Version) (tx : ParsedTransaction)
  : Interaction (option TxAuxiliaryDataSupplement) :=
  match auxiliaryData tx with
  | Some auxiliaryData =>
      if negb (auxDataBeforeTxBody version) then
        signTx_setAuxiliaryData_before_v2_3 auxiliaryData
      else Return None
  | None => Return None
  end.

Lemma oblivious_signTransaction version request :
  oblivious (signTransaction version request).
Proof.
  unfold signTransaction.
  apply oblivious_seq.
  { unfold checked. destruct (ensureLedgerAppVersionCompatible version);
      [apply oblivious_Throw | apply oblivious_Return]. }
  apply oblivious_seq.
  { unfold checked. destruct (ensureRequestSupportedByAppVersion version request);
      [apply oblivious_Throw | apply oblivious_Return]. }
  cbv zeta.
  apply oblivious_seq; [apply plain_oblivious; plainly |].
  assert (Htail : forall (s : option TxAuxiliaryDataSupplement),
    oblivious
      (txHashHex <- signTx_awaitConfirm;;
       witnesses <- getWitnesses (gatherWitnessPaths request);;
       Return {| txHashHex := txHashHex; witnesses := witnesses;
                 auxiliaryDataSupplement := s |})).
  { intros s. apply oblivious_bind; intros.
    - apply oblivious_awaitConfirm.
    - apply oblivious_bind; intros;
        [apply oblivious_getWitnesses | apply oblivious_Return
        | apply same_shape_Return].
    - apply same_shape_bind; intros;
        [apply same_shape_refl | apply same_shape_Return]. }
  assert (Hshape : forall (s s' : option TxAuxiliaryDataSupplement),
    same_shape
      (txHashHex <- signTx_awaitConfirm;;
       witnesses <- getWitnesses (gatherWitnessPaths request);;
       Return {| txHashHex := txHashHex; witnesses := witnesses;
                 auxiliaryDataSupplement := s |})
      (txHashHex <- signTx_awaitConfirm;;
       witnesses <- getWitnesses (gatherWitnessPaths request);;
       Return {| txHashHex := txHashHex; witnesses := witnesses;
                 auxiliaryDataSupplement := s' |})).
  { intros s s'. apply same_shape_bind; intros; [apply same_shape_refl |].
    apply same_shape_bind; intros; [apply same_shape_refl |].
    apply same_shape_Return. }
  assert (Hlate : forall (s : option TxAuxiliaryDataSupplement),
    oblivious
      (match auxiliaryData (tx request) with
       | Some auxiliaryData =>
           if negb (supportsCatalystRegistration (getCompatibility version)
                    || supportsCIP36 (getCompatibility version))
           then signTx_setAuxiliaryData_before_v2_3 auxiliaryData
           else Return s
       | None => Return s
       end)).
  { intros s. destruct (auxiliaryData (tx request)); [| apply oblivious_Return].
    destruct (negb _);
      [apply oblivious_setAuxiliaryData_before_v2_3 | apply oblivious_Return]. }
  apply oblivious_bind.
  - destruct (auxiliaryData (tx request)); [| apply oblivious_Return].
    destruct (_ || _); [apply oblivious_setAuxiliaryData | apply oblivious_Return].
  - intros s.
    repeat (apply oblivious_seq; [solve [apply plain_oblivious; plainly] |]).
    apply oblivious_bind; [apply Hlate | | ].
    + intros s'.
      repeat (apply oblivious_seq; [solve [apply plain_oblivious; plainly] |]).
      apply Htail.
    + intros s1 s2.
      repeat (apply same_shape_bind; [apply same_shape_refl | intros _ _]).
      apply Hshape.
  - intros s1 s2.
    repeat (apply same_shape_bind; [apply same_shape_refl | intros _ _]).
    apply same_shape_bind.
    + destruct (auxiliaryData (tx request)); [| apply same_shape_Return].
      destruct (negb _); [apply same_shape_refl | apply same_shape_Return].
    + intros s s'.
      repeat (apply same_shape_bind; [apply same_shape_refl | intros _ _]).
      apply Hshape.
Qed.

Lemma messages_signTransaction (d : Device) version request :
  messages d (signTransaction version request)
  = trace (signTransaction version request).
Proof.
  unfold messages.
  now destruct (oblivious_signTransaction version request d []) as [H _].
Qed.

Lemma thrown_signTransaction (d : Device) version request :
  thrown (outcome d (signTransaction version request))
  = thrown (ending (signTransaction version request)).
Proof.
  unfold outcome.
  now destruct (oblivious_signTransaction version request d []) as [_ H].
Qed.

Lemma signTransaction_rejected version request e :
  preflight version request = Some e ->
  trace (signTransaction version request) = []
  /\ ending (signTransaction version request) = Failed e.
Proof.
  unfold preflight, signTransaction. intros H.
  destruct (ensureLedgerAppVersionCompatible version) as [e1 |].
  - injection H as ->. split; reflexivity.
  - rewrite H. split; reflexivity.
Qed.

Lemma trace_getWitnesses_then {B} paths (f : list Witness -> Interaction B) :
  (forall ws, trace (f ws) = []) ->
  trace (bind (getWitnesses paths) f) = map witnessRequest paths.
Proof.
  intros Hf. rewrite trace_bind.
  destruct (trace_getWitnesses paths) as [Ht [ws He]].
  now rewrite Ht, He, Hf, app_nil_r.
Qed.

Lemma trace_confirm_and_witnesses request s :
  trace (txHashHex <- signTx_awaitConfirm;;
         witnesses <- getWitnesses (gatherWitnessPaths request);;
         Return {| txHashHex := txHashHex; witnesses := witnesses;
                   auxiliaryDataSupplement := s |})
  = requestsConfirmAndWitnesses request.
Proof.
  unfold requestsConfirmAndWitnesses, signTx_awaitConfirm, yield. cbn [bind trace].
  f_equal. now apply trace_getWitnesses_then.
Qed.

Lemma trace_signTransaction version request :
  preflight version request = None ->
  trace (signTransaction version request) =
  trace (signTx_init (tx request) (signingMode request)
           (gatherWitnessPaths request) version)
  ++ trace (auxDataStageEarly version (tx request))
  ++ match ending (auxDataStageEarly version (tx request)) with
     | Failed _ => []
     | Done _ =>
         requestsInputsToWithdrawals version (tx request)
         ++ trace (auxDataStageLate version (tx request))
         ++ match ending (auxDataStageLate version (tx request)) with
            | Failed _ => []
            | Done _ =>
                requestsValidityToReferenceInputs version (tx request)
                ++ requestsConfirmAndWitnesses request
            end
     end.
Proof.
  unfold preflight, signTransaction. intros H.
  destruct (ensureLedgerAppVersionCompatible version) as [e1 |]; [discriminate |].
  rewrite H. cbn [checked bind]. cbv zeta.
  rewrite trace_seq_plain by plainly. f_equal.
  rewrite trace_bind.
  change (match auxiliaryData (tx request) with
          | Some auxiliaryData =>
              if supportsCatalystRegistration (getCompatibility version)
                 || supportsCIP36 (getCompatibility version)
              then signTx_setAuxiliaryData auxiliaryData version
              else Return None
          | None => Return None
          end) with (auxDataStageEarly version (tx request)).
  f_equal.
  destruct (ending (auxDataStageEarly version (tx request))) as [s |]; [| reflexivity].
  unfold requestsInputsToWithdrawals, requestsValidityToReferenceInputs.
  repeat (rewrite trace_seq_plain by plainly).
  rewrite <- ?app_assoc. do 6 f_equal.
  rewrite trace_bind.
  assert (Hlate :
    trace (match auxiliaryData (tx request) with
           | Some auxiliaryData =>
               if negb (supportsCatalystRegistration (getCompatibility version)
                        || supportsCIP36 (getCompatibility version))
               then signTx_setAuxiliaryData_before_v2_3 auxiliaryData
               else Return s
           | None => Return s
           end) = trace (auxDataStageLate version (tx request))
    /\ exists s',
      thrown (ending (auxDataStageLate version (tx request))) = None ->
      ending (match auxiliaryData (tx request) with
              | Some auxiliaryData =>
                  if negb (supportsCatalystRegistration (getCompatibility version)
                           || supportsCIP36 (getCompatibility version))
                  then signTx_setAuxiliaryData_before_v2_3 auxiliaryData
                  else Return s
              | None => Return s
              end) = Done s').
  { unfold auxDataStageLate, auxDataBeforeTxBody.
    destruct (auxiliaryData (tx request)) as [a |];
      [| split; [reflexivity | exists s; reflexivity]].
    destruct (negb _); [| split; [reflexivity | exists s; reflexivity]].
    destruct a; cbn; (split; [reflexivity |]); exists None;
      [reflexivity | discriminate]. }
  destruct Hlate as [Ht [s' He]]. rewrite Ht. f_equal.
  destruct (ending (auxDataStageLate version (tx request))) as [s0 |] eqn:El.
  - rewrite He by reflexivity.
    repeat (rewrite trace_seq_plain by plainly).
    rewrite <- ?app_assoc. do 8 f_equal.
    apply trace_confirm_and_witnesses.
  - revert El. unfold auxDataStageLate, auxDataBeforeTxBody.
    destruct (auxiliaryData (tx request)) as [a |]; [| discriminate].
    destruct (negb _); [| discriminate].
    destruct a; cbn; [discriminate |]. reflexivity.
Qed.

End CeremonyFacts.

(** ** Deduplication *)

Section Uniquify.

Local Open Scope string_scope.

Definition digit_char (c : ascii) : bool :=
  ((48 <=? N_of_ascii c) && (N_of_ascii c <=? 57))%N.

Fixpoint all_digits (s : string) : bool :=
  match s with
  | EmptyString => true
  | String c rest => digit_char c && all_digits rest
  end.

(** Where a string of digits ends: at the end, or before a character
    that is not a digit. *)
Definition ends_number (s : string) : bool :=
  match s with
  | EmptyString => true
  | String c _ => negb (digit_char c)
  end.

Lemma string_append_assoc (a b c : string) : (a ++ b) ++ c = a ++ (b ++ c).
Proof. induction a as [| x a IH]; simpl; [reflexivity | now rewrite IH]. Qed.

Lemma all_digits_string_of_uint d : all_digits (NilEmpty.string_of_uint d) = true.
Proof. induction d; simpl; auto. Qed.

Lemma string_of_uint_inj d d' :
  NilEmpty.string_of_uint d = NilEmpty.string_of_uint d' -> d = d'.
Proof.
  intros H. apply (f_equal NilEmpty.uint_of_string) in H.
  rewrite !NilEmpty.usu in H. now injection H.
Qed.

Lemma decimal_inj n m : decimal n = decimal m -> n = m.
Proof.
  unfold decimal. intros H. apply string_of_uint_inj in H.
  now apply DecimalN.Unsigned.to_uint_inj.
Qed.

Lemma decimal_digits n : all_digits (decimal n) = true.
Proof. apply all_digits_string_of_uint. Qed.

Lemma decimal_nonempty n : decimal n <> "".
Proof.
  unfold decimal. intros H.
  assert (Hn : N.to_uint n = Decimal.Nil).
  { apply string_of_uint_inj. exact H. }
  destruct n as [| p]; simpl in Hn; [discriminate |].
  now apply DecimalPos.Unsigned.to_uint_nonnil in Hn.
Qed.

Lemma digits_split s1 : forall s2 r1 r2,
  all_digits s1 = true -> all_digits s2 = true ->
  ends_number r1 = true -> ends_number r2 = true ->
  s1 ++ r1 = s2 ++ r2 -> s1 = s2 /\ r1 = r2.
Proof.
  induction s1 as [| c s1 IH]; intros [| c' s2] r1 r2 H1 H2 E1 E2 H; simpl in *.
  - auto.
  - subst r1. simpl in E1. apply andb_prop in H2 as [H2 _].
    rewrite H2 in E1. discriminate.
  - subst r2. simpl in E2. apply andb_prop in H1 as [H1 _].
    rewrite H1 in E2. discriminate.
  - injection H as -> H.
    apply andb_prop in H1 as [_ H1]. apply andb_prop in H2 as [_ H2].
    destruct (IH s2 r1 r2 H1 H2 E1 E2 H) as [-> ->]. auto.
Qed.

Lemma join_numbers_inj p : forall q,
  join_numbers p ++ "]" = join_numbers q ++ "]" -> p = q.
Proof.
  induction p as [| n p IH]; intros [| m q] H.
  - reflexivity.
  - exfalso. simpl in H.
    assert (Hm := decimal_digits m). assert (Hne := decimal_nonempty m).
    destruct q; [| rewrite string_append_assoc in H];
      destruct (decimal m) as [| c s]; try congruence;
      simpl in H; injection H as Hc _; subst c; discriminate.
  - exfalso. simpl in H.
    assert (Hn := decimal_digits n). assert (Hne := decimal_nonempty n).
    destruct p; [| rewrite string_append_assoc in H];
      destruct (decimal n) as [| c s]; try congruence;
      simpl in H; injection H as Hc _; subst c; discriminate.
  - cbn [join_numbers] in H.
    assert (Hsplit : forall (x y : N) (rx ry : string),
      ends_number rx = true -> ends_number ry = true ->
      decimal x ++ rx = decimal y ++ ry -> x = y /\ rx = ry).
    { intros x y rx ry Ex Ey E.
      destruct (digits_split _ _ _ _ (decimal_digits x) (decimal_digits y) Ex Ey E)
        as [Hd Hr].
      split; [now apply decimal_inj | assumption]. }
    destruct p as [| n' p], q as [| m' q].
    + apply Hsplit in H as [-> _]; auto.
    + rewrite string_append_assoc in H.
      apply Hsplit in H as [_ H]; auto. discriminate.
    + rewrite string_append_assoc in H.
      apply Hsplit in H as [_ H]; auto. discriminate.
    + rewrite !string_append_assoc in H.
      apply Hsplit in H as [-> H]; auto.
      simpl in H. injection H as H.
      f_equal. apply IH. exact H.
Qed.

Lemma JSON_stringify_inj p q : JSON_stringify p = JSON_stringify q -> p = q.
Proof.
  unfold JSON_stringify. intros H. simpl in H. injection H as H.
  now apply join_numbers_inj.
Qed.

(** No key written by [uniquify] is an array index. *)
Lemma JSON_stringify_bracket p : exists rest, JSON_stringify p = String "["%char rest.
Proof. unfold JSON_stringify. simpl. eauto. Qed.

End Uniquify.

Lemma path_eqb_eq p q : path_eqb p q = true <-> p = q.
Proof.
  unfold path_eqb. destruct (list_eq_dec N.eq_dec p q); split; intros; congruence.
Qed.

Lemma path_eqb_refl p : path_eqb p p = true.
Proof. now apply path_eqb_eq. Qed.

Lemma path_eqb_neq p q : path_eqb p q = false <-> p <> q.
Proof.
  unfold path_eqb. destruct (list_eq_dec N.eq_dec p q); split; intros; congruence.
Qed.

(** [known seen q]: the path [q] is among [seen]. *)
Definition known (seen : list ValidBIP32Path) (q : ValidBIP32Path) : bool :=
  existsb (path_eqb q) seen.

Lemma known_In seen q : known seen q = true <-> In q seen.
Proof.
  unfold known. rewrite existsb_exists. split.
  - intros [x [Hx Hq]]. apply path_eqb_eq in Hq. now subst.
  - intros H. exists q. split; [assumption | apply path_eqb_refl].
Qed.

Lemma known_not_In seen q : known seen q = false <-> ~ In q seen.
Proof.
  rewrite <- known_In. destruct (known seen q); split; intros; congruence.
Qed.

Lemma filter_filter {A} (f g : A -> bool) l :
  filter f (filter g l) = filter (fun x => f x && g x) l.
Proof.
  induction l as [| x l IH]; simpl; auto.
  destruct (g x); simpl; rewrite ?andb_true_r, ?andb_false_r.
  - destruct (f x); now rewrite IH.
  - exact IH.
Qed.

Lemma filter_true {A} (l : list A) : filter (fun _ => true) l = l.
Proof. induction l; simpl; congruence. Qed.

(** The entries of the object of [uniquify] are keyed by the text of
    their path. *)
Definition keyed (o : JsObject ValidBIP32Path) : Prop :=
  forall k v, In (k, v) o -> k = JSON_stringify v.

Lemma obj_set_present o p :
  keyed o -> In p (Object_values o) -> obj_set o (JSON_stringify p) p = o.
Proof.
  induction o as [| [k v] o IH]; intros Hk Hin; simpl in *; [contradiction |].
  assert (Hkv : k = JSON_stringify v) by (apply Hk; left; reflexivity).
  destruct (String.eqb k (JSON_stringify p)) eqn:E.
  - apply String.eqb_eq in E. rewrite Hkv in E.
    apply JSON_stringify_inj in E. now subst.
  - f_equal. apply IH.
    + intros k' v' H. apply Hk. right. exact H.
    + destruct Hin as [-> | Hin]; [| assumption].
      rewrite Hkv, String.eqb_refl in E. discriminate.
Qed.

Lemma obj_set_absent o p :
  keyed o -> ~ In p (Object_values o) ->
  obj_set o (JSON_stringify p) p = o ++ [(JSON_stringify p, p)].
Proof.
  induction o as [| [k v] o IH]; intros Hk Hin; simpl in *; [reflexivity |].
  assert (Hkv : k = JSON_stringify v) by (apply Hk; left; reflexivity).
  destruct (String.eqb k (JSON_stringify p)) eqn:E.
  - apply String.eqb_eq in E. rewrite Hkv in E.
    apply JSON_stringify_inj in E. subst. tauto.
  - f_equal. apply IH; [| tauto].
    intros k' v' H. apply Hk. right. exact H.
Qed.

Lemma keyed_snoc o p : keyed o -> keyed (o ++ [(JSON_stringify p, p)]).
Proof.
  intros Hk k v H. apply in_app_or in H as [H | [H | []]]; [now apply Hk |].
  now injection H as <- <-.
Qed.

Lemma uniquifier_values l : forall o,
  keyed o ->
  Object_values (fold_left (fun u p => obj_set u (JSON_stringify p) p) l o)
  = Object_values o
    ++ filter (fun q => negb (known (Object_values o) q)) (dedupe l).
Proof.
  induction l as [| p l IH]; intros o Hk; cbn [fold_left dedupe filter].
  - now rewrite app_nil_r.
  - destruct (known (Object_values o) p) eqn:E; cbn [negb].
    + apply known_In in E as Hin.
      rewrite (obj_set_present o p Hk Hin), (IH o Hk).
      f_equal. rewrite filter_filter. apply filter_ext. intros q.
      destruct (path_eqb q p) eqn:Eq; cbn [negb]; [| now rewrite andb_true_r].
      apply path_eqb_eq in Eq. subst q. now rewrite E.
    + apply known_not_In in E as Hin.
      rewrite (obj_set_absent o p Hk Hin), (IH _ (keyed_snoc o p Hk)).
      unfold Object_values. rewrite map_app. cbn [map snd].
      rewrite <- app_assoc. cbn [app]. do 2 f_equal.
      rewrite filter_filter. apply filter_ext. intros q.
      unfold known. rewrite existsb_app. cbn [existsb].
      rewrite orb_false_r, negb_orb. reflexivity.
Qed.

(** The object of [uniquify] yields the deduplication of the
    specification. *)
Lemma uniquify_dedupe l : uniquify l = dedupe l.
Proof.
  unfold uniquify.
  rewrite uniquifier_values by (intros k v []).
  cbn [Object_values map app]. apply filter_true.
Qed.

Lemma dedupe_In l p : In p (dedupe l) <-> In p l.
Proof.
  induction l as [| a l IH]; simpl; [tauto |].
  rewrite filter_In, IH. split.
  - intros [H | [H _]]; auto.
  - intros [H | H]; auto.
    destruct (list_eq_dec N.eq_dec a p) as [-> | Hne]; auto.
    right. split; [assumption |].
    apply negb_true_iff, path_eqb_neq. congruence.
Qed.

Lemma dedupe_NoDup l : NoDup (dedupe l).
Proof.
  induction l as [| a l IH]; simpl; constructor.
  - rewrite filter_In. intros [_ H]. now rewrite path_eqb_refl in H.
  - now apply NoDup_filter.
Qed.

Lemma dedupe_app l1 l2 :
  dedupe (l1 ++ l2) = dedupe l1 ++ filter (fun q => negb (known l1 q)) (dedupe l2).
Proof.
  induction l1 as [| a l1 IH]; cbn [app dedupe].
  - cbn. now rewrite filter_true.
  - rewrite IH, filter_app, filter_filter. cbn [app]. do 2 f_equal.
    apply filter_ext. intros q. unfold known. cbn [existsb].
    now rewrite negb_orb.
Qed.

Lemma dedupe_fixed l : NoDup l -> dedupe l = l.
Proof.
  induction 1 as [| a l Hnin Hnd IH]; simpl; [reflexivity |].
  rewrite IH. f_equal. apply forallb_filter_id, forallb_forall.
  intros x Hx. apply negb_true_iff, path_eqb_neq. congruence.
Qed.

Lemma dedupe_idempotent l : dedupe (dedupe l) = dedupe l.
Proof. apply dedupe_fixed, dedupe_NoDup. Qed.

(** A path stands right behind the distinct paths that come before its
    first occurrence. *)
Lemma dedupe_first_occurrence l1 p l2 :
  ~ In p l1 ->
  dedupe (l1 ++ p :: l2)
  = dedupe l1
    ++ p :: filter (fun q => negb (known l1 q) && negb (path_eqb q p)) (dedupe l2).
Proof.
  intros Hnin. rewrite dedupe_app. cbn [dedupe filter].
  apply known_not_In in Hnin. rewrite Hnin. cbn [negb].
  now rewrite filter_filter.
Qed.

(** ** The stages of the ceremony *)

Definition stage_in (stages : list Z) (m : SendParams) : Prop := In (p1 m) stages.

Definition stagesInputsToWithdrawals : list Z :=
  [ P1.STAGE_INPUTS; P1.STAGE_OUTPUTS; P1.STAGE_FEE; P1.STAGE_TTL;
    P1.STAGE_CERTIFICATES; P1.STAGE_WITHDRAWALS ].

Definition stagesValidityToReferenceInputs : list Z :=
  [ P1.STAGE_VALIDITY_INTERVAL_START; P1.STAGE_MINT; P1.STAGE_SCRIPT_DATA_HASH;
    P1.STAGE_COLLATERAL_INPUTS; P1.STAGE_REQUIRED_SIGNERS;
    P1.STAGE_COLLATERAL_OUTPUT; P1.STAGE_TOTAL_COLLATERAL;
    P1.STAGE_REFERENCE_INPUTS ].

Lemma Forall_trace_bind {A B} (P : SendParams -> Prop)
    (i : Interaction A) (f : A -> Interaction B) :
  Forall P (trace i) -> (forall a, Forall P (trace (f a))) ->
  Forall P (trace (bind i f)).
Proof.
  intros Hi Hf. rewrite trace_bind. apply Forall_app. split; [assumption |].
  destruct (ending i); [apply Hf | constructor].
Qed.

Lemma staged_stage_in stage erl stages m :
  In stage stages -> staged stage erl m -> stage_in stages m.
Proof. intros Hin [_ [H _]]. unfold stage_in. now rewrite H. Qed.

Lemma sends_only_stage_in stage erl stages i :
  In stage stages -> sends_only (staged stage erl) i ->
  Forall (stage_in stages) (trace i).
Proof.
  intros Hin H. apply sends_only_Forall.
  eapply sends_only_weaken; [| exact H].
  intros m. now apply staged_stage_in.
Qed.

Section Segments.

Context {library : Serialization} {platform : Platform}.

#[local] Hint Resolve sends_sendChunks sends_addTokenBundle
  sends_init sends_addInput sends_addOutput sends_addCertificate
  sends_addWithdrawal sends_setFee sends_setTtl sends_setValidityIntervalStart
  sends_setMint sends_setScriptDataHash sends_addCollateralInput
  sends_addRequiredSigner sends_addCollateralOutput sends_addTotalCollateral
  sends_addReferenceInput : plain.

Ltac staged_in :=
  match goal with
  | |- Forall (stage_in ?l) (trace ?i) =>
      solve [ eapply sends_only_stage_in; [| sending];
              simpl; repeat (first [left; reflexivity | right]) ]
  end.

Lemma stages_requestsInputsToWithdrawals version tx :
  Forall (stage_in stagesInputsToWithdrawals)
    (requestsInputsToWithdrawals version tx).
Proof.
  unfold requestsInputsToWithdrawals.
  repeat (apply Forall_app; split); staged_in.
Qed.

Lemma stages_requestsValidityToReferenceInputs version tx :
  Forall (stage_in stagesValidityToReferenceInputs)
    (requestsValidityToReferenceInputs version tx).
Proof.
  unfold requestsValidityToReferenceInputs.
  repeat (apply Forall_app; split); staged_in.
Qed.

Lemma stages_witnessRequests paths :
  Forall (staged P1.STAGE_WITNESSES (Some ED25519_SIGNATURE_LENGTH))
    (map witnessRequest paths).
Proof.
  apply Forall_forall. intros m Hm. apply in_map_iff in Hm as [p [<- _]].
  apply staged_send.
Qed.

(** Every request of [signTx_setAuxiliaryData] is of the AUX_DATA
    stage. *)
Lemma stages_setAuxiliaryData a version :
  Forall (stage_in [P1.STAGE_AUX_DATA]) (trace (signTx_setAuxiliaryData a version)).
Proof.
  unfold signTx_setAuxiliaryData.
  destruct a as [h | params]; cbn [assert bind].
  - apply Forall_trace_bind; [staged_in | intros; constructor].
  - repeat (apply Forall_trace_bind; [try staged_in | intros _]).
    + destruct (truthy_hex (votePublicKey params)
                || truthy_object (votePublicKeyPath params)); [staged_in |].
      destruct (delegations params); [staged_in | constructor].
    + cbn. repeat constructor.
Qed.

Lemma trace_setAuxiliaryData_first a version :
  exists rest,
    trace (signTx_setAuxiliaryData a version)
    = send P1.STAGE_AUX_DATA P2.UNUSED (serializeTxAuxiliaryData a) (Some 0) :: rest.
Proof.
  unfold signTx_setAuxiliaryData. destruct a; cbn [assert bind yield_ trace]; eauto.
Qed.

Lemma completes_confirm_and_witnesses request s :
  thrown (ending (txHashHex <- signTx_awaitConfirm;;
                  witnesses <- getWitnesses (gatherWitnessPaths request);;
                  Return {| txHashHex := txHashHex; witnesses := witnesses;
                            auxiliaryDataSupplement := s |})) = None.
Proof.
  unfold signTx_awaitConfirm, yield. cbn [bind ending].
  rewrite ending_bind.
  now destruct (trace_getWitnesses (gatherWitnessPaths request)) as [_ [ws ->]].
Qed.

Lemma thrown_signTransaction_ending version request :
  thrown (ending (signTransaction version request)) =
  match preflight version request with
  | Some e => Some e
  | None =>
      match thrown (ending (auxDataStageEarly version (tx request))) with
      | Some e => Some e
      | None => thrown (ending (auxDataStageLate version (tx request)))
      end
  end.
Proof.
  destruct (preflight version request) as [e |] eqn:Hp.
  - now destruct (signTransaction_rejected version request e Hp) as [_ ->].
  - revert Hp. unfold preflight, signTransaction.
    destruct (ensureLedgerAppVersionCompatible version); [discriminate |].
    intros ->. cbn [checked bind]. cbv zeta.
    rewrite ending_seq_plain by plainly.
    rewrite ending_bind.
    unfold auxDataStageEarly, auxDataStageLate, auxDataBeforeTxBody.
    destruct (auxiliaryData (tx request)) as [a |].
    + destruct (supportsCatalystRegistration (getCompatibility version)
                || supportsCIP36 (getCompatibility version)); cbn [negb].
      * destruct (ending (signTx_setAuxiliaryData a version)) as [s |];
          [| reflexivity].
        repeat (rewrite ending_seq_plain by plainly).
        cbn [bind]. repeat (rewrite ending_seq_plain by plainly).
        apply completes_confirm_and_witnesses.
      * cbn [ending thrown].
        repeat (rewrite ending_seq_plain by plainly).
        destruct a; cbn [signTx_setAuxiliaryData_before_v2_3 bind yield_ ending];
          [| reflexivity].
        repeat (rewrite ending_seq_plain by plainly).
        apply completes_confirm_and_witnesses.
    + cbn [ending thrown].
      repeat (rewrite ending_seq_plain by plainly).
      cbn [bind]. repeat (rewrite ending_seq_plain by plainly).
      apply completes_confirm_and_witnesses.
Qed.

End Segments.

Lemma stage_in_other stages z ms :
  ~ In z stages -> Forall (stage_in stages) ms -> Forall (fun m => p1 m <> z) ms.
Proof.
  intros Hz H. eapply Forall_impl; [| exact H].
  intros m Hm E. apply Hz. rewrite <- E. exact Hm.
Qed.

Lemma stage_in_weaken stages stages' ms :
  incl stages stages' -> Forall (stage_in stages) ms -> Forall (stage_in stages') ms.
Proof.
  intros Hi H. eapply Forall_impl; [| exact H]. intros m Hm. now apply Hi.
Qed.

Section Layout.

Context {library : Serialization} {platform : Platform}.

Lemma stages_auxDataStageEarly version tx :
  Forall (stage_in [P1.STAGE_AUX_DATA]) (trace (auxDataStageEarly version tx)).
Proof.
  unfold auxDataStageEarly. destruct (auxiliaryData tx); [| constructor].
  destruct (auxDataBeforeTxBody version); [| constructor].
  apply stages_setAuxiliaryData.
Qed.

Lemma stages_auxDataStageLate version tx :
  Forall (stage_in [P1.STAGE_AUX_DATA]) (trace (auxDataStageLate version tx)).
Proof.
  unfold auxDataStageLate. destruct (auxiliaryData tx) as [a |]; [| constructor].
  destruct (negb (auxDataBeforeTxBody version)); [| constructor].
  destruct a; cbn; repeat constructor.
Qed.

Lemma trace_init tx mode paths version :
  trace (signTx_init tx mode paths version)
  = [send P1.STAGE_INIT P2.UNUSED
       (serializeTxInit tx mode (List.length paths) version) (Some 0)].
Proof. reflexivity. Qed.

(** The requests of a ceremony that runs to its end. *)
Lemma completed_layout version request :
  thrown (ending (signTransaction version request)) = None ->
  trace (signTransaction version request) =
  trace (signTx_init (tx request) (signingMode request)
           (gatherWitnessPaths request) version)
  ++ trace (auxDataStageEarly version (tx request))
  ++ requestsInputsToWithdrawals version (tx request)
  ++ trace (auxDataStageLate version (tx request))
  ++ requestsValidityToReferenceInputs version (tx request)
  ++ requestsConfirmAndWitnesses request.
Proof.
  rewrite thrown_signTransaction_ending.
  destruct (preflight version request) eqn:Hp; [discriminate |].
  rewrite (trace_signTransaction version request Hp).
  destruct (ending (auxDataStageEarly version (tx request))); [| discriminate].
  destruct (ending (auxDataStageLate version (tx request))); [| discriminate].
  reflexivity.
Qed.

End Layout.

(** ** A sample environment *)

Definition sampleLibrary : Serialization :=
  {| serializeTxInit := fun _ _ n _ => [byte_of_N (N.of_nat n)];
     serializeTxInput := fun i => hex_to_buf (input_txHashHex i);
     serializeTxOutputBasicParams := fun _ _ => [];
     serializeTxOutputDatum := fun _ _ => [];
     serializeTxOutputRefScript := fun _ => [];
     serializeAssetGroup := fun _ _ => [];
     serializeToken := fun _ _ _ => [];
     uint64_to_buf := fun _ => [];
     int64_to_buf := fun _ => [];
     serializeTxFee := fun _ => [];
     serializeTxTtl := fun _ => [];
     serializeTxCertificate := fun _ _ => [];
     serializePoolInitialParams := fun _ => [];
     serializePoolInitialParamsLegacy := fun _ => [];
     serializePoolKey := fun _ => [];
     serializeFinancials := fun _ => [];
     serializePoolRewardAccount := fun _ => [];
     serializePoolOwner := fun _ => [];
     serializePoolRelay := fun _ => [];
     serializePoolMetadata := fun _ => [];
     serializeTxWithdrawal := fun _ _ => [];
     serializeTxAuxiliaryData := fun _ => [];
     serializeCVoteRegistrationInit := fun _ => [];
     serializeCVoteRegistrationVoteKey := fun _ _ _ => [];
     serializeCVoteRegistrationDelegation := fun _ => [];
     serializeCVoteRegistrationStakingPath := fun _ => [];
     serializeCVoteRegistrationPaymentDestination := fun _ _ => [];
     serializeCVoteRegistrationNonce := fun _ => [];
     serializeCVoteRegistrationVotingPurpose := fun _ => [];
     serializeTxValidityStart := fun _ => [];
     serializeMintBasicParams := fun _ => [];
     serializeRequiredSigner := fun _ => [];
     serializeTotalCollateral := fun _ => [];
     serializeTxWitnessRequest := fun path => map byte_of_N path |}.

(** A capability matrix with one threshold per flag. *)
Definition sampleCompatibility (v : Version) : DeviceCompatibility :=
  let atLeast (a b : N) := negb (Version_ltb v (mkVersion a b 0)) in
  {| supportsMary := atLeast 2 2;
     supportsCatalystRegistration := atLeast 2 3;
     supportsCIP36 := atLeast 6 0;
     supportsZeroTtl := atLeast 2 3;
     supportsPoolRegistrationAsOperator := atLeast 2 4;
     supportsPoolRetirement := atLeast 2 4;
     supportsMultisigTransaction := atLeast 3 0;
     supportsMint := atLeast 3 0;
     supportsAlonzo := atLeast 4 0;
     supportsReqSignersInOrdinaryTx := atLeast 4 1;
     supportsBabbage := atLeast 5 0;
     supportsCIP36Vote := atLeast 6 0 |}%N.

Definition samplePlatform : Platform :=
  {| chunkLimit := 2;
     AUXILIARY_DATA_HASH_LENGTH := 32;
     TX_HASH_LENGTH := 32;
     getCompatibility := sampleCompatibility;
     getVersionString := fun v =>
       (decimal (major v) ++ "." ++ decimal (minor v) ++ "." ++ decimal (patch v))%string;
     minimumSupportedVersion := mkVersion 2 2 0 |}.

Definition emptyTransaction : ParsedTransaction :=
  {| inputs := []; outputs := []; fee := "42"%string; ttl := None;
     certificates := []; withdrawals := []; auxiliaryData := None;
     validityIntervalStart := None; mint := None; scriptDataHashHex := None;
     collateralInputs := []; requiredSigners := []; includeNetworkId := false;
     collateralOutput := None; totalCollateral := None; referenceInputs := [] |}.

Definition sampleInput (path : option ValidBIP32Path) : ParsedInput :=
  {| input_txHashHex := hex "ab"; input_outputIndex := 0; input_path := path |}.

Definition sampleOutput : ParsedOutput :=
  {| output_format := ARRAY_LEGACY; output_amount := "7"%string; tokenBundle := [];
     destination := Destination_THIRD_PARTY (hex "00");
     datum := None; referenceScriptHex := None |}.

(** * The claims *)

(** C10: the requests that [signTransaction] yields, and whether and
    with which error it stops, are determined by the version and the
    request alone; two runs against devices that answer differently send
    the same requests in the same order. *)
Theorem C10_requests_independent_of_responses
    {library : Serialization} {platform : Platform}
    (version : Version) (request : ParsedSigningRequest) (d1 d2 : Device) :
  messages d1 (signTransaction version request)
  = messages d2 (signTransaction version request)
  /\ thrown (outcome d1 (signTransaction version request))
     = thrown (outcome d2 (signTransaction version request)).
Proof.
  rewrite !messages_signTransaction, !thrown_signTransaction. split; reflexivity.
Qed.

(** C3: in multisig mode the witness paths are the deduplicated
    [additionalWitnessPaths], whatever the transaction holds. *)
Theorem C3_multisig_only_additional_paths (request : ParsedSigningRequest) :
  signingMode request = MULTISIG_TRANSACTION ->
  gatherWitnessPaths request = dedupe (additionalWitnessPaths request)
  /\ forall tx',
       gatherWitnessPaths
         {| tx := tx'; signingMode := MULTISIG_TRANSACTION;
            additionalWitnessPaths := additionalWitnessPaths request |}
       = gatherWitnessPaths request.
Proof.
  intros Hm. unfold gatherWitnessPaths, structuralWitnessPaths.
  rewrite Hm. cbn. split; [apply uniquify_dedupe | reflexivity].
Qed.

Definition multisigSample : ParsedSigningRequest :=
  {| tx := {| inputs := [sampleInput (Some [44; 1815]%N)];
              outputs := [sampleOutput]; fee := "42"%string; ttl := None;
              certificates := [STAKE_POOL_RETIREMENT [1852; 7]%N "9"%string];
              withdrawals :=
                [{| withdrawal_amount := "1"%string;
                    withdrawal_stakeCredential :=
                      StakeCredential_KEY_PATH [1852; 2]%N |}];
              auxiliaryData := None; validityIntervalStart := None;
              mint := None; scriptDataHashHex := None;
              collateralInputs := [sampleInput (Some [5]%N)];
              requiredSigners := [RequiredSigner_PATH [6]%N];
              includeNetworkId := false; collateralOutput := None;
              totalCollateral := None; referenceInputs := [] |};
     signingMode := MULTISIG_TRANSACTION;
     additionalWitnessPaths := [[1854; 0]; [3]; [1854; 0]]%N |}.

Lemma C3_witness :
  gatherWitnessPaths multisigSample = [[1854; 0]; [3]]%N.
Proof.
  destruct (C3_multisig_only_additional_paths multisigSample) as [H _].
  - reflexivity.
  - rewrite H. reflexivity.
Defined.

(** C4: [gatherWitnessPaths] lists every path of the walk and of
    [additionalWitnessPaths] once, each right behind the distinct paths
    that precede its first occurrence; collecting again changes nothing;
    and a ceremony that runs to its end asks for one witness per entry,
    in this order, after all other requests. *)
Theorem C4_witness_paths_deduplicated_in_order
    {library : Serialization} {platform : Platform}
    (version : Version) (request : ParsedSigningRequest) :
  let collected := structuralWitnessPaths request ++ additionalWitnessPaths request in
  NoDup (gatherWitnessPaths request)
  /\ (forall p, In p (gatherWitnessPaths request) <-> In p collected)
  /\ (forall before p after,
        collected = before ++ p :: after -> ~ In p before ->
        exists rest,
          gatherWitnessPaths request = dedupe before ++ p :: rest
          /\ ~ In p (dedupe before) /\ ~ In p rest)
  /\ uniquify (gatherWitnessPaths request) = gatherWitnessPaths request
  /\ (forall d : Device,
        thrown (outcome d (signTransaction version request)) = None ->
        exists others,
          messages d (signTransaction version request)
          = others ++ map witnessRequest (gatherWitnessPaths request)
          /\ Forall (fun m => p1 m <> P1.STAGE_WITNESSES) others).
Proof.
  intros collected.
  assert (Hg : gatherWitnessPaths request = dedupe collected)
    by apply uniquify_dedupe.
  rewrite Hg. repeat split.
  - apply dedupe_NoDup.
  - apply dedupe_In.
  - apply dedupe_In.
  - intros before p after Hc Hnin. rewrite Hc.
    rewrite (dedupe_first_occurrence before p after Hnin).
    eexists. split; [reflexivity |]. split.
    + now rewrite dedupe_In.
    + rewrite filter_In. intros [_ H].
      rewrite path_eqb_refl, andb_false_r in H. discriminate.
  - rewrite uniquify_dedupe. apply dedupe_idempotent.
  - intros d Hd. rewrite thrown_signTransaction in Hd.
    rewrite messages_signTransaction, (completed_layout version request Hd).
    unfold requestsConfirmAndWitnesses. rewrite Hg.
    exists (trace (signTx_init (tx request) (signingMode request)
                     (dedupe collected) version)
            ++ trace (auxDataStageEarly version (tx request))
            ++ requestsInputsToWithdrawals version (tx request)
            ++ trace (auxDataStageLate version (tx request))
            ++ requestsValidityToReferenceInputs version (tx request)
            ++ [confirmRequest]).
    split.
    + rewrite <- !app_assoc. reflexivity.
    + apply Forall_app; split; [repeat constructor; cbn; discriminate |].
      apply Forall_app; split.
      { eapply stage_in_other; [| apply stages_auxDataStageEarly].
        cbv. intuition discriminate. }
      apply Forall_app; split.
      { eapply stage_in_other; [| apply stages_requestsInputsToWithdrawals].
        cbv. intuition discriminate. }
      apply Forall_app; split.
      { eapply stage_in_other; [| apply stages_auxDataStageLate].
        cbv. intuition discriminate. }
      apply Forall_app; split.
      { eapply stage_in_other; [| apply stages_requestsValidityToReferenceInputs].
        cbv. intuition discriminate. }
      repeat constructor. cbn. discriminate.
Qed.

Definition ordinarySample : ParsedSigningRequest :=
  {| tx := {| inputs := [sampleInput (Some [44; 1815]%N);
                         sampleInput (Some [44; 1815]%N)];
              outputs := [sampleOutput]; fee := "42"%string; ttl := None;
              certificates :=
                [STAKE_DELEGATION (StakeCredential_KEY_PATH [1852; 2]%N) (hex "aa")];
              withdrawals :=
                [{| withdrawal_amount := "1"%string;
                    withdrawal_stakeCredential :=
                      StakeCredential_KEY_PATH [1852; 2]%N |}];
              auxiliaryData := None; validityIntervalStart := None;
              mint := None; scriptDataHashHex := None;
              collateralInputs := []; requiredSigners := [];
              includeNetworkId := false; collateralOutput := None;
              totalCollateral := None; referenceInputs := [] |};
     signingMode := ORDINARY_TRANSACTION;
     additionalWitnessPaths := [[9]; [44; 1815]]%N |}.

Lemma C4_witness :
  gatherWitnessPaths ordinarySample = [[44; 1815]; [1852; 2]; [9]]%N
  /\ exists others,
       messages silent
         (@signTransaction sampleLibrary samplePlatform (mkVersion 6 0 0)
            ordinarySample)
       = others
         ++ map (@witnessRequest sampleLibrary)
              (gatherWitnessPaths ordinarySample)
       /\ Forall (fun m => p1 m <> P1.STAGE_WITNESSES) others.
Proof.
  split; [reflexivity |].
  destruct (@C4_witness_paths_deduplicated_in_order sampleLibrary samplePlatform
              (mkVersion 6 0 0) ordinarySample) as (_ & _ & _ & _ & H).
  apply (H silent). reflexivity.
Defined.

(** The paths of the two inputs, the certificate and the withdrawal of
    a transaction of the shape of claim C1. *)
Definition pathsOfTwoInputsCertificateWithdrawal
    (i1 i2 : ParsedInput) (c : ParsedCertificate) (w : ParsedWithdrawal)
  : list ValidBIP32Path :=
  input_witnessPaths [i1; i2] ++ certificate_witnessPaths c ++ withdrawal_witnessPaths w.

(** C1, amended: when the pre-flight checks pass, a transaction with two
    inputs, one plain output, one stake delegation, one withdrawal and
    nothing else is signed with INIT, two INPUTS, the output's basic data
    and confirmation, FEE, one CERTIFICATES, one WITHDRAWALS, CONFIRM,
    and one WITNESSES request per entry of [gatherWitnessPaths]: the
    distinct paths of the inputs, the certificate and the withdrawal
    (none of them in multisig mode) and of [additionalWitnessPaths]. *)
Theorem C1_stage_ordering
    {library : Serialization} {platform : Platform}
    (version : Version) (request : ParsedSigningRequest)
    (i1 i2 : ParsedInput) (o : ParsedOutput)
    (stakeCredential : ParsedStakeCredential) (poolKeyHashHex : HexString)
    (w : ParsedWithdrawal) :
  preflight version request = None ->
  inputs (tx request) = [i1; i2] ->
  outputs (tx request) = [o] ->
  tokenBundle o = [] -> datum o = None -> referenceScriptHex o = None ->
  certificates (tx request) = [STAKE_DELEGATION stakeCredential poolKeyHashHex] ->
  withdrawals (tx request) = [w] ->
  ttl (tx request) = None ->
  auxiliaryData (tx request) = None ->
  validityIntervalStart (tx request) = None ->
  mint (tx request) = None ->
  scriptDataHashHex (tx request) = None ->
  collateralInputs (tx request) = [] ->
  requiredSigners (tx request) = [] ->
  collateralOutput (tx request) = None ->
  totalCollateral (tx request) = None ->
  referenceInputs (tx request) = [] ->
  (forall d : Device,
     messages d (signTransaction version request) =
     [ send P1.STAGE_INIT P2.UNUSED
         (serializeTxInit (tx request) (signingMode request)
            (List.length (gatherWitnessPaths request)) version) (Some 0);
       send P1.STAGE_INPUTS P2.UNUSED (serializeTxInput i1) (Some 0);
       send P1.STAGE_INPUTS P2.UNUSED (serializeTxInput i2) (Some 0);
       send P1.STAGE_OUTPUTS OutputP2.BASIC_DATA
         (serializeTxOutputBasicParams o version) (Some 0);
       send P1.STAGE_OUTPUTS OutputP2.CONFIRM [] (Some 0);
       send P1.STAGE_FEE P2.UNUSED (serializeTxFee (fee (tx request))) (Some 0);
       send P1.STAGE_CERTIFICATES P2.UNUSED
         (serializeTxCertificate (STAKE_DELEGATION stakeCredential poolKeyHashHex)
            version) (Some 0);
       send P1.STAGE_WITHDRAWALS P2.UNUSED (serializeTxWithdrawal w version) (Some 0);
       send P1.STAGE_CONFIRM P2.UNUSED [] (Some TX_HASH_LENGTH) ]
     ++ map witnessRequest (gatherWitnessPaths request))
  /\ gatherWitnessPaths request =
     dedupe
       ((match signingMode request with
         | MULTISIG_TRANSACTION => []
         | _ =>
             pathsOfTwoInputsCertificateWithdrawal i1 i2
               (STAKE_DELEGATION stakeCredential poolKeyHashHex) w
         end)
        ++ additionalWitnessPaths request).
Proof.
  intros Hp Hin Hout Hb Hd Hr Hc Hw Httl Haux Hv Hm Hs Hci Hrs Hco Htc Hri.
  split.
  - intros d. rewrite messages_signTransaction.
    rewrite (trace_signTransaction version request Hp).
    unfold auxDataStageEarly, auxDataStageLate, requestsInputsToWithdrawals,
      requestsValidityToReferenceInputs, requestsConfirmAndWitnesses.
    rewrite Haux, Hin, Hout, Hc, Hw, Httl, Hv, Hm, Hs, Hci, Hrs, Hco, Htc, Hri.
    cbn [trace ending forEach whenSome app bind signTx_init yield_ signTx_addInput
         signTx_setFee signTx_addCertificate signTx_addWithdrawal certificate_type].
    unfold signTx_addOutput, signTx_addTokenBundle. rewrite Hb, Hd, Hr.
    reflexivity.
  - unfold gatherWitnessPaths. rewrite uniquify_dedupe. f_equal. f_equal.
    unfold structuralWitnessPaths, pathsOfTwoInputsCertificateWithdrawal.
    rewrite Hin, Hc, Hw, Hrs, Hci.
    destruct (signingMode request); cbn; rewrite ?app_nil_r; reflexivity.
Qed.

Lemma C1_witness :
  messages silent
    (@signTransaction sampleLibrary samplePlatform (mkVersion 6 0 0) ordinarySample)
  = [ send P1.STAGE_INIT P2.UNUSED [x03] (Some 0);
      send P1.STAGE_INPUTS P2.UNUSED [xab] (Some 0);
      send P1.STAGE_INPUTS P2.UNUSED [xab] (Some 0);
      send P1.STAGE_OUTPUTS OutputP2.BASIC_DATA [] (Some 0);
      send P1.STAGE_OUTPUTS OutputP2.CONFIRM [] (Some 0);
      send P1.STAGE_FEE P2.UNUSED [] (Some 0);
      send P1.STAGE_CERTIFICATES P2.UNUSED [] (Some 0);
      send P1.STAGE_WITHDRAWALS P2.UNUSED [] (Some 0);
      send P1.STAGE_CONFIRM P2.UNUSED [] (Some 32);
      send P1.STAGE_WITNESSES P2.UNUSED [x2c; x00] (Some 64);
      send P1.STAGE_WITNESSES P2.UNUSED [x00; x02] (Some 64);
      send P1.STAGE_WITNESSES P2.UNUSED [x09] (Some 64) ].
Proof.
  destruct (@C1_stage_ordering sampleLibrary samplePlatform (mkVersion 6 0 0)
              ordinarySample
              (sampleInput (Some [44; 1815]%N)) (sampleInput (Some [44; 1815]%N))
              sampleOutput (StakeCredential_KEY_PATH [1852; 2]%N) (hex "aa")
              {| withdrawal_amount := "1"%string;
                 withdrawal_stakeCredential := StakeCredential_KEY_PATH [1852; 2]%N |}
              eq_refl eq_refl eq_refl eq_refl eq_refl eq_refl eq_refl eq_refl
              eq_refl eq_refl eq_refl eq_refl eq_refl eq_refl eq_refl eq_refl
              eq_refl eq_refl) as [H _].
  rewrite H. reflexivity.
Defined.

(** The requests that claim C1 names, with one WITNESSES request per
    distinct path of the two inputs, the certificate and the withdrawal. *)
Definition requestsClaimedByC1
    {library : Serialization} {platform : Platform}
    (version : Version) (request : ParsedSigningRequest)
    (i1 i2 : ParsedInput) (o : ParsedOutput) (c : ParsedCertificate)
    (w : ParsedWithdrawal) : list SendParams :=
  [ send P1.STAGE_INIT P2.UNUSED
      (serializeTxInit (tx request) (signingMode request)
         (List.length (gatherWitnessPaths request)) version) (Some 0);
    send P1.STAGE_INPUTS P2.UNUSED (serializeTxInput i1) (Some 0);
    send P1.STAGE_INPUTS P2.UNUSED (serializeTxInput i2) (Some 0);
    send P1.STAGE_OUTPUTS OutputP2.BASIC_DATA
      (serializeTxOutputBasicParams o version) (Some 0);
    send P1.STAGE_OUTPUTS OutputP2.CONFIRM [] (Some 0);
    send P1.STAGE_FEE P2.UNUSED (serializeTxFee (fee (tx request))) (Some 0);
    send P1.STAGE_CERTIFICATES P2.UNUSED (serializeTxCertificate c version) (Some 0);
    send P1.STAGE_WITHDRAWALS P2.UNUSED (serializeTxWithdrawal w version) (Some 0);
    send P1.STAGE_CONFIRM P2.UNUSED [] (Some TX_HASH_LENGTH) ]
  ++ map witnessRequest (dedupe (pathsOfTwoInputsCertificateWithdrawal i1 i2 c w)).

(** The request [ordinarySample] has the shape of claim C1 and passes
    the pre-flight checks of version 6.0.0, and its two inputs, its
    certificate and its withdrawal have two distinct paths between them;
    it is signed with three WITNESSES requests, the third for the path
    given in [additionalWitnessPaths]. *)
Lemma C1_counterexample :
  let i := sampleInput (Some [44; 1815]%N) in
  let c := STAKE_DELEGATION (StakeCredential_KEY_PATH [1852; 2]%N) (hex "aa") in
  let w := {| withdrawal_amount := "1"%string;
              withdrawal_stakeCredential := StakeCredential_KEY_PATH [1852; 2]%N |} in
  tx ordinarySample
  = {| inputs := [i; i]; outputs := [sampleOutput]; fee := "42"%string; ttl := None;
       certificates := [c]; withdrawals := [w]; auxiliaryData := None;
       validityIntervalStart := None; mint := None; scriptDataHashHex := None;
       collateralInputs := []; requiredSigners := []; includeNetworkId := false;
       collateralOutput := None; totalCollateral := None; referenceInputs := [] |}
  /\ @preflight samplePlatform (mkVersion 6 0 0) ordinarySample = None
  /\ dedupe (pathsOfTwoInputsCertificateWithdrawal i i c w)
     = [[44; 1815]; [1852; 2]]%N
  /\ filter (fun m => (p1 m =? P1.STAGE_WITNESSES)%Z)
       (messages silent
          (@signTransaction sampleLibrary samplePlatform (mkVersion 6 0 0)
             ordinarySample))
     = map (@witnessRequest sampleLibrary) [[44; 1815]; [1852; 2]; [9]]%N
  /\ messages silent
       (@signTransaction sampleLibrary samplePlatform (mkVersion 6 0 0) ordinarySample)
     <> @requestsClaimedByC1 sampleLibrary samplePlatform (mkVersion 6 0 0)
          ordinarySample i i sampleOutput c w.
Proof.
  cbv zeta. repeat split; try reflexivity.
  intros H. apply (f_equal (@List.length SendParams)) in H.
  vm_compute in H. discriminate.
Qed.

(** ** Chunked transfer *)

(** The number of chunks of [b] bytes that [a] bytes need. *)
Definition ceil_div (a b : nat) : nat := (a + (b - 1)) / b.

Lemma ceil_div_zero b : 0 < b -> ceil_div 0 b = 0.
Proof. intros Hb. unfold ceil_div. apply Nat.div_small. lia. Qed.

Lemma ceil_div_small a b : 0 < a -> a <= b -> ceil_div a b = 1.
Proof.
  intros Ha Hab. unfold ceil_div. symmetry.
  apply (Nat.div_unique _ _ 1 (a - 1)); lia.
Qed.

Lemma ceil_div_step a b : 0 < b -> b < a -> ceil_div a b = S (ceil_div (a - b) b).
Proof.
  intros Hb Hab. unfold ceil_div.
  replace (a + (b - 1)) with ((a - b + (b - 1)) + 1 * b) by lia.
  rewrite Nat.div_add by lia. lia.
Qed.

Lemma ceil_div_double a b : 0 < b -> ceil_div (2 * a) (2 * b) = ceil_div a b.
Proof.
  intros Hb. unfold ceil_div. symmetry.
  pose proof (Nat.div_mod_eq (a + (b - 1)) b) as E.
  pose proof (Nat.mod_upper_bound (a + (b - 1)) b ltac:(lia)) as Hr.
  apply (Nat.div_unique _ _ _ (2 * ((a + (b - 1)) mod b) + 1)); nia.
Qed.

Lemma list_pair_ind {A} (P : list A -> Prop) :
  P [] -> (forall a, P [a]) -> (forall a b l, P l -> P (a :: b :: l)) ->
  forall l, P l.
Proof.
  intros H0 H1 H2.
  assert (H : forall l, P l /\ forall a, P (a :: l)).
  { induction l as [| x l [IH1 IH2]]; split; auto. }
  intros l. apply H.
Qed.

Lemma hex_to_buf_length h :
  isHexString h = true -> List.length h = 2 * List.length (hex_to_buf h).
Proof.
  induction h as [| a | a b l IH] using list_pair_ind; cbn [isHexString hex_to_buf];
    intros H; [reflexivity | discriminate |].
  apply andb_prop in H as [H Hl]. apply andb_prop in H as [Ha Hb].
  destruct (hex_digit a), (hex_digit b); try discriminate.
  cbn [List.length]. rewrite (IH Hl). lia.
Qed.

Lemma hex_to_buf_app h1 h2 :
  isHexString h1 = true -> hex_to_buf (h1 ++ h2) = hex_to_buf h1 ++ hex_to_buf h2.
Proof.
  induction h1 as [| a | a b l IH] using list_pair_ind;
    cbn [isHexString hex_to_buf app]; intros H; [reflexivity | discriminate |].
  apply andb_prop in H as [H Hl]. apply andb_prop in H as [Ha Hb].
  destruct (hex_digit a), (hex_digit b); try discriminate.
  cbn [app]. now rewrite (IH Hl).
Qed.

Lemma isHexString_firstn_skipn k : forall h,
  isHexString h = true ->
  isHexString (firstn (2 * k) h) = true /\ isHexString (skipn (2 * k) h) = true.
Proof.
  induction k as [| k IH]; intros h H.
  - split; [reflexivity | exact H].
  - replace (2 * S k) with (S (S (2 * k))) by lia.
    destruct h as [| a [| b l]]; cbn [firstn skipn isHexString] in *;
      [split; reflexivity | discriminate |].
    apply andb_prop in H as [H Hl]. rewrite H. cbn [andb].
    apply IH. exact Hl.
Qed.

Lemma hex_to_buf_concat pieces :
  Forall (fun c => isHexString c = true) pieces ->
  hex_to_buf (List.concat pieces) = List.concat (map hex_to_buf pieces).
Proof.
  induction 1 as [| c pieces Hc Hp IH]; cbn [List.concat map]; [reflexivity |].
  now rewrite hex_to_buf_app, IH.
Qed.

(** The four-byte prefix says the number it was made from. *)
Lemma uint32_roundtrip n :
  (n < 4294967296)%N ->
  List.length (uint32_to_buf n) = 4 /\ buf_to_uint32 (uint32_to_buf n) = n.
Proof.
  intros Hn. split; [reflexivity |].
  unfold uint32_to_buf, buf_to_uint32.
  assert (Hb : forall x, (x < 256)%N -> Byte.to_N (byte_of_N x) = x).
  { intros x Hx. unfold byte_of_N.
    destruct (Byte.of_N x) as [b |] eqn:E.
    - now apply Byte.to_of_N.
    - apply Byte.of_N_None_iff in E. lia. }
  rewrite !Hb by (apply N.mod_upper_bound; discriminate).
  pose proof (N.div_mod' n 256) as E0.
  pose proof (N.div_mod' (n / 256) 256) as E1.
  pose proof (N.div_mod' (n / 65536) 256) as E2.
  replace (n / 256 / 256)%N with (n / 65536)%N in E1
    by (now rewrite N.Div0.div_div).
  replace (n / 65536 / 256)%N with (n / 16777216)%N in E2
    by (now rewrite N.Div0.div_div).
  assert (H3 : (n / 16777216 < 256)%N)
    by (apply N.Div0.div_lt_upper_bound; exact Hn).
  rewrite (N.mod_small _ _ H3).
  lia.
Qed.

(** A continuation chunk: the length of the chunk in four bytes, then
    the chunk. *)
Definition chunkRequest (p2 : Z) (chunk : Buffer) : SendParams :=
  send P1.STAGE_OUTPUTS p2
    (uint32_to_buf (N.of_nat (List.length chunk)) ++ chunk) (Some 0).

Section Chunks.

Context {platform : Platform}.

Lemma MAX_CHUNK_SIZE_pos : 0 < MAX_CHUNK_SIZE.
Proof. unfold MAX_CHUNK_SIZE. apply Pos2Nat.is_pos. Qed.

Lemma sendChunks_loop_chunks hex p2 turns : forall start,
  isHexString (skipn start hex) = true ->
  List.length hex - start <= turns ->
  exists chunks : list Buffer,
    trace (sendChunks_loop turns hex p2 start) = map (chunkRequest p2) chunks
    /\ List.concat chunks = hex_to_buf (skipn start hex)
    /\ Forall (fun c => 0 < List.length c <= MAX_CHUNK_SIZE) chunks
    /\ List.length chunks
       = ceil_div (List.length (hex_to_buf (skipn start hex))) MAX_CHUNK_SIZE.
Proof.
  pose proof MAX_CHUNK_SIZE_pos as HC.
  assert (Hdone : forall start, List.length hex <= start ->
    exists chunks : list Buffer,
      @trace unit (Return tt) = map (chunkRequest p2) chunks
      /\ List.concat chunks = hex_to_buf (skipn start hex)
      /\ Forall (fun c => 0 < List.length c <= MAX_CHUNK_SIZE) chunks
      /\ List.length chunks
         = ceil_div (List.length (hex_to_buf (skipn start hex))) MAX_CHUNK_SIZE).
  { intros start Hs. exists []. rewrite (skipn_all2 hex Hs). cbn.
    rewrite ceil_div_zero by exact HC. repeat split. constructor. }
  induction turns as [| turns IH]; intros start Hhex Hturns;
    cbn [sendChunks_loop].
  - apply Hdone. lia.
  - destruct (start <? List.length hex) eqn:Hlt; [| apply Hdone; apply Nat.ltb_ge; exact Hlt].
    apply Nat.ltb_lt in Hlt.
    remember (skipn start hex) as R eqn:ER.
    assert (HlenR : List.length R = List.length hex - start)
      by (subst R; apply length_skipn).
    pose proof (hex_to_buf_length R Hhex) as HLR.
    remember (List.length (hex_to_buf R)) as LR eqn:ELR.
    remember (Nat.min LR MAX_CHUNK_SIZE) as j eqn:Ej.
    assert (Hend : Nat.min (List.length hex) (start + MAX_CHUNK_SIZE * 2) - start
                   = 2 * j) by lia.
    assert (Hend' : Nat.min (List.length hex) (start + MAX_CHUNK_SIZE * 2)
                    = start + 2 * j) by lia.
    destruct (isHexString_firstn_skipn j R Hhex) as [Hfirst Hrest].
    unfold substring. rewrite <- ER, Hend, Hend'.
    assert (Hskip : skipn (start + 2 * j) hex = skipn (2 * j) R).
    { subst R. rewrite skipn_skipn. f_equal. lia. }
    destruct (IH (start + 2 * j)) as (chunks & Ht & Hc & Hb & Hn).
    { rewrite Hskip. exact Hrest. }
    { lia. }
    pose proof (hex_to_buf_length _ Hfirst) as Hlf.
    rewrite length_firstn in Hlf.
    assert (Hj : List.length (hex_to_buf (firstn (2 * j) R)) = j) by lia.
    exists (hex_to_buf (firstn (2 * j) R) :: chunks).
    cbn [bind yield_ trace map]. rewrite Ht. repeat split.
    + f_equal. unfold chunkRequest. do 3 f_equal.
      rewrite length_firstn, Hj.
      replace (Nat.min (2 * j) (List.length R)) with (j * 2) by lia.
      now rewrite Nat.div_mul by discriminate.
    + cbn [List.concat]. rewrite Hc, Hskip, <- hex_to_buf_app by exact Hfirst.
      now rewrite firstn_skipn.
    + constructor; [| exact Hb]. rewrite Hj. lia.
    + cbn [List.length]. rewrite Hn, Hskip.
      pose proof (hex_to_buf_length _ Hrest) as Hlr.
      rewrite length_skipn in Hlr.
      replace (List.length (hex_to_buf (skipn (2 * j) R))) with (LR - j) by lia.
      destruct (Nat.le_gt_cases LR MAX_CHUNK_SIZE) as [Hle | Hgt].
      * replace (LR - j) with 0 by lia.
        rewrite ceil_div_zero by exact HC.
        symmetry. apply ceil_div_small; lia.
      * replace j with MAX_CHUNK_SIZE by lia.
        symmetry. apply ceil_div_step; lia.
Qed.

(** What [signTx_addOutput_sendChunks] sends for a payload that is
    longer than one chunk. *)
Lemma sendChunks_chunks hex p2 :
  isHexString hex = true ->
  exists chunks : list Buffer,
    trace (signTx_addOutput_sendChunks hex p2) = map (chunkRequest p2) chunks
    /\ hex_to_buf (substring hex 0 (MAX_CHUNK_SIZE * 2)) ++ List.concat chunks
       = hex_to_buf hex
    /\ Forall (fun c => 0 < List.length c <= MAX_CHUNK_SIZE) chunks
    /\ List.length chunks
       = ceil_div (List.length (hex_to_buf hex) - MAX_CHUNK_SIZE) MAX_CHUNK_SIZE.
Proof.
  intros Hhex. unfold signTx_addOutput_sendChunks.
  replace (MAX_CHUNK_SIZE * 2) with (2 * MAX_CHUNK_SIZE) by lia.
  destruct (isHexString_firstn_skipn MAX_CHUNK_SIZE hex Hhex) as [Hfirst Hrest].
  destruct (sendChunks_loop_chunks hex p2 (List.length hex) (2 * MAX_CHUNK_SIZE)
              Hrest ltac:(lia)) as (chunks & Ht & Hc & Hb & Hn).
  exists chunks. repeat split; try assumption.
  - unfold substring. cbn [skipn]. rewrite Nat.sub_0_r, Hc.
    rewrite <- hex_to_buf_app by exact Hfirst. now rewrite firstn_skipn.
  - rewrite Hn. f_equal.
    pose proof (hex_to_buf_length _ Hrest) as H1.
    pose proof (hex_to_buf_length _ Hhex) as H2.
    rewrite length_skipn in H1. lia.
Qed.

End Chunks.

Definition subtag_in (subtags : list Z) (m : SendParams) : Prop := In (p2 m) subtags.

Lemma subtag_in_other subtags z ms :
  ~ In z subtags -> Forall (subtag_in subtags) ms -> Forall (fun m => p2 m <> z) ms.
Proof.
  intros Hz H. eapply Forall_impl; [| exact H].
  intros m Hm E. apply Hz. rewrite <- E. exact Hm.
Qed.

Ltac sending_by tac :=
  repeat match goal with
    | |- sends_only _ (Return tt) => apply sends_only_Return
    | |- sends_only _ (yield_ _) => apply sends_only_yield_; tac
    | |- sends_only _ (bind _ _) => apply sends_only_seq
    | |- sends_only _ (forEach _ _) => apply sends_only_forEach; intros
    | |- sends_only _ (when _ _) => apply sends_only_when
    | |- sends_only _ (whenSome _ _) => apply sends_only_whenSome; intros
    | |- sends_only _ (match ?x with _ => _ end) => destruct x
    end.

(** How a payload of [hex] is carried: the first [MAX_CHUNK_SIZE] bytes
    inline, the rest in [chunks]. *)
Definition carriedInChunks {platform : Platform}
    (hex : HexString) (chunks : list Buffer) : Prop :=
  let L := List.length (hex_to_buf hex) in
  let inline := hex_to_buf (substring hex 0 (MAX_CHUNK_SIZE * 2)) in
  (MAX_CHUNK_SIZE < L ->
     List.length chunks = ceil_div (L - MAX_CHUNK_SIZE) MAX_CHUNK_SIZE
     /\ inline ++ List.concat chunks = hex_to_buf hex)
  /\ (L <= MAX_CHUNK_SIZE -> chunks = [])
  /\ Forall (fun chunk =>
       0 < List.length chunk <= MAX_CHUNK_SIZE
       /\ List.length (uint32_to_buf (N.of_nat (List.length chunk))) = 4
       /\ buf_to_uint32 (uint32_to_buf (N.of_nat (List.length chunk)))
          = N.of_nat (List.length chunk)) chunks.

Section ChunkedOutputs.

Context {library : Serialization} {platform : Platform}.

#[local] Hint Resolve sends_sendChunks sends_addTokenBundle
  sends_init sends_addInput sends_addOutput sends_addCertificate
  sends_addWithdrawal sends_setFee sends_setTtl sends_setValidityIntervalStart
  sends_setMint sends_setScriptDataHash sends_addCollateralInput
  sends_addRequiredSigner sends_addCollateralOutput sends_addTotalCollateral
  sends_addReferenceInput : plain.

Lemma subtags_sendChunks_loop turns hex p2 start :
  sends_only (subtag_in [p2]) (sendChunks_loop turns hex p2 start).
Proof.
  revert start. induction turns as [| turns IH]; intros start;
    cbn [sendChunks_loop].
  - constructor.
  - destruct (start <? List.length hex); [| constructor].
    apply sends_only_seq; [apply sends_only_yield_; now left | apply IH].
Qed.

Lemma subtags_sendChunks hex p2 :
  sends_only (subtag_in [p2]) (signTx_addOutput_sendChunks hex p2).
Proof. unfold signTx_addOutput_sendChunks. apply subtags_sendChunks_loop. Qed.

Lemma subtags_addTokenBundle {T} (b : list (ParsedAssetGroup T)) p1 f :
  sends_only (subtag_in [TokenBundleP2.ASSET_GROUP; TokenBundleP2.TOKEN])
    (signTx_addTokenBundle b p1 f).
Proof.
  unfold signTx_addTokenBundle.
  sending_by ltac:(unfold subtag_in; cbn; auto).
Qed.

(** The continuation chunks of a payload, as [signTx_addOutput] sends
    them behind the request that starts the payload. *)
Lemma chunks_when_needed hex p2 :
  isHexString hex = true ->
  (N.of_nat MAX_CHUNK_SIZE < 4294967296)%N ->
  exists chunks,
    trace (when (MAX_CHUNK_SIZE * 2 <? List.length hex)
             (signTx_addOutput_sendChunks hex p2))
    = map (chunkRequest p2) chunks
    /\ carriedInChunks hex chunks.
Proof.
  intros Hhex Hlimit.
  pose proof (hex_to_buf_length hex Hhex) as Hlen.
  destruct (MAX_CHUNK_SIZE * 2 <? List.length hex) eqn:E; cbn [when].
  - apply Nat.ltb_lt in E.
    destruct (sendChunks_chunks hex p2 Hhex) as (chunks & Ht & Hc & Hb & Hn).
    exists chunks. split; [exact Ht |]. unfold carriedInChunks. cbv zeta.
    repeat split; try assumption; try lia.
    eapply Forall_impl; [| exact Hb]. cbv beta. intros chunk Hchunk.
    split; [exact Hchunk |]. apply uint32_roundtrip. lia.
  - apply Nat.ltb_ge in E. exists []. split; [reflexivity |].
    unfold carriedInChunks. cbv zeta. repeat split; try lia. constructor.
Qed.

End ChunkedOutputs.

Section ChunkedTransfer.

Context {library : Serialization} {platform : Platform}.

#[local] Hint Resolve sends_sendChunks sends_addTokenBundle
  sends_init sends_addInput sends_addOutput sends_addCertificate
  sends_addWithdrawal sends_setFee sends_setTtl sends_setValidityIntervalStart
  sends_setMint sends_setScriptDataHash sends_addCollateralInput
  sends_addRequiredSigner sends_addCollateralOutput sends_addTotalCollateral
  sends_addReferenceInput : plain.

(** The requests for the datum of an output, and for its reference
    script. *)
Definition datumRequests (output : ParsedOutput) (version : Version) : list SendParams :=
  match datum output with
  | Some datum =>
      send P1.STAGE_OUTPUTS OutputP2.DATUM (serializeTxOutputDatum datum version) (Some 0)
      :: match datum with
         | Datum_INLINE datumHex =>
             trace (when (MAX_CHUNK_SIZE * 2 <? List.length datumHex)
                      (signTx_addOutput_sendChunks datumHex OutputP2.DATUM_CHUNK))
         | Datum_HASH _ => []
         end
  | None => []
  end.

Definition referenceScriptRequests (output : ParsedOutput) : list SendParams :=
  match referenceScriptHex output with
  | Some ((_ :: _) as referenceScriptHex) =>
      send P1.STAGE_OUTPUTS OutputP2.SCRIPT
        (serializeTxOutputRefScript referenceScriptHex) (Some 0)
      :: trace (when (MAX_CHUNK_SIZE * 2 <? List.length referenceScriptHex)
                  (signTx_addOutput_sendChunks referenceScriptHex
                     OutputP2.SCRIPT_CHUNK))
  | _ => []
  end.

Lemma trace_addOutput output version :
  trace (signTx_addOutput output version) =
  send P1.STAGE_OUTPUTS OutputP2.BASIC_DATA
    (serializeTxOutputBasicParams output version) (Some 0)
  :: trace (signTx_addTokenBundle (tokenBundle output) P1.STAGE_OUTPUTS uint64_to_buf)
  ++ datumRequests output version
  ++ referenceScriptRequests output
  ++ [send P1.STAGE_OUTPUTS OutputP2.CONFIRM [] (Some 0)].
Proof.
  unfold signTx_addOutput, datumRequests, referenceScriptRequests.
  rewrite trace_seq_plain by plainly. cbn [yield_ trace app]. f_equal.
  rewrite trace_seq_plain by plainly. f_equal.
  rewrite trace_seq_plain by plainly. f_equal.
  - destruct (datum output) as [[h | h] |]; cbn [whenSome]; [| | reflexivity].
    + reflexivity.
    + rewrite trace_seq_plain by plainly. reflexivity.
  - rewrite trace_seq_plain by plainly. f_equal.
    destruct (referenceScriptHex output) as [[| c h] |]; try reflexivity.
Qed.

Lemma subtags_datumRequests output version :
  Forall (subtag_in [OutputP2.DATUM; OutputP2.DATUM_CHUNK])
    (datumRequests output version).
Proof.
  unfold datumRequests. destruct (datum output) as [[h | h] |].
  - constructor; [left; reflexivity | constructor].
  - constructor; [left; reflexivity |].
    apply sends_only_Forall, sends_only_when.
    apply (sends_only_weaken (subtag_in [OutputP2.DATUM_CHUNK]));
      [| exact (subtags_sendChunks h OutputP2.DATUM_CHUNK)].
    intros m H. destruct H as [H | []]. right. left. exact H.
  - constructor.
Qed.

Lemma subtags_referenceScriptRequests output :
  Forall (subtag_in [OutputP2.SCRIPT; OutputP2.SCRIPT_CHUNK])
    (referenceScriptRequests output).
Proof.
  unfold referenceScriptRequests.
  destruct (referenceScriptHex output) as [[| c h] |]; try constructor.
  - left. reflexivity.
  - apply sends_only_Forall, sends_only_when.
    apply (sends_only_weaken (subtag_in [OutputP2.SCRIPT_CHUNK]));
      [| exact (subtags_sendChunks (c :: h) OutputP2.SCRIPT_CHUNK)].
    intros m H. destruct H as [H | []]. right. left. exact H.
Qed.

(** The requests of one output are sent together, in a ceremony that
    runs to its end. *)
Lemma output_requests_sent version request output (d : Device) :
  thrown (outcome d (signTransaction version request)) = None ->
  In output (outputs (tx request)) ->
  exists before after,
    messages d (signTransaction version request)
    = before ++ trace (signTx_addOutput output version) ++ after.
Proof.
  intros Hd Hin. rewrite thrown_signTransaction in Hd.
  rewrite messages_signTransaction, (completed_layout version request Hd).
  apply in_split in Hin as [l1 [l2 Hsplit]].
  unfold requestsInputsToWithdrawals.
  rewrite (trace_forEach (outputs (tx request))
             (fun o => signTx_addOutput o version))
    by (intros x; apply (sends_only_plain _ _ (sends_addOutput x version))).
  rewrite Hsplit, flat_map_app. cbn [flat_map].
  exists (trace (signTx_init (tx request) (signingMode request)
                   (gatherWitnessPaths request) version)
          ++ trace (auxDataStageEarly version (tx request))
          ++ trace (forEach (inputs (tx request)) signTx_addInput)
          ++ flat_map (fun x => trace (signTx_addOutput x version)) l1).
  exists (flat_map (fun x => trace (signTx_addOutput x version)) l2
          ++ trace (signTx_setFee (fee (tx request)))
          ++ trace (whenSome (ttl (tx request)) signTx_setTtl)
          ++ trace (forEach (certificates (tx request))
                      (fun c => signTx_addCertificate c version))
          ++ trace (forEach (withdrawals (tx request))
                      (fun w => signTx_addWithdrawal w version))
          ++ trace (auxDataStageLate version (tx request))
          ++ requestsValidityToReferenceInputs version (tx request)
          ++ requestsConfirmAndWitnesses request).
  rewrite <- !app_assoc. reflexivity.
Qed.

End ChunkedTransfer.

(** C2: a payload of an output that is subject to chunking, of [L]
    bytes, is carried by the request that starts it, which holds the
    first [MAX_CHUNK_SIZE] bytes, and, if [L] exceeds [MAX_CHUNK_SIZE], by
    [ceil ((L - MAX_CHUNK_SIZE) / MAX_CHUNK_SIZE)] continuation chunks sent
    right behind it: each is a request of the OUTPUTS stage with the
    chunk sub-tag of its kind and a zero response length, whose data is
    the byte count of the chunk in four bytes followed by the chunk; the
    inline slice and the chunks together are the payload.  A payload of
    at most [MAX_CHUNK_SIZE] bytes has no continuation chunk.  In a
    ceremony that runs to its end the requests of every output are
    sent. *)
Theorem C2_chunked_transfer
    {library : Serialization} {platform : Platform}
    (version : Version) (output : ParsedOutput) (payload : HexString) :
  isHexString payload = true ->
  (N.of_nat MAX_CHUNK_SIZE < 4294967296)%N ->
  (referenceScriptHex output = Some payload -> payload <> [] ->
     exists before chunks,
       trace (signTx_addOutput output version)
       = before
         ++ send P1.STAGE_OUTPUTS OutputP2.SCRIPT
              (serializeTxOutputRefScript payload) (Some 0)
            :: map (chunkRequest OutputP2.SCRIPT_CHUNK) chunks
         ++ [send P1.STAGE_OUTPUTS OutputP2.CONFIRM [] (Some 0)]
       /\ Forall (fun m => p2 m <> OutputP2.SCRIPT_CHUNK) before
       /\ carriedInChunks payload chunks)
  /\ (datum output = Some (Datum_INLINE payload) ->
      exists before chunks after,
        trace (signTx_addOutput output version)
        = before
          ++ send P1.STAGE_OUTPUTS OutputP2.DATUM
               (serializeTxOutputDatum (Datum_INLINE payload) version) (Some 0)
             :: map (chunkRequest OutputP2.DATUM_CHUNK) chunks
          ++ after
        /\ Forall (fun m => p2 m <> OutputP2.DATUM_CHUNK) before
        /\ Forall (fun m => p2 m <> OutputP2.DATUM_CHUNK) after
        /\ carriedInChunks payload chunks)
  /\ (forall (request : ParsedSigningRequest) (d : Device),
        thrown (outcome d (signTransaction version request)) = None ->
        In output (outputs (tx request)) ->
        exists before after,
          messages d (signTransaction version request)
          = before ++ trace (signTx_addOutput output version) ++ after).
Proof.
  intros Hhex Hlimit. split; [| split].
  - intros Hscript Hne.
    destruct (chunks_when_needed payload OutputP2.SCRIPT_CHUNK Hhex Hlimit)
      as (chunks & Ht & Hc).
    exists (send P1.STAGE_OUTPUTS OutputP2.BASIC_DATA
              (serializeTxOutputBasicParams output version) (Some 0)
            :: trace (signTx_addTokenBundle (tokenBundle output)
                        P1.STAGE_OUTPUTS uint64_to_buf)
            ++ datumRequests output version), chunks.
    split; [| split; [| exact Hc]].
    + rewrite trace_addOutput. unfold referenceScriptRequests.
      rewrite Hscript. destruct payload as [| c h]; [congruence |].
      rewrite Ht. cbn [app]. f_equal. rewrite <- !app_assoc. reflexivity.
    + constructor; [cbv; discriminate |]. apply Forall_app. split.
      * eapply subtag_in_other;
          [| apply sends_only_Forall, subtags_addTokenBundle].
        cbv. intuition discriminate.
      * eapply subtag_in_other; [| apply subtags_datumRequests].
        cbv. intuition discriminate.
  - intros Hdatum.
    destruct (chunks_when_needed payload OutputP2.DATUM_CHUNK Hhex Hlimit)
      as (chunks & Ht & Hc).
    exists (send P1.STAGE_OUTPUTS OutputP2.BASIC_DATA
              (serializeTxOutputBasicParams output version) (Some 0)
            :: trace (signTx_addTokenBundle (tokenBundle output)
                        P1.STAGE_OUTPUTS uint64_to_buf)), chunks,
           (referenceScriptRequests output
            ++ [send P1.STAGE_OUTPUTS OutputP2.CONFIRM [] (Some 0)]).
    split; [| split; [| split; [| exact Hc]]].
    + rewrite trace_addOutput. unfold datumRequests. rewrite Hdatum, Ht.
      cbn [app]. rewrite <- ?app_assoc. reflexivity.
    + constructor; [cbv; discriminate |].
      eapply subtag_in_other;
        [| apply sends_only_Forall, subtags_addTokenBundle].
      cbv. intuition discriminate.
    + apply Forall_app. split.
      * eapply subtag_in_other; [| apply subtags_referenceScriptRequests].
        cbv. intuition discriminate.
      * repeat constructor. cbv. discriminate.
  - intros request d. apply output_requests_sent.
Qed.

Definition chunkedOutput : ParsedOutput :=
  {| output_format := MAP_BABBAGE; output_amount := "7"%string; tokenBundle := [];
     destination := Destination_THIRD_PARTY (hex "00");
     datum := None; referenceScriptHex := Some (hex "0102030405") |}.

Lemma C2_witness :
  trace (@signTx_addOutput sampleLibrary samplePlatform chunkedOutput (mkVersion 6 0 0))
  = [ send P1.STAGE_OUTPUTS OutputP2.BASIC_DATA [] (Some 0);
      send P1.STAGE_OUTPUTS OutputP2.SCRIPT [] (Some 0);
      send P1.STAGE_OUTPUTS OutputP2.SCRIPT_CHUNK
        [x00; x00; x00; x02; x03; x04] (Some 0);
      send P1.STAGE_OUTPUTS OutputP2.SCRIPT_CHUNK
        [x00; x00; x00; x01; x05] (Some 0);
      send P1.STAGE_OUTPUTS OutputP2.CONFIRM [] (Some 0) ].
Proof.
  destruct (@C2_chunked_transfer sampleLibrary samplePlatform (mkVersion 6 0 0)
              chunkedOutput (hex "0102030405") eq_refl eq_refl)
    as [H _].
  destruct (H eq_refl ltac:(discriminate)) as (before & chunks & Ht & _).
  reflexivity.
Defined.

(** ** The order of the validator's checks *)

Section ValidatorOrder.

Context {platform : Platform}.

(** A condition of the validator: whether the request violates it, and
    the name of the feature in the error. *)
Definition Condition : Type := (bool * string)%type.

Definition conditionsUpToWithdrawals (version : Version)
    (request : ParsedSigningRequest) : list Condition :=
  let compat := getCompatibility version in
  [ (TransactionSigningMode_eqb (signingMode request) POOL_REGISTRATION_AS_OPERATOR
     && negb (supportsPoolRegistrationAsOperator compat),
     "Pool registration as operator"%string);
    (TransactionSigningMode_eqb (signingMode request) MULTISIG_TRANSACTION
     && negb (supportsMultisigTransaction compat),
     "Multisig transactions"%string);
    (TransactionSigningMode_eqb (signingMode request) PLUTUS_TRANSACTION
     && negb (supportsAlonzo compat),
     "Plutus transactions"%string);
    (hasScriptHashInAddressParams (tx request)
     && negb (supportsMultisigTransaction compat),
     "Script hash in address parameters in output"%string);
    (existsb (fun o => is_some (datum o)) (outputs (tx request))
     && negb (supportsAlonzo compat),
     "Datum in output"%string);
    (existsb (fun o =>
        match output_format o with MAP_BABBAGE => true | ARRAY_LEGACY => false end)
        (outputs (tx request))
     && negb (supportsBabbage compat),
     "Outputs with map format"%string);
    (match ttl (tx request) with
     | Some t => String.eqb t "0"
     | None => false
     end && negb (supportsZeroTtl compat),
     "Zero TTL"%string);
    (hasStakeCredentialInWithdrawals (tx request) SC_SCRIPT_HASH
     && negb (supportsMultisigTransaction compat),
     "Script hash in withdrawal"%string);
    (hasStakeCredentialInWithdrawals (tx request) SC_KEY_HASH
     && negb (supportsAlonzo compat),
     "Key hash in withdrawal"%string) ].

Definition conditionPoolRetirement (version : Version)
    (request : ParsedSigningRequest) : list Condition :=
  let compat := getCompatibility version in
  [ (existsb (fun c =>
        match certificate_type c with
        | CT_STAKE_POOL_RETIREMENT => true
        | _ => false
        end) (certificates (tx request))
     && negb (supportsPoolRetirement compat),
     "Pool retirement certificate"%string) ].

Definition conditionsCertificateCredentials (version : Version)
    (request : ParsedSigningRequest) : list Condition :=
  let compat := getCompatibility version in
  [ (hasStakeCredentialInCertificates (tx request) SC_SCRIPT_HASH
     && negb (supportsMultisigTransaction compat),
     "Script hash in certificate stake credential"%string);
    (hasStakeCredentialInCertificates (tx request) SC_KEY_HASH
     && negb (supportsAlonzo compat),
     "Key hash in certificate stake credential"%string) ].

Definition conditionsFromMint (version : Version)
    (request : ParsedSigningRequest) : list Condition :=
  let compat := getCompatibility version in
  let someRequiredSigners := 0 <? List.length (requiredSigners (tx request)) in
  let auxiliaryData := auxiliaryData (tx request) in
  [ (truthy_object (mint (tx request)) && negb (supportsMint compat),
     "Mint"%string);
    (truthy_string (validityIntervalStart (tx request)) && negb (supportsMary compat),
     "Validity interval start"%string);
    (truthy_hex (scriptDataHashHex (tx request)) && negb (supportsAlonzo compat),
     "Script data hash"%string);
    ((0 <? List.length (collateralInputs (tx request))) && negb (supportsAlonzo compat),
     "Collateral inputs"%string);
    (someRequiredSigners && negb (supportsAlonzo compat),
     "Required signers"%string);
    (someRequiredSigners && negb (supportsReqSignersInOrdinaryTx compat)
     && TransactionSigningMode_eqb (signingMode request) ORDINARY_TRANSACTION,
     "Required signers in ordinary transaction"%string);
    (someRequiredSigners && negb (supportsReqSignersInOrdinaryTx compat)
     && TransactionSigningMode_eqb (signingMode request) MULTISIG_TRANSACTION,
     "Required signers in multisig transaction"%string);
    (includeNetworkId (tx request) && negb (supportsAlonzo compat),
     "Network id in tx body"%string);
    (truthy_object (collateralOutput (tx request)) && negb (supportsBabbage compat),
     "Collateral output"%string);
    (truthy_string (totalCollateral (tx request)) && negb (supportsBabbage compat),
     "Total collateral"%string);
    ((0 <? List.length (referenceInputs (tx request))) && negb (supportsBabbage compat),
     "Reference inputs"%string);
    (match auxiliaryData with
     | Some (CIP36_REGISTRATION params) =>
         match cvote_format params with CIP_15 => true | CIP_36 => false end
     | _ => false
     end && negb (supportsCatalystRegistration compat),
     "Catalyst registration"%string);
    (match auxiliaryData with
     | Some (CIP36_REGISTRATION params) =>
         match cvote_format params with CIP_36 => true | CIP_15 => false end
     | _ => false
     end && negb (supportsCIP36 compat),
     "CIP36 registration"%string);
    (match auxiliaryData with
     | Some (CIP36_REGISTRATION params) => is_some (votePublicKeyPath params)
     | _ => false
     end && negb (supportsCIP36Vote compat),
     "Vote key derivation path in CIP15/CIP36 registration"%string);
    (match auxiliaryData with
     | Some (CIP36_REGISTRATION params) =>
         match paymentDestination params with
         | Destination_DEVICE_OWNED _ => false
         | Destination_THIRD_PARTY _ => true
         end
     | _ => false
     end && negb (supportsCIP36 compat),
     "CIP36 payment addresses not owned by the device"%string) ].

(** The order in which the code checks: pool retirement before the
    stake credentials of certificates. *)
Definition conditionsInCodeOrder (version : Version)
    (request : ParsedSigningRequest) : list Condition :=
  conditionsUpToWithdrawals version request
  ++ conditionPoolRetirement version request
  ++ conditionsCertificateCredentials version request
  ++ conditionsFromMint version request.

(** The order of claim C6: the stake credentials of certificates
    before pool retirement. *)
Definition conditionsInClaimedOrder (version : Version)
    (request : ParsedSigningRequest) : list Condition :=
  conditionsUpToWithdrawals version request
  ++ conditionsCertificateCredentials version request
  ++ conditionPoolRetirement version request
  ++ conditionsFromMint version request.

(** The error for the first violated condition of a list, if any. *)
Definition firstViolation (version : Version) (conditions : list Condition) : Check :=
  option_map (fun c => unsupported (snd c) version) (find fst conditions).

Ltac next_condition :=
  match goal with
  | |- throwIf ?c _ _ = _ =>
      destruct c;
      cbn [throwIf find fst snd option_map app];
      [reflexivity |]
  end.

Lemma validator_first_violation version request :
  ensureRequestSupportedByAppVersion version request
  = firstViolation version (conditionsInCodeOrder version request).
Proof.
  unfold ensureRequestSupportedByAppVersion, firstViolation, conditionsInCodeOrder,
    conditionsUpToWithdrawals, conditionPoolRetirement,
    conditionsCertificateCredentials, conditionsFromMint,
    ensureRequestSupported_afterRequiredSigners.
  cbv zeta. cbn [app find fst snd].
  repeat next_condition.
  destruct (supportsAlonzo (getCompatibility version));
    destruct (supportsReqSignersInOrdinaryTx (getCompatibility version));
    destruct (0 <? List.length (requiredSigners (tx request)));
    destruct (signingMode request);
    cbn [throwIf find fst snd option_map app negb andb
         TransactionSigningMode_eqb];
    try reflexivity;
    repeat next_condition; reflexivity.
Qed.

End ValidatorOrder.

Lemma find_first {A} (f : A -> bool) (l : list A) (x : A) :
  find f l = Some x ->
  exists earlier later,
    l = earlier ++ x :: later /\ f x = true
    /\ Forall (fun y => f y = false) earlier.
Proof.
  induction l as [| y l IH]; cbn [find]; [discriminate |].
  destruct (f y) eqn:E.
  - intros [= ->]. exists [], l. repeat split; auto.
  - intros H. destruct (IH H) as (earlier & later & -> & Hx & Hall).
    exists (y :: earlier), later. repeat split; auto.
Qed.

Definition retirementSample : ParsedSigningRequest :=
  {| tx := {| inputs := [sampleInput (Some [44; 1815]%N)];
              outputs := [sampleOutput]; fee := "42"%string; ttl := None;
              certificates :=
                [ STAKE_DELEGATION (StakeCredential_SCRIPT_HASH (hex "cc")) (hex "aa");
                  STAKE_POOL_RETIREMENT [1853; 0]%N "9"%string ];
              withdrawals := []; auxiliaryData := None;
              validityIntervalStart := None; mint := None;
              scriptDataHashHex := None; collateralInputs := [];
              requiredSigners := []; includeNetworkId := false;
              collateralOutput := None; totalCollateral := None;
              referenceInputs := [] |};
     signingMode := ORDINARY_TRANSACTION;
     additionalWitnessPaths := [] |}.

(** C6, amended: the validator fails on the first violated condition
    of the order of the code, in which pool retirement comes before the
    stake credentials of certificates; the error names the feature and
    holds the version string, and no request has been sent. *)
Theorem C6_validator_fails_on_first_violation
    {library : Serialization} {platform : Platform}
    (version : Version) (request : ParsedSigningRequest) :
  ensureRequestSupportedByAppVersion version request
  = firstViolation version (conditionsInCodeOrder version request)
  /\ ((exists c, In c (conditionsInCodeOrder version request) /\ fst c = true) ->
      exists feature earlier later,
        ensureRequestSupportedByAppVersion version request
        = Some (DeviceVersionUnsupported
                  (feature ++ " not supported by Ledger app version "
                   ++ getVersionString version ++ "."))
        /\ conditionsInCodeOrder version request = earlier ++ (true, feature) :: later
        /\ Forall (fun c => fst c = false) earlier
        /\ forall d : Device, messages d (signTransaction version request) = []).
Proof.
  split; [apply validator_first_violation |].
  intros [c [Hin Hc]].
  destruct (find fst (conditionsInCodeOrder version request)) as [[b feature] |] eqn:E.
  - destruct (find_first _ _ _ E) as (earlier & later & Hl & Hb & Hall).
    cbn [fst] in Hb. subst b.
    exists feature, earlier, later.
    assert (Hv : ensureRequestSupportedByAppVersion version request
                 = Some (unsupported feature version)).
    { rewrite validator_first_violation. unfold firstViolation. now rewrite E. }
    repeat split; try assumption.
    intros d. rewrite messages_signTransaction.
    destruct (preflight version request) as [e |] eqn:Hp.
    + now destruct (signTransaction_rejected version request e Hp).
    + unfold preflight in Hp.
      destruct (ensureLedgerAppVersionCompatible version); congruence.
  - exfalso. apply (find_none _ _ E) in Hin. congruence.
Qed.

Lemma C6_witness :
  @ensureRequestSupportedByAppVersion samplePlatform (mkVersion 2 3 0) retirementSample
  = Some (DeviceVersionUnsupported
            "Pool retirement certificate not supported by Ledger app version 2.3.0.")
  /\ messages silent
       (@signTransaction sampleLibrary samplePlatform (mkVersion 2 3 0)
          retirementSample) = [].
Proof.
  destruct (@C6_validator_fails_on_first_violation sampleLibrary samplePlatform
              (mkVersion 2 3 0) retirementSample) as [_ H].
  destruct H as (feature & earlier & later & Hv & Hl & Hall & Hm).
  - exists (true, "Pool retirement certificate"%string).
    split; [| reflexivity]. vm_compute. tauto.
  - split; [reflexivity | apply Hm].
Defined.

(** At version 2.3.0 of the sample matrix neither pool retirement nor
    script hashes in certificates are supported; for a request with
    both, the first violated condition of the order of claim C6 is the
    script hash, and the validator reports pool retirement. *)
Lemma C6_counterexample :
  @ensureRequestSupportedByAppVersion samplePlatform (mkVersion 2 3 0) retirementSample
  = Some (DeviceVersionUnsupported
            "Pool retirement certificate not supported by Ledger app version 2.3.0.")
  /\ @firstViolation samplePlatform (mkVersion 2 3 0)
       (@conditionsInClaimedOrder samplePlatform (mkVersion 2 3 0) retirementSample)
     = Some (DeviceVersionUnsupported
               "Script hash in certificate stake credential not supported by Ledger app version 2.3.0.")
  /\ @ensureRequestSupportedByAppVersion samplePlatform (mkVersion 2 3 0)
       retirementSample
     <> @firstViolation samplePlatform (mkVersion 2 3 0)
          (@conditionsInClaimedOrder samplePlatform (mkVersion 2 3 0)
             retirementSample).
Proof.
  repeat split; try reflexivity.
  vm_compute. discriminate.
Qed.

(** ** The AUX_DATA stage of a voting registration *)

Section VotingRegistration.

Context {library : Serialization} {platform : Platform}.

(** Whether the payload gives a vote key: the public key or its path. *)
Definition hasVoteKey (params : ParsedCVoteRegistrationParams) : bool :=
  truthy_hex (votePublicKey params) || truthy_object (votePublicKeyPath params).

Definition auxDataOpening (a : ParsedTxAuxiliaryData) : SendParams :=
  send P1.STAGE_AUX_DATA P2.UNUSED (serializeTxAuxiliaryData a) (Some 0).

Definition cvoteInit (params : ParsedCVoteRegistrationParams) (version : Version)
  : list SendParams :=
  if supportsCIP36 (getCompatibility version) then
    [send P1.STAGE_AUX_DATA AuxDataP2.INIT
       (serializeCVoteRegistrationInit params) (Some 0)]
  else [].

Definition cvoteVoteKey (params : ParsedCVoteRegistrationParams) (version : Version)
  : SendParams :=
  send P1.STAGE_AUX_DATA AuxDataP2.VOTE_KEY
    (serializeCVoteRegistrationVoteKey (votePublicKey params)
       (votePublicKeyPath params) version) (Some 0).

Definition cvoteDelegation (delegation : ParsedCVoteDelegation) : SendParams :=
  send P1.STAGE_AUX_DATA AuxDataP2.DELEGATION
    (serializeCVoteRegistrationDelegation delegation) (Some 0).

Definition cvoteClosing (params : ParsedCVoteRegistrationParams) (version : Version)
  : list SendParams :=
  [ send P1.STAGE_AUX_DATA AuxDataP2.STAKING_KEY
      (serializeCVoteRegistrationStakingPath (cvote_stakingPath params)) (Some 0);
    send P1.STAGE_AUX_DATA AuxDataP2.PAYMENT_ADDRESS
      (serializeCVoteRegistrationPaymentDestination (paymentDestination params)
         version) (Some 0);
    send P1.STAGE_AUX_DATA AuxDataP2.NONCE
      (serializeCVoteRegistrationNonce (nonce params)) (Some 0) ]
  ++ (if supportsCIP36 (getCompatibility version) then
        [send P1.STAGE_AUX_DATA AuxDataP2.VOTING_PURPOSE
           (serializeCVoteRegistrationVotingPurpose (votingPurpose params)) (Some 0)]
      else [])
  ++ [send P1.STAGE_AUX_DATA AuxDataP2.CONFIRM []
        (Some (AUXILIARY_DATA_HASH_LENGTH + 64))].

Lemma trace_forEach_yield {X} (l : list X) (f : X -> SendParams) :
  trace (forEach l (fun x => yield_ (f x))) = map f l.
Proof.
  induction l as [| x l IH]; cbn [forEach map]; [reflexivity |].
  cbn [bind yield_ trace]. now rewrite IH.
Qed.

Lemma setAuxiliaryData_cvote params version :
  trace (signTx_setAuxiliaryData (CIP36_REGISTRATION params) version)
  = auxDataOpening (CIP36_REGISTRATION params)
    :: cvoteInit params version
    ++ (if hasVoteKey params then
          cvoteVoteKey params version :: cvoteClosing params version
        else
          match delegations params with
          | Some ds => map cvoteDelegation ds ++ cvoteClosing params version
          | None => []
          end)
  /\ thrown (ending (signTx_setAuxiliaryData (CIP36_REGISTRATION params) version))
     = if hasVoteKey params then None
       else match delegations params with
            | Some _ => None
            | None => Some (GenericError "wrong CIP36 registration params")
            end.
Proof.
  unfold signTx_setAuxiliaryData, cvoteInit, cvoteClosing, hasVoteKey, auxDataOpening.
  cbn [assert bind yield_ trace ending].
  destruct (supportsCIP36 (getCompatibility version)); cbn [when bind yield_ trace ending];
    (destruct (truthy_hex (votePublicKey params)
               || truthy_object (votePublicKeyPath params));
     [cbn; split; reflexivity |]);
    (destruct (delegations params) as [ds |]; [| cbn; split; reflexivity]);
    rewrite ?trace_bind, ?ending_bind;
    rewrite (plain_ending (forEach ds _)) by plainly;
    rewrite (trace_forEach_yield ds);
    cbn; split; reflexivity.
Qed.

Lemma setAuxiliaryData_hash h version :
  trace (signTx_setAuxiliaryData (ARBITRARY_HASH h) version)
  = [auxDataOpening (ARBITRARY_HASH h)]
  /\ ending (signTx_setAuxiliaryData (ARBITRARY_HASH h) version) = Done None.
Proof. split; reflexivity. Qed.

End VotingRegistration.

Section ErrorsAndPlacement.

Context {library : Serialization} {platform : Platform}.

Lemma validator_passes_conditions version request :
  ensureRequestSupportedByAppVersion version request = None ->
  forall c, In c (conditionsInCodeOrder version request) -> fst c = false.
Proof.
  rewrite validator_first_violation. unfold firstViolation.
  destruct (find fst (conditionsInCodeOrder version request)) eqn:E; [discriminate |].
  intros _ c Hin. apply (find_none _ _ E c Hin).
Qed.

Lemma preflight_passes version request :
  preflight version request = None ->
  ensureLedgerAppVersionCompatible version = None
  /\ ensureRequestSupportedByAppVersion version request = None.
Proof.
  unfold preflight. destruct (ensureLedgerAppVersionCompatible version);
    [discriminate | auto].
Qed.

(** A voting registration that passes the validator is sent before the
    transaction body. *)
Lemma cvote_is_sent_early version request params :
  preflight version request = None ->
  auxiliaryData (tx request) = Some (CIP36_REGISTRATION params) ->
  auxDataBeforeTxBody version = true.
Proof.
  intros Hp Haux. apply preflight_passes in Hp as [_ Hv].
  pose proof (validator_passes_conditions version request Hv) as Hc.
  unfold auxDataBeforeTxBody.
  destruct (cvote_format params) eqn:Ef.
  - specialize (Hc (true && negb (supportsCatalystRegistration
                                    (getCompatibility version)),
                    "Catalyst registration"%string)).
    cbn [fst andb] in Hc. apply negb_false_iff in Hc; [now rewrite Hc |].
    unfold conditionsInCodeOrder. do 3 (apply in_or_app; right).
    unfold conditionsFromMint. cbv zeta. rewrite Haux, Ef.
    do 11 right. left. reflexivity.
  - specialize (Hc (true && negb (supportsCIP36 (getCompatibility version)),
                    "CIP36 registration"%string)).
    cbn [fst andb] in Hc. apply negb_false_iff in Hc;
      [rewrite Hc; apply orb_true_r |].
    unfold conditionsInCodeOrder. do 3 (apply in_or_app; right).
    unfold conditionsFromMint. cbv zeta. rewrite Haux, Ef.
    do 12 right. left. reflexivity.
Qed.

Lemma legacy_layout_only_hash version request a :
  preflight version request = None ->
  auxiliaryData (tx request) = Some a ->
  auxDataBeforeTxBody version = false ->
  exists h, a = ARBITRARY_HASH h.
Proof.
  intros Hp Haux Hb. destruct a as [h | params]; [eauto |].
  rewrite (cvote_is_sent_early version request params Hp Haux) in Hb. discriminate.
Qed.

(** The AUX_DATA stage in its late place never fails, once the
    validator has passed. *)
Lemma auxDataStageLate_completes version request :
  preflight version request = None ->
  thrown (ending (auxDataStageLate version (tx request))) = None.
Proof.
  intros Hp. unfold auxDataStageLate.
  destruct (auxiliaryData (tx request)) as [a |] eqn:Haux; [| reflexivity].
  destruct (auxDataBeforeTxBody version) eqn:Hb; [reflexivity |].
  destruct (legacy_layout_only_hash version request a Hp Haux Hb) as [h ->].
  reflexivity.
Qed.

Lemma auxDataStageEarly_failure version tx e :
  ending (auxDataStageEarly version tx) = Failed e ->
  e = GenericError "wrong CIP36 registration params"
  /\ exists params,
       auxiliaryData tx = Some (CIP36_REGISTRATION params)
       /\ auxDataBeforeTxBody version = true
       /\ hasVoteKey params = false /\ delegations params = None
       /\ trace (auxDataStageEarly version tx)
          = auxDataOpening (CIP36_REGISTRATION params) :: cvoteInit params version.
Proof.
  unfold auxDataStageEarly.
  destruct (auxiliaryData tx) as [[h | params] |]; try discriminate;
    (destruct (auxDataBeforeTxBody version); [| discriminate]);
    [discriminate |].
  intros He.
  destruct (setAuxiliaryData_cvote params version) as [Ht Hth].
  rewrite He in Hth. cbn [thrown] in Hth.
  destruct (hasVoteKey params) eqn:Hk; [discriminate |].
  destruct (delegations params) eqn:Hd; [discriminate |].
  injection Hth as ->. split; [reflexivity |].
  exists params. rewrite Ht, app_nil_r. repeat split; try reflexivity; assumption.
Qed.

End ErrorsAndPlacement.

Lemma thrown_Failed {A} (o : Outcome A) e : thrown o = Some e <-> o = Failed e.
Proof. destruct o; cbn; split; intros H; congruence. Qed.

(** What an interaction returns, when it returns. *)
Definition returns {A} (Q : A -> Prop) (i : Interaction A) : Prop :=
  forall (d : Device) sent a, snd (drive d sent i) = Done a -> Q a.

Lemma returns_Return {A} (Q : A -> Prop) a : Q a -> returns Q (Return a).
Proof. intros H d sent b [= <-]. exact H. Qed.

Lemma returns_Throw {A} (Q : A -> Prop) e : returns Q (Throw e).
Proof. intros d sent b. discriminate. Qed.

Lemma returns_anything {A} (i : Interaction A) : returns (fun _ => True) i.
Proof. intros d sent a _. exact I. Qed.

Lemma returns_bind {A B} (Q : A -> Prop) (P : B -> Prop)
    (i : Interaction A) (f : A -> Interaction B) :
  returns Q i -> (forall a, Q a -> returns P (f a)) -> returns P (bind i f).
Proof.
  intros Hi Hf d sent b. rewrite drive_bind.
  destruct (snd (drive d sent i)) as [a | e] eqn:E; [| discriminate].
  apply (Hf a (Hi d sent a E)).
Qed.

Lemma returns_seq {A B} (P : B -> Prop) (i : Interaction A) (j : Interaction B) :
  returns P j -> returns P (bind i (fun _ => j)).
Proof.
  intros Hj. apply (returns_bind (fun _ => True)); auto using returns_anything.
Qed.

Section Placement.

Context {library : Serialization} {platform : Platform}.

(** Behind the AUX_DATA stage in its late place no request is of that
    stage; nor is one of the stages from INPUTS to WITHDRAWALS. *)
Lemma no_aux_data_in_body version request :
  Forall (fun m => p1 m <> P1.STAGE_AUX_DATA)
    (requestsInputsToWithdrawals version (tx request))
  /\ Forall (fun m => p1 m <> P1.STAGE_AUX_DATA)
       (requestsValidityToReferenceInputs version (tx request)
        ++ requestsConfirmAndWitnesses request).
Proof.
  split.
  - eapply stage_in_other; [| apply stages_requestsInputsToWithdrawals].
    cbv. intuition discriminate.
  - apply Forall_app. split.
    + eapply stage_in_other; [| apply stages_requestsValidityToReferenceInputs].
      cbv. intuition discriminate.
    + unfold requestsConfirmAndWitnesses. constructor; [cbv; discriminate |].
      eapply Forall_impl; [| apply stages_witnessRequests].
      intros m (_ & H & _). rewrite H. cbv. discriminate.
Qed.

(** In the legacy layout the ceremony returns no supplement. *)
Lemma legacy_layout_no_supplement version request :
  auxDataBeforeTxBody version = false ->
  returns (fun res => auxiliaryDataSupplement res = None)
    (signTransaction version request).
Proof.
  unfold auxDataBeforeTxBody, signTransaction. intros Hb.
  do 3 apply returns_seq. cbv zeta. rewrite Hb. cbn [negb].
  apply (returns_bind (fun s => s = None)).
  { destruct (auxiliaryData (tx request)); now apply returns_Return. }
  intros s ->.
  do 6 apply returns_seq.
  apply (returns_bind (fun s => s = None)).
  { destruct (auxiliaryData (tx request)) as [[h | params] |];
      cbn [signTx_setAuxiliaryData_before_v2_3].
    - apply returns_seq. now apply returns_Return.
    - apply returns_Throw.
    - now apply returns_Return. }
  intros s ->.
  do 8 apply returns_seq.
  apply (returns_bind (fun _ => True)); [apply returns_anything |]. intros txHash _.
  apply (returns_bind (fun _ => True)); [apply returns_anything |]. intros ws _.
  now apply returns_Return.
Qed.

End Placement.

Definition votingParams (format : CIP36VoteRegistrationFormat)
    (key : option HexString) (ds : option (list ParsedCVoteDelegation))
  : ParsedCVoteRegistrationParams :=
  {| cvote_format := format;
     votePublicKey := key;
     votePublicKeyPath := None;
     delegations := ds;
     cvote_stakingPath := [1852; 2]%N;
     paymentDestination :=
       Destination_DEVICE_OWNED
         {| addressParams_type := BASE_PAYMENT_KEY_STAKE_KEY;
            spendingPath := Some [1852; 0]%N;
            stakingPath := Some [1852; 2]%N |};
     nonce := "1"%string;
     votingPurpose := None |}.

Definition votingSample (params : ParsedCVoteRegistrationParams)
  : ParsedSigningRequest :=
  {| tx := {| inputs := [sampleInput (Some [44; 1815]%N)];
              outputs := [sampleOutput]; fee := "42"%string; ttl := None;
              certificates := []; withdrawals := [];
              auxiliaryData := Some (CIP36_REGISTRATION params);
              validityIntervalStart := None; mint := None;
              scriptDataHashHex := None; collateralInputs := [];
              requiredSigners := []; includeNetworkId := false;
              collateralOutput := None; totalCollateral := None;
              referenceInputs := [] |};
     signingMode := ORDINARY_TRANSACTION;
     additionalWitnessPaths := [] |}.

(** Neither a vote key nor a list of delegations. *)
Definition malformedSample : ParsedSigningRequest :=
  votingSample (votingParams CIP_15 None None).

(** Both a vote key and two delegations. *)
Definition bothSample : ParsedSigningRequest :=
  votingSample
    (votingParams CIP_36 (Some (hex "aabb"))
       (Some [ {| delegation_voteKey := hex "01"; delegation_weight := 1 |};
               {| delegation_voteKey := hex "02"; delegation_weight := 2 |} ])).

(** C5, amended: when [signTransaction] stops with an error, either
    a pre-flight check has failed, with the version error or an error of
    the validator, and no request has been sent; or the checks have
    passed and the error is the plain error for a voting registration
    without vote key and without delegations, thrown in the AUX_DATA
    stage after the INIT request and the opening requests of that stage
    have been sent. *)
Theorem C5_where_errors_are_raised
    {library : Serialization} {platform : Platform}
    (version : Version) (request : ParsedSigningRequest) (d : Device) (e : Error) :
  outcome d (signTransaction version request) = Failed e ->
  (preflight version request = Some e
   /\ (e = VersionIncompatible \/ exists message, e = DeviceVersionUnsupported message)
   /\ messages d (signTransaction version request) = [])
  \/ (preflight version request = None
      /\ e = GenericError "wrong CIP36 registration params"
      /\ exists params,
           auxiliaryData (tx request) = Some (CIP36_REGISTRATION params)
           /\ hasVoteKey params = false /\ delegations params = None
           /\ messages d (signTransaction version request)
              = send P1.STAGE_INIT P2.UNUSED
                  (serializeTxInit (tx request) (signingMode request)
                     (List.length (gatherWitnessPaths request)) version) (Some 0)
                :: auxDataOpening (CIP36_REGISTRATION params)
                :: cvoteInit params version).
Proof.
  intros Ho. apply thrown_Failed in Ho.
  rewrite thrown_signTransaction, thrown_signTransaction_ending in Ho.
  rewrite messages_signTransaction.
  destruct (preflight version request) as [e' |] eqn:Hp.
  - left. injection Ho as ->. split; [reflexivity |]. split.
    + revert Hp. unfold preflight, ensureLedgerAppVersionCompatible, throwIf, passes.
      destruct (Version_ltb version minimumSupportedVersion).
      * intros [= <-]. now left.
      * rewrite validator_first_violation. unfold firstViolation, unsupported.
        destruct (find fst (conditionsInCodeOrder version request));
          cbn [option_map]; intros [= <-]. right. eauto.
    + now destruct (signTransaction_rejected version request e Hp).
  - right. split; [reflexivity |].
    rewrite (auxDataStageLate_completes version request Hp) in Ho.
    destruct (ending (auxDataStageEarly version (tx request))) as [s | e'] eqn:He;
      cbn [thrown] in Ho; [discriminate |].
    injection Ho as ->.
    destruct (auxDataStageEarly_failure version (tx request) e He)
      as (-> & params & Haux & Hb & Hk & Hd & Ht).
    split; [reflexivity |]. exists params. repeat split; try assumption.
    rewrite (trace_signTransaction version request Hp), He, Ht, app_nil_r.
    reflexivity.
Qed.

Lemma C5_witness :
  messages silent
    (@signTransaction sampleLibrary samplePlatform (mkVersion 2 3 0) retirementSample)
  = [].
Proof.
  destruct (@C5_where_errors_are_raised sampleLibrary samplePlatform
              (mkVersion 2 3 0) retirementSample silent
              (DeviceVersionUnsupported
                 "Pool retirement certificate not supported by Ledger app version 2.3.0.")
              eq_refl) as [(_ & _ & H) | (H & _)].
  - exact H.
  - discriminate H.
Defined.

(** A voting registration without vote key and without delegations
    passes the pre-flight checks of version 2.3.0; [signTransaction]
    sends INIT and the opening request of AUX_DATA and then throws. *)
Lemma C5_counterexample :
  @preflight samplePlatform (mkVersion 2 3 0) malformedSample = None
  /\ outcome silent
       (@signTransaction sampleLibrary samplePlatform (mkVersion 2 3 0)
          malformedSample)
     = Failed (GenericError "wrong CIP36 registration params")
  /\ messages silent
       (@signTransaction sampleLibrary samplePlatform (mkVersion 2 3 0)
          malformedSample)
     = [ send P1.STAGE_INIT P2.UNUSED [x01] (Some 0);
         send P1.STAGE_AUX_DATA P2.UNUSED [] (Some 0) ]
  /\ ~ (forall (d : Device) (e : Error),
          outcome d
            (@signTransaction sampleLibrary samplePlatform (mkVersion 2 3 0)
               malformedSample) = Failed e ->
          messages d
            (@signTransaction sampleLibrary samplePlatform (mkVersion 2 3 0)
               malformedSample) = []).
Proof.
  repeat split; try reflexivity.
  intros H. specialize (H silent _ eq_refl). discriminate H.
Qed.

(** C7, amended: for a voting registration that passes the pre-flight
    checks, the AUX_DATA stage follows INIT.  With a vote key,
    [signTransaction] raises nothing and sends the key and no delegation,
    whatever the list of delegations is; without a vote key and with a
    list of delegations it raises nothing and sends one request per
    delegation; without either it throws the plain error, not an error
    of the validator, after the opening requests of the stage. *)
Theorem C7_vote_key_or_delegations
    {library : Serialization} {platform : Platform}
    (version : Version) (request : ParsedSigningRequest)
    (params : ParsedCVoteRegistrationParams) (d : Device) :
  preflight version request = None ->
  auxiliaryData (tx request) = Some (CIP36_REGISTRATION params) ->
  exists rest,
    messages d (signTransaction version request)
    = send P1.STAGE_INIT P2.UNUSED
        (serializeTxInit (tx request) (signingMode request)
           (List.length (gatherWitnessPaths request)) version) (Some 0)
      :: auxDataOpening (CIP36_REGISTRATION params)
      :: cvoteInit params version ++ rest
    /\ if hasVoteKey params then
         thrown (outcome d (signTransaction version request)) = None
         /\ exists after,
              rest = cvoteVoteKey params version :: cvoteClosing params version
                     ++ after
              /\ Forall (fun m => p1 m <> P1.STAGE_AUX_DATA) after
       else
         match delegations params with
         | Some ds =>
             thrown (outcome d (signTransaction version request)) = None
             /\ exists after,
                  rest = map cvoteDelegation ds ++ cvoteClosing params version
                         ++ after
                  /\ Forall (fun m => p1 m <> P1.STAGE_AUX_DATA) after
         | None =>
             outcome d (signTransaction version request)
             = Failed (GenericError "wrong CIP36 registration params")
             /\ rest = []
         end.
Proof.
  intros Hp Haux.
  pose proof (cvote_is_sent_early version request params Hp Haux) as Hb.
  pose proof (auxDataStageLate_completes version request Hp) as Hlate.
  destruct (setAuxiliaryData_cvote params version) as [Ht Hth].
  destruct (no_aux_data_in_body version request) as [Hbody1 Hbody2].
  assert (Hearly : auxDataStageEarly version (tx request)
                   = signTx_setAuxiliaryData (CIP36_REGISTRATION params) version).
  { unfold auxDataStageEarly. now rewrite Haux, Hb. }
  assert (Hl : trace (auxDataStageLate version (tx request)) = []).
  { unfold auxDataStageLate. now rewrite Haux, Hb. }
  assert (Hafter : Forall (fun m => p1 m <> P1.STAGE_AUX_DATA)
            (requestsInputsToWithdrawals version (tx request)
             ++ requestsValidityToReferenceInputs version (tx request)
             ++ requestsConfirmAndWitnesses request)).
  { apply Forall_app. split; assumption. }
  assert (Hthr : thrown (outcome d (signTransaction version request))
                 = thrown (ending (signTx_setAuxiliaryData
                                     (CIP36_REGISTRATION params) version))).
  { rewrite thrown_signTransaction, thrown_signTransaction_ending, Hp, Hearly, Hlate.
    now destruct (thrown (ending (signTx_setAuxiliaryData
                                    (CIP36_REGISTRATION params) version))). }
  rewrite Hth in Hthr.
  assert (Hmsg : messages d (signTransaction version request)
    = send P1.STAGE_INIT P2.UNUSED
        (serializeTxInit (tx request) (signingMode request)
           (List.length (gatherWitnessPaths request)) version) (Some 0)
      :: trace (signTx_setAuxiliaryData (CIP36_REGISTRATION params) version)
      ++ match ending (signTx_setAuxiliaryData (CIP36_REGISTRATION params) version)
         with
         | Failed _ => []
         | Done _ =>
             requestsInputsToWithdrawals version (tx request)
             ++ requestsValidityToReferenceInputs version (tx request)
             ++ requestsConfirmAndWitnesses request
         end).
  { rewrite messages_signTransaction, (trace_signTransaction version request Hp).
    rewrite Hearly, Hl. cbn [app trace signTx_init yield_]. do 2 f_equal.
    destruct (ending (signTx_setAuxiliaryData _ _)); [| reflexivity].
    destruct (ending (auxDataStageLate version (tx request)));
      [reflexivity | discriminate]. }
  rewrite Hmsg, Ht. clear Hmsg.
  set (after := requestsInputsToWithdrawals version (tx request)
                ++ requestsValidityToReferenceInputs version (tx request)
                ++ requestsConfirmAndWitnesses request) in *.
  destruct (hasVoteKey params).
  - destruct (ending (signTx_setAuxiliaryData _ _)) as [s |]; [| discriminate].
    exists (cvoteVoteKey params version :: cvoteClosing params version ++ after).
    split.
    + cbn [app]. do 2 f_equal. rewrite <- app_assoc. reflexivity.
    + split; [exact Hthr |]. exists after. split; [reflexivity | exact Hafter].
  - destruct (delegations params) as [ds |].
    + destruct (ending (signTx_setAuxiliaryData _ _)) as [s |]; [| discriminate].
      exists (map cvoteDelegation ds ++ cvoteClosing params version ++ after).
      split.
      * cbn [app]. do 2 f_equal. rewrite <- !app_assoc. reflexivity.
      * split; [exact Hthr |]. exists after. split; [reflexivity | exact Hafter].
    + destruct (ending (signTx_setAuxiliaryData _ _)) as [s |]; [discriminate |].
      exists []. rewrite !app_nil_r. split; [reflexivity |].
      split; [now apply thrown_Failed | reflexivity].
Qed.

Lemma C7_witness :
  outcome silent
    (@signTransaction sampleLibrary samplePlatform (mkVersion 2 3 0) malformedSample)
  = Failed (GenericError "wrong CIP36 registration params").
Proof.
  destruct (@C7_vote_key_or_delegations sampleLibrary samplePlatform
              (mkVersion 2 3 0) malformedSample (votingParams CIP_15 None None)
              silent eq_refl eq_refl) as (rest & _ & H).
  cbn in H. apply H.
Defined.

(** A voting registration with a vote key and two delegations passes
    the pre-flight checks of version 6.0.0; [signTransaction] raises
    nothing, and sends the AUX_DATA stage with the vote key and without
    the delegations. *)
Lemma C7_counterexample :
  hasVoteKey (votingParams CIP_36 (Some (hex "aabb"))
                (Some [ {| delegation_voteKey := hex "01"; delegation_weight := 1 |};
                        {| delegation_voteKey := hex "02"; delegation_weight := 2 |} ]))
  = true
  /\ @preflight samplePlatform (mkVersion 6 0 0) bothSample = None
  /\ thrown (outcome silent
               (@signTransaction sampleLibrary samplePlatform (mkVersion 6 0 0)
                  bothSample)) = None
  /\ filter (fun m => (p1 m =? P1.STAGE_AUX_DATA)%Z)
       (messages silent
          (@signTransaction sampleLibrary samplePlatform (mkVersion 6 0 0)
             bothSample))
     = [ send P1.STAGE_AUX_DATA P2.UNUSED [] (Some 0);
         send P1.STAGE_AUX_DATA AuxDataP2.INIT [] (Some 0);
         send P1.STAGE_AUX_DATA AuxDataP2.VOTE_KEY [] (Some 0);
         send P1.STAGE_AUX_DATA AuxDataP2.STAKING_KEY [] (Some 0);
         send P1.STAGE_AUX_DATA AuxDataP2.PAYMENT_ADDRESS [] (Some 0);
         send P1.STAGE_AUX_DATA AuxDataP2.NONCE [] (Some 0);
         send P1.STAGE_AUX_DATA AuxDataP2.VOTING_PURPOSE [] (Some 0);
         send P1.STAGE_AUX_DATA AuxDataP2.CONFIRM [] (Some 96) ].
Proof. repeat split; reflexivity. Qed.

Definition hashSample : ParsedSigningRequest :=
  {| tx := {| inputs := [sampleInput (Some [44; 1815]%N)];
              outputs := [sampleOutput]; fee := "42"%string; ttl := None;
              certificates := []; withdrawals := [];
              auxiliaryData := Some (ARBITRARY_HASH (hex "beef"));
              validityIntervalStart := Some "7"%string; mint := None;
              scriptDataHashHex := None; collateralInputs := [];
              requiredSigners := []; includeNetworkId := false;
              collateralOutput := None; totalCollateral := None;
              referenceInputs := [] |};
     signingMode := ORDINARY_TRANSACTION;
     additionalWitnessPaths := [] |}.

(** C8: in a ceremony, that is once the pre-flight checks have passed,
    auxiliary data is sent in one AUX_DATA stage.  If the firmware takes
    it before the transaction body, the stage follows INIT at once and no
    later request is of that stage; otherwise the data is a hash, sent in
    one request that carries the hash, behind the stages from INIT to
    WITHDRAWALS and before those from VALIDITY_START on, and the ceremony
    returns no supplement.  Without auxiliary data no request is of the
    AUX_DATA stage. *)
Theorem C8_placement_of_auxiliary_data
    {library : Serialization} {platform : Platform}
    (version : Version) (request : ParsedSigningRequest) (d : Device) :
  preflight version request = None ->
  let init :=
    send P1.STAGE_INIT P2.UNUSED
      (serializeTxInit (tx request) (signingMode request)
         (List.length (gatherWitnessPaths request)) version) (Some 0) in
  match auxiliaryData (tx request) with
  | None =>
      Forall (fun m => p1 m <> P1.STAGE_AUX_DATA)
        (messages d (signTransaction version request))
  | Some a =>
      if auxDataBeforeTxBody version then
        exists stage rest,
          messages d (signTransaction version request) = init :: stage ++ rest
          /\ stage = trace (signTx_setAuxiliaryData a version)
          /\ stage <> []
          /\ Forall (fun m => p1 m = P1.STAGE_AUX_DATA) stage
          /\ Forall (fun m => p1 m <> P1.STAGE_AUX_DATA) rest
      else
        exists h before after,
          a = ARBITRARY_HASH h
          /\ messages d (signTransaction version request)
             = before
               ++ [send P1.STAGE_AUX_DATA P2.UNUSED (hex_to_buf h) (Some 0)]
               ++ after
          /\ Forall (stage_in (P1.STAGE_INIT :: stagesInputsToWithdrawals)) before
          /\ Forall (stage_in (stagesValidityToReferenceInputs
                               ++ [P1.STAGE_CONFIRM; P1.STAGE_WITNESSES])) after
          /\ forall res,
               outcome d (signTransaction version request) = Done res ->
               auxiliaryDataSupplement res = None
  end.
Proof.
  intros Hp init.
  destruct (no_aux_data_in_body version request) as [Hbody1 Hbody2].
  rewrite messages_signTransaction, (trace_signTransaction version request Hp).
  pose proof (auxDataStageLate_completes version request Hp) as Hlate.
  cbn [trace signTx_init yield_ app]. fold init.
  destruct (auxiliaryData (tx request)) as [a |] eqn:Haux.
  - destruct (auxDataBeforeTxBody version) eqn:Hb.
    + exists (trace (signTx_setAuxiliaryData a version)).
      unfold auxDataStageEarly, auxDataStageLate. rewrite Haux, Hb. cbn [negb trace].
      eexists. split; [reflexivity |]. split; [reflexivity |]. split; [| split].
      * destruct (trace_setAuxiliaryData_first a version) as [rest ->]. discriminate.
      * eapply Forall_impl; [| apply stages_setAuxiliaryData].
        intros m [H | []]. now symmetry.
      * destruct (ending (signTx_setAuxiliaryData a version)); [| constructor].
        cbn [ending app]. apply Forall_app. split; assumption.
    + destruct (legacy_layout_only_hash version request a Hp Haux Hb) as [h ->].
      exists h, (init :: requestsInputsToWithdrawals version (tx request)),
        (requestsValidityToReferenceInputs version (tx request)
         ++ requestsConfirmAndWitnesses request).
      unfold auxDataStageEarly, auxDataStageLate. rewrite Haux, Hb.
      cbn [negb trace ending signTx_setAuxiliaryData_before_v2_3 bind yield_ app].
      split; [reflexivity |]. split; [| split; [| split]].
      * rewrite <- ?app_assoc. reflexivity.
      * constructor; [now left |].
        eapply stage_in_weaken; [| apply stages_requestsInputsToWithdrawals].
        intros z Hz. now right.
      * apply Forall_app. split.
        -- eapply stage_in_weaken;
             [| apply stages_requestsValidityToReferenceInputs].
           intros z Hz. apply in_or_app. now left.
        -- unfold requestsConfirmAndWitnesses.
           constructor; [apply in_or_app; right; now left |].
           eapply Forall_impl; [| apply stages_witnessRequests].
           intros m (_ & H & _). unfold stage_in. rewrite H.
           apply in_or_app. right. right. now left.
      * intros res Hres.
        apply (legacy_layout_no_supplement version request Hb d [] res Hres).
  - unfold auxDataStageEarly, auxDataStageLate. rewrite Haux.
    cbn [trace ending app]. constructor; [cbv; discriminate |].
    apply Forall_app. split; assumption.
Qed.

Lemma C8_witness :
  exists h before after,
    ARBITRARY_HASH (hex "beef") = ARBITRARY_HASH h
    /\ messages silent
         (@signTransaction sampleLibrary samplePlatform (mkVersion 2 2 0) hashSample)
       = before
         ++ [send P1.STAGE_AUX_DATA P2.UNUSED (hex_to_buf h) (Some 0)]
         ++ after
    /\ Forall (stage_in (P1.STAGE_INIT :: stagesInputsToWithdrawals)) before
    /\ Forall (stage_in (stagesValidityToReferenceInputs
                         ++ [P1.STAGE_CONFIRM; P1.STAGE_WITNESSES])) after
    /\ forall res,
         outcome silent
           (@signTransaction sampleLibrary samplePlatform (mkVersion 2 2 0) hashSample)
         = Done res ->
         auxiliaryDataSupplement res = None.
Proof.
  exact (@C8_placement_of_auxiliary_data sampleLibrary samplePlatform
           (mkVersion 2 2 0) hashSample silent eq_refl).
Defined.

(** C9, at a request with a validity interval start: the request of the
    VALIDITY_START stage carries no expected response length, neither
    zero nor a positive count; the other requests carry zero, but for
    CONFIRM and WITNESSES. *)
Theorem C9_validity_start_without_expected_length :
  messages silent
    (@signTransaction sampleLibrary samplePlatform (mkVersion 2 2 0) hashSample)
  = [ send P1.STAGE_INIT P2.UNUSED [x01] (Some 0);
      send P1.STAGE_INPUTS P2.UNUSED [xab] (Some 0);
      send P1.STAGE_OUTPUTS OutputP2.BASIC_DATA [] (Some 0);
      send P1.STAGE_OUTPUTS OutputP2.CONFIRM [] (Some 0);
      send P1.STAGE_FEE P2.UNUSED [] (Some 0);
      send P1.STAGE_AUX_DATA P2.UNUSED [xbe; xef] (Some 0);
      send P1.STAGE_VALIDITY_INTERVAL_START P2.UNUSED [] None;
      send P1.STAGE_CONFIRM P2.UNUSED [] (Some 32);
      send P1.STAGE_WITNESSES P2.UNUSED [x2c; x00] (Some 64) ].
Proof. reflexivity. Qed.

(** * Further properties of the signing code *)

(** ** The loop of the chunk sender *)

Section ChunkLoop.

Context {platform : Platform}.

(** X13: the [while] loop of [signTx_addOutput_sendChunks] ends for
    every string, well-formed or not: once the turns cover what is left
    of the string, further turns change nothing, and [length hex] turns
    cover it. *)
Theorem sendChunks_loop_ends (hex : HexString) (p2 : Z) (turns turns' start : nat) :
  List.length hex - start <= turns ->
  List.length hex - start <= turns' ->
  sendChunks_loop turns hex p2 start = sendChunks_loop turns' hex p2 start.
Proof.
  pose proof MAX_CHUNK_SIZE_pos as HC.
  revert turns' start.
  induction turns as [| turns IH]; intros turns' start H1 H2.
  - destruct turns'; cbn [sendChunks_loop]; [reflexivity |].
    replace (start <? List.length hex) with false; [reflexivity |].
    symmetry. apply Nat.ltb_ge. lia.
  - destruct turns' as [| turns']; cbn [sendChunks_loop].
    + replace (start <? List.length hex) with false; [reflexivity |].
      symmetry. apply Nat.ltb_ge. lia.
    + destruct (start <? List.length hex) eqn:E; [| reflexivity].
      apply Nat.ltb_lt in E.
      rewrite (IH turns' (Nat.min (List.length hex) (start + MAX_CHUNK_SIZE * 2)))
        by lia.
      reflexivity.
Qed.

End ChunkLoop.

Lemma sendChunks_loop_ends_witness :
  @sendChunks_loop samplePlatform 3 (hex "0102030") OutputP2.DATUM_CHUNK 4
  = @sendChunks_loop samplePlatform 9 (hex "0102030") OutputP2.DATUM_CHUNK 4.
Proof.
  apply (@sendChunks_loop_ends samplePlatform (hex "0102030") OutputP2.DATUM_CHUNK
           3 9 4); cbn; lia.
Defined.


(** ** The order of the stages *)

(** The stages in the order in which the orchestrator runs them; the
    place of AUX_DATA depends on the firmware. *)
Definition stageOrder (auxDataEarly : bool) : list Z :=
  [P1.STAGE_INIT]
  ++ (if auxDataEarly then [P1.STAGE_AUX_DATA] else [])
  ++ [ P1.STAGE_INPUTS; P1.STAGE_OUTPUTS; P1.STAGE_FEE; P1.STAGE_TTL;
       P1.STAGE_CERTIFICATES; P1.STAGE_WITHDRAWALS ]
  ++ (if auxDataEarly then [] else [P1.STAGE_AUX_DATA])
  ++ [ P1.STAGE_VALIDITY_INTERVAL_START; P1.STAGE_MINT; P1.STAGE_SCRIPT_DATA_HASH;
       P1.STAGE_COLLATERAL_INPUTS; P1.STAGE_REQUIRED_SIGNERS;
       P1.STAGE_COLLATERAL_OUTPUT; P1.STAGE_TOTAL_COLLATERAL;
       P1.STAGE_REFERENCE_INPUTS; P1.STAGE_CONFIRM; P1.STAGE_WITNESSES ].

Lemma sends_only_p1 stage erl i :
  sends_only (staged stage erl) i -> Forall (fun m => p1 m = stage) (trace i).
Proof.
  intros H. apply sends_only_Forall.
  eapply sends_only_weaken; [| exact H]. intros m (_ & Hm & _). exact Hm.
Qed.

Section StageOrder.

Context {library : Serialization} {platform : Platform}.

#[local] Hint Resolve sends_sendChunks sends_addTokenBundle
  sends_init sends_addInput sends_addOutput sends_addCertificate
  sends_addWithdrawal sends_setFee sends_setTtl sends_setValidityIntervalStart
  sends_setMint sends_setScriptDataHash sends_addCollateralInput
  sends_addRequiredSigner sends_addCollateralOutput sends_addTotalCollateral
  sends_addReferenceInput : plain.

(** The requests of a ceremony whose pre-flight checks pass. *)
Lemma trace_after_preflight version request :
  preflight version request = None ->
  trace (signTransaction version request) =
  trace (signTx_init (tx request) (signingMode request)
           (gatherWitnessPaths request) version)
  ++ trace (auxDataStageEarly version (tx request))
  ++ match ending (auxDataStageEarly version (tx request)) with
     | Failed _ => []
     | Done _ =>
         requestsInputsToWithdrawals version (tx request)
         ++ trace (auxDataStageLate version (tx request))
         ++ requestsValidityToReferenceInputs version (tx request)
         ++ requestsConfirmAndWitnesses request
     end.
Proof.
  intros Hp. rewrite (trace_signTransaction version request Hp).
  pose proof (auxDataStageLate_completes version request Hp) as Hl.
  destruct (ending (auxDataStageLate version (tx request))); [reflexivity |].
  discriminate Hl.
Qed.

Ltac one_stage :=
  match goal with
  | |- Forall _ [] => constructor
  | |- Forall (fun m => p1 m = _) (trace _) =>
      solve [eapply sends_only_p1; sending]
  end.

(** The requests of the stages from INPUTS to WITHDRAWALS, and of
    those from VALIDITY_START to REFERENCE_INPUTS, stage by stage. *)
Definition blocksInputsToWithdrawals (version : Version) (tx : ParsedTransaction)
  : list (list SendParams) :=
  [ trace (forEach (inputs tx) signTx_addInput);
    trace (forEach (outputs tx) (fun output => signTx_addOutput output version));
    trace (signTx_setFee (fee tx));
    trace (whenSome (ttl tx) signTx_setTtl);
    trace (forEach (certificates tx) (fun c => signTx_addCertificate c version));
    trace (forEach (withdrawals tx) (fun w => signTx_addWithdrawal w version)) ].

Definition blocksValidityToReferenceInputs (version : Version) (tx : ParsedTransaction)
  : list (list SendParams) :=
  [ trace (whenSome (validityIntervalStart tx) signTx_setValidityIntervalStart);
    trace (whenSome (mint tx) signTx_setMint);
    trace (whenSome (scriptDataHashHex tx) signTx_setScriptDataHash);
    trace (forEach (collateralInputs tx) signTx_addCollateralInput);
    trace (forEach (requiredSigners tx) signTx_addRequiredSigner);
    trace (whenSome (collateralOutput tx)
             (fun o => signTx_addCollateralOutput o version));
    trace (whenSome (totalCollateral tx) signTx_addTotalCollateral);
    trace (forEach (referenceInputs tx) signTx_addReferenceInput) ].

Lemma blocksInputsToWithdrawals_staged version tx :
  List.concat (blocksInputsToWithdrawals version tx)
  = requestsInputsToWithdrawals version tx
  /\ Forall2 (fun stage block => Forall (fun m => p1 m = stage) block)
       stagesInputsToWithdrawals (blocksInputsToWithdrawals version tx).
Proof.
  split.
  - unfold blocksInputsToWithdrawals, requestsInputsToWithdrawals.
    cbn [List.concat]. now rewrite app_nil_r.
  - unfold stagesInputsToWithdrawals, blocksInputsToWithdrawals.
    repeat (constructor; [one_stage |]). constructor.
Qed.

Lemma blocksValidityToReferenceInputs_staged version tx :
  List.concat (blocksValidityToReferenceInputs version tx)
  = requestsValidityToReferenceInputs version tx
  /\ Forall2 (fun stage block => Forall (fun m => p1 m = stage) block)
       stagesValidityToReferenceInputs (blocksValidityToReferenceInputs version tx).
Proof.
  split.
  - unfold blocksValidityToReferenceInputs, requestsValidityToReferenceInputs.
    cbn [List.concat]. now rewrite app_nil_r.
  - unfold stagesValidityToReferenceInputs, blocksValidityToReferenceInputs.
    repeat (constructor; [one_stage |]). constructor.
Qed.

Lemma Forall2_empty_blocks (stages : list Z) :
  Forall2 (fun stage (block : list SendParams) => Forall (fun m => p1 m = stage) block)
    stages (map (fun _ => []) stages)
  /\ List.concat (map (fun _ : Z => @nil SendParams) stages) = [].
Proof.
  induction stages as [| z stages [IH1 IH2]]; cbn; split; auto.
Qed.

Lemma stage_in_one z ms :
  Forall (stage_in [z]) ms -> Forall (fun m => p1 m = z) ms.
Proof.
  intros H. eapply Forall_impl; [| exact H]. intros m [Hm | []]. now symmetry.
Qed.

End StageOrder.

(** X1: the requests of [signTransaction] come stage by stage in the
    fixed order of the orchestrator: they split into consecutive blocks,
    one per stage of [stageOrder], a block being empty when its stage
    does not occur; no stage is returned to.  This holds for every
    version, request and device, also when the ceremony stops early. *)
Theorem stages_run_in_order
    {library : Serialization} {platform : Platform}
    (version : Version) (request : ParsedSigningRequest) (d : Device) :
  exists blocks : list (list SendParams),
    messages d (signTransaction version request) = List.concat blocks
    /\ Forall2 (fun stage block => Forall (fun m => p1 m = stage) block)
         (stageOrder (auxDataBeforeTxBody version)) blocks.
Proof.
  rewrite messages_signTransaction.
  destruct (preflight version request) as [e |] eqn:Hp.
  - destruct (signTransaction_rejected version request e Hp) as [-> _].
    exists (map (fun _ => []) (stageOrder (auxDataBeforeTxBody version))).
    destruct (Forall2_empty_blocks (stageOrder (auxDataBeforeTxBody version)))
      as [H1 H2].
    split; [now rewrite H2 | exact H1].
  - rewrite (trace_after_preflight version request Hp).
    destruct (blocksInputsToWithdrawals_staged version (tx request)) as [Hc1 Hs1].
    destruct (blocksValidityToReferenceInputs_staged version (tx request))
      as [Hc2 Hs2].
    assert (Hinit : Forall (fun m => p1 m = P1.STAGE_INIT)
              (trace (signTx_init (tx request) (signingMode request)
                        (gatherWitnessPaths request) version)))
      by (repeat constructor).
    assert (Htail : Forall2
              (fun stage block => Forall (fun m => p1 m = stage) block)
              [P1.STAGE_CONFIRM; P1.STAGE_WITNESSES]
              [[confirmRequest]; map witnessRequest (gatherWitnessPaths request)]).
    { constructor; [repeat constructor |]. constructor; [| constructor].
      eapply Forall_impl; [| apply stages_witnessRequests].
      intros m (_ & H & _). exact H. }
    destruct (auxDataBeforeTxBody version) eqn:Hb.
    + assert (Hl : trace (auxDataStageLate version (tx request)) = []).
      { unfold auxDataStageLate. rewrite Hb.
        now destruct (auxiliaryData (tx request)). }
      rewrite Hl. cbn [app].
      change (stageOrder true)
        with ([P1.STAGE_INIT; P1.STAGE_AUX_DATA]
              ++ stagesInputsToWithdrawals
              ++ stagesValidityToReferenceInputs
              ++ [P1.STAGE_CONFIRM; P1.STAGE_WITNESSES]).
      pose proof (stage_in_one _ _
                    (stages_auxDataStageEarly version (tx request))) as Hearly.
      destruct (ending (auxDataStageEarly version (tx request))).
      * exists ([ trace (signTx_init (tx request) (signingMode request)
                           (gatherWitnessPaths request) version);
                  trace (auxDataStageEarly version (tx request)) ]
                ++ blocksInputsToWithdrawals version (tx request)
                ++ blocksValidityToReferenceInputs version (tx request)
                ++ [[confirmRequest];
                    map witnessRequest (gatherWitnessPaths request)]).
        split.
        -- rewrite !concat_app, Hc1, Hc2.
           unfold requestsConfirmAndWitnesses. cbn [List.concat app].
           rewrite ?app_nil_r, <- ?app_assoc. reflexivity.
        -- apply Forall2_app; [repeat constructor; assumption |].
           apply Forall2_app; [exact Hs1 |].
           apply Forall2_app; [exact Hs2 | exact Htail].
      * destruct (Forall2_empty_blocks
                    (stagesInputsToWithdrawals ++ stagesValidityToReferenceInputs
                     ++ [P1.STAGE_CONFIRM; P1.STAGE_WITNESSES])) as [H1 H2].
        exists ([ trace (signTx_init (tx request) (signingMode request)
                           (gatherWitnessPaths request) version);
                  trace (auxDataStageEarly version (tx request)) ]
                ++ map (fun _ => [])
                     (stagesInputsToWithdrawals ++ stagesValidityToReferenceInputs
                      ++ [P1.STAGE_CONFIRM; P1.STAGE_WITNESSES])).
        split.
        -- rewrite concat_app, H2.
           unfold requestsConfirmAndWitnesses. cbn [List.concat app].
           rewrite ?app_nil_r, <- ?app_assoc. reflexivity.
        -- apply Forall2_app; [repeat constructor; assumption | exact H1].
    + assert (He : auxDataStageEarly version (tx request) = Return None).
      { unfold auxDataStageEarly. rewrite Hb.
        now destruct (auxiliaryData (tx request)). }
      rewrite He. cbn [trace ending app].
      change (stageOrder false)
        with ([P1.STAGE_INIT]
              ++ stagesInputsToWithdrawals
              ++ [P1.STAGE_AUX_DATA]
              ++ stagesValidityToReferenceInputs
              ++ [P1.STAGE_CONFIRM; P1.STAGE_WITNESSES]).
      pose proof (stage_in_one _ _
                    (stages_auxDataStageLate version (tx request))) as Hlate.
      exists ([ trace (signTx_init (tx request) (signingMode request)
                         (gatherWitnessPaths request) version) ]
              ++ blocksInputsToWithdrawals version (tx request)
              ++ [trace (auxDataStageLate version (tx request))]
              ++ blocksValidityToReferenceInputs version (tx request)
              ++ [[confirmRequest];
                  map witnessRequest (gatherWitnessPaths request)]).
      split.
      * rewrite !concat_app, Hc1, Hc2.
        unfold requestsConfirmAndWitnesses. cbn [List.concat app].
        rewrite ?app_nil_r, <- ?app_assoc. reflexivity.
      * apply Forall2_app; [repeat constructor; assumption |].
        apply Forall2_app; [exact Hs1 |].
        apply Forall2_app; [repeat constructor; assumption |].
        apply Forall2_app; [exact Hs2 | exact Htail].
Qed.

(** ** Expected response lengths *)

(** The expected response length of a request, as the stage builders
    set it. *)
Definition expectedLengthAsBuilt {platform : Platform} (m : SendParams) : Prop :=
  expectedResponseLength m = Some 0
  \/ (p1 m = P1.STAGE_AUX_DATA /\ p2 m = AuxDataP2.CONFIRM
      /\ expectedResponseLength m = Some (AUXILIARY_DATA_HASH_LENGTH + 64))
  \/ (p1 m = P1.STAGE_CONFIRM /\ expectedResponseLength m = Some TX_HASH_LENGTH)
  \/ (p1 m = P1.STAGE_WITNESSES
      /\ expectedResponseLength m = Some ED25519_SIGNATURE_LENGTH)
  \/ ((p1 m = P1.STAGE_VALIDITY_INTERVAL_START \/ p1 m = P1.STAGE_SCRIPT_DATA_HASH)
      /\ expectedResponseLength m = None).

(** A request as [send] builds it for the signing instruction. *)
Definition builtBySend {platform : Platform} (m : SendParams) : Prop :=
  ins m = INS_SIGN_TX /\ expectedLengthAsBuilt m.

Section ExpectedLengths.

Context {library : Serialization} {platform : Platform}.

#[local] Hint Resolve sends_sendChunks sends_addTokenBundle
  sends_init sends_addInput sends_addOutput sends_addCertificate
  sends_addWithdrawal sends_setFee sends_setTtl sends_setValidityIntervalStart
  sends_setMint sends_setScriptDataHash sends_addCollateralInput
  sends_addRequiredSigner sends_addCollateralOutput sends_addTotalCollateral
  sends_addReferenceInput : plain.

Lemma staged_zero_asBuilt stage i :
  sends_only (staged stage (Some 0)) i -> Forall builtBySend (trace i).
Proof.
  intros H. apply sends_only_Forall.
  eapply sends_only_weaken; [| exact H]. intros m (Hi & _ & Hm).
  split; [exact Hi | now left].
Qed.

Ltac zero_length :=
  match goal with
  | |- Forall builtBySend (trace _) =>
      solve [eapply staged_zero_asBuilt; sending]
  end.

Lemma asBuilt_zero stage p2_ data_ :
  builtBySend (send stage p2_ data_ (Some 0)).
Proof. split; [reflexivity | now left]. Qed.

Lemma asBuilt_setAuxiliaryData a version :
  Forall builtBySend (trace (signTx_setAuxiliaryData a version)).
Proof.
  destruct a as [h | params].
  - destruct (setAuxiliaryData_hash h version) as [-> _].
    constructor; [apply asBuilt_zero | constructor].
  - destruct (setAuxiliaryData_cvote params version) as [-> _].
    assert (Hclosing : Forall builtBySend (cvoteClosing params version)).
    { unfold cvoteClosing.
      repeat (constructor; [apply asBuilt_zero |]).
      apply Forall_app. split.
      - destruct (supportsCIP36 (getCompatibility version));
          repeat (constructor; [apply asBuilt_zero |]); constructor.
      - constructor; [| constructor].
        split; [reflexivity | right; left; repeat split]. }
    constructor; [apply asBuilt_zero |].
    apply Forall_app. split.
    + unfold cvoteInit. destruct (supportsCIP36 (getCompatibility version));
        repeat (constructor; [apply asBuilt_zero |]); constructor.
    + destruct (hasVoteKey params).
      * constructor; [apply asBuilt_zero | exact Hclosing].
      * destruct (delegations params) as [ds |]; [| constructor].
        apply Forall_app. split; [| exact Hclosing].
        apply Forall_forall. intros m Hm.
        apply in_map_iff in Hm as [x [<- _]]. apply asBuilt_zero.
Qed.

Lemma asBuilt_requestsInputsToWithdrawals version tx :
  Forall builtBySend (requestsInputsToWithdrawals version tx).
Proof.
  unfold requestsInputsToWithdrawals.
  do 5 (apply Forall_app; split; [zero_length |]). zero_length.
Qed.

Lemma asBuilt_requestsValidityToReferenceInputs version tx :
  Forall builtBySend (requestsValidityToReferenceInputs version tx).
Proof.
  unfold requestsValidityToReferenceInputs.
  apply Forall_app; split.
  { destruct (validityIntervalStart tx); cbn; [| constructor].
    constructor; [| constructor]. split; [reflexivity |].
    do 4 right. split; [now left | reflexivity]. }
  apply Forall_app; split; [zero_length |].
  apply Forall_app; split.
  { destruct (scriptDataHashHex tx); cbn; [| constructor].
    constructor; [| constructor]. split; [reflexivity |].
    do 4 right. split; [now right | reflexivity]. }
  do 4 (apply Forall_app; split; [zero_length |]). zero_length.
Qed.

End ExpectedLengths.


(** ** The witness count announced by INIT *)

Definition isWitnessRequest (m : SendParams) : bool :=
  (p1 m =? P1.STAGE_WITNESSES)%Z.

Lemma filter_other_stages (stages : list Z) (ms : list SendParams) :
  Forall (stage_in stages) ms ->
  ~ In P1.STAGE_WITNESSES stages ->
  filter isWitnessRequest ms = [].
Proof.
  intros H Hno. induction H as [| m ms Hm _ IH]; cbn [filter]; auto.
  unfold isWitnessRequest at 1.
  destruct (Z.eqb_spec (p1 m) P1.STAGE_WITNESSES) as [E | _]; [| exact IH].
  exfalso. apply Hno. rewrite <- E. exact Hm.
Qed.

Lemma filter_witnessRequests {library : Serialization} (paths : list ValidBIP32Path) :
  filter isWitnessRequest (map witnessRequest paths) = map witnessRequest paths.
Proof.
  induction paths as [| p paths IH]; cbn; [reflexivity | now rewrite IH].
Qed.

Ltac not_witnesses :=
  let H := fresh in
  intros H; cbn in H; repeat (destruct H as [H | H]; [discriminate H |]); exact H.

(** X2: in a ceremony that runs to its end, the first request is INIT
    and carries the number of witness paths of the request; the requests
    of the WITNESSES stage are those of these paths, one each, in their
    order, so that as many witnesses are asked for as INIT announced. *)
Theorem init_announces_witness_count
    {library : Serialization} {platform : Platform}
    (version : Version) (request : ParsedSigningRequest) (d : Device) :
  thrown (outcome d (signTransaction version request)) = None ->
  exists rest,
    messages d (signTransaction version request)
    = send P1.STAGE_INIT P2.UNUSED
        (serializeTxInit (tx request) (signingMode request)
           (List.length (gatherWitnessPaths request)) version) (Some 0)
      :: rest
    /\ filter isWitnessRequest rest
       = map witnessRequest (gatherWitnessPaths request)
    /\ List.length (filter isWitnessRequest rest)
       = List.length (gatherWitnessPaths request).
Proof.
  rewrite thrown_signTransaction, messages_signTransaction. intros Hdone.
  rewrite (completed_layout version request Hdone).
  rewrite trace_init. cbn [app].
  eexists. split; [reflexivity |].
  assert (Hf : filter isWitnessRequest
                 (trace (auxDataStageEarly version (tx request))
                  ++ requestsInputsToWithdrawals version (tx request)
                  ++ trace (auxDataStageLate version (tx request))
                  ++ requestsValidityToReferenceInputs version (tx request)
                  ++ requestsConfirmAndWitnesses request)
               = map witnessRequest (gatherWitnessPaths request)).
  { rewrite !filter_app.
    rewrite (filter_other_stages _ _ (stages_auxDataStageEarly version (tx request)))
      by not_witnesses.
    rewrite (filter_other_stages _ _
               (stages_requestsInputsToWithdrawals version (tx request)))
      by not_witnesses.
    rewrite (filter_other_stages _ _ (stages_auxDataStageLate version (tx request)))
      by not_witnesses.
    rewrite (filter_other_stages _ _
               (stages_requestsValidityToReferenceInputs version (tx request)))
      by not_witnesses.
    unfold requestsConfirmAndWitnesses. cbn [app filter].
    change (isWitnessRequest confirmRequest) with false. cbv iota.
    apply filter_witnessRequests. }
  split; [exact Hf |]. rewrite Hf. apply length_map.
Qed.

Lemma init_announces_witness_count_witness :
  exists rest,
    messages silent
      (@signTransaction sampleLibrary samplePlatform (mkVersion 6 0 0) ordinarySample)
    = send P1.STAGE_INIT P2.UNUSED
        (@serializeTxInit sampleLibrary (tx ordinarySample)
           (signingMode ordinarySample)
           (List.length (gatherWitnessPaths ordinarySample)) (mkVersion 6 0 0))
        (Some 0)
      :: rest
    /\ filter isWitnessRequest rest
       = map (@witnessRequest sampleLibrary) (gatherWitnessPaths ordinarySample)
    /\ List.length (filter isWitnessRequest rest)
       = List.length (gatherWitnessPaths ordinarySample).
Proof.
  exact (@init_announces_witness_count sampleLibrary samplePlatform
           (mkVersion 6 0 0) ordinarySample silent eq_refl).
Defined.

(** ** The signed data, read from the responses *)

(** The witnesses that [getWitnesses] assembles from the responses of
    the device [d], [sent] being the requests of before. *)
Fixpoint witnessesFrom {library : Serialization} (d : Device)
    (sent : list SendParams) (paths : list ValidBIP32Path) : list Witness :=
  match paths with
  | [] => []
  | path :: rest =>
      {| witness_path := path;
         witnessSignatureHex := buf_to_hex (d (sent ++ [witnessRequest path])) |}
      :: witnessesFrom d (sent ++ [witnessRequest path]) rest
  end.

(** An interaction that, unless it fails, ends as one of the
    interactions [tail b] does. *)
Definition ends_as {A B} (tail : B -> Interaction A) (i : Interaction A) : Prop :=
  forall (d : Device) (sent : list SendParams) (a : A),
    snd (drive d sent i) = Done a ->
    exists sent' b, drive d sent i = drive d sent' (tail b).

Lemma ends_as_tail {A B} (tail : B -> Interaction A) (b : B) :
  ends_as tail (tail b).
Proof. intros d sent a _. now exists sent, b. Qed.

Lemma ends_as_bind {A B C} (tail : B -> Interaction A)
    (i : Interaction C) (f : C -> Interaction A) :
  (forall c, ends_as tail (f c)) -> ends_as tail (bind i f).
Proof.
  intros H d sent a. rewrite drive_bind.
  destruct (snd (drive d sent i)) as [c | e]; [apply H | discriminate].
Qed.

Section SignedData.

Context {library : Serialization} {platform : Platform}.

(** The last two steps of [signTransaction]. *)
Definition confirmAndWitnesses (request : ParsedSigningRequest)
    (supplement : option TxAuxiliaryDataSupplement)
  : Interaction SignedTransactionData :=
  txHashHex <- signTx_awaitConfirm ;;
  witnesses <- getWitnesses (gatherWitnessPaths request) ;;
  Return {| txHashHex := txHashHex;
            witnesses := witnesses;
            auxiliaryDataSupplement := supplement |}.

Lemma drive_getWitnesses (d : Device) (paths : list ValidBIP32Path) sent :
  drive d sent (getWitnesses paths)
  = (sent ++ map witnessRequest paths, Done (witnessesFrom d sent paths)).
Proof.
  revert sent. induction paths as [| p paths IH]; intros sent.
  - cbn. now rewrite app_nil_r.
  - cbn [getWitnesses signTx_getWitness yield bind drive witnessesFrom map].
    fold (witnessRequest p).
    rewrite drive_bind, IH. cbn [fst snd drive].
    now rewrite <- app_assoc.
Qed.

Lemma drive_confirmAndWitnesses (d : Device) request supplement sent :
  drive d sent (confirmAndWitnesses request supplement)
  = (sent ++ confirmRequest :: map witnessRequest (gatherWitnessPaths request),
     Done {| txHashHex := buf_to_hex (d (sent ++ [confirmRequest]));
             witnesses :=
               witnessesFrom d (sent ++ [confirmRequest])
                 (gatherWitnessPaths request);
             auxiliaryDataSupplement := supplement |}).
Proof.
  unfold confirmAndWitnesses, signTx_awaitConfirm, yield.
  cbn [bind drive]. fold confirmRequest.
  rewrite drive_bind, drive_getWitnesses. cbn [fst snd drive].
  now rewrite <- app_assoc.
Qed.

Lemma witnessesFrom_paths (d : Device) paths sent :
  map witness_path (witnessesFrom d sent paths) = paths.
Proof.
  revert sent. induction paths as [| p paths IH]; intros sent; cbn;
    [reflexivity | now rewrite IH].
Qed.

Lemma witnessesFrom_nth (d : Device) paths sent j w :
  nth_error (witnessesFrom d sent paths) j = Some w ->
  witnessSignatureHex w
  = buf_to_hex (d (sent ++ firstn (S j) (map witnessRequest paths))).
Proof.
  revert sent j. induction paths as [| p paths IH]; intros sent j H.
  - destruct j; discriminate H.
  - destruct j as [| j]; cbn [witnessesFrom nth_error] in H.
    + injection H as <-. reflexivity.
    + rewrite (IH _ _ H). cbn [map firstn]. now rewrite <- app_assoc.
Qed.

Lemma signTransaction_ends_as version request :
  ends_as (confirmAndWitnesses request) (signTransaction version request).
Proof.
  unfold signTransaction. cbv zeta.
  do 19 (apply ends_as_bind; intros ?).
  apply (ends_as_tail (confirmAndWitnesses request)).
Qed.

End SignedData.

(** X3: when [signTransaction] returns, the result is read from the
    responses of the device: the last requests are CONFIRM and one
    WITNESSES request per witness path; the transaction hash is the
    response to CONFIRM in hex, the witnesses carry the witness paths in
    their order, and the signature of the j-th witness is the response
    to the j-th WITNESSES request in hex. *)
Theorem signed_data_from_responses
    {library : Serialization} {platform : Platform}
    (version : Version) (request : ParsedSigningRequest) (d : Device)
    (res : SignedTransactionData) :
  outcome d (signTransaction version request) = Done res ->
  exists before,
    messages d (signTransaction version request)
    = before ++ confirmRequest :: map witnessRequest (gatherWitnessPaths request)
    /\ txHashHex res = buf_to_hex (d (before ++ [confirmRequest]))
    /\ map witness_path (witnesses res) = gatherWitnessPaths request
    /\ forall j w,
         nth_error (witnesses res) j = Some w ->
         witnessSignatureHex w
         = buf_to_hex
             (d (before ++ confirmRequest
                   :: firstn (S j) (map witnessRequest (gatherWitnessPaths request)))).
Proof.
  unfold outcome, messages. intros Hres.
  destruct (signTransaction_ends_as version request d [] res Hres)
    as (before & s & Hd).
  rewrite Hd in Hres |- *. rewrite drive_confirmAndWitnesses in Hres |- *.
  cbn [fst snd] in Hres |- *. injection Hres as <-.
  cbn [txHashHex witnesses].
  exists before. repeat split.
  - apply witnessesFrom_paths.
  - intros j w H. rewrite (witnessesFrom_nth _ _ _ _ _ H).
    now rewrite <- app_assoc.
Qed.

(** A device that answers with the number of requests received so far. *)
Definition countingDevice : Device :=
  fun sent => [byte_of_N (N.of_nat (List.length sent))].

Lemma signed_data_from_responses_witness :
  exists before,
    messages countingDevice
      (@signTransaction sampleLibrary samplePlatform (mkVersion 6 0 0) ordinarySample)
    = before ++ (@confirmRequest samplePlatform)
        :: map (@witnessRequest sampleLibrary) (gatherWitnessPaths ordinarySample)
    /\ hex "09" = buf_to_hex (countingDevice (before ++ [(@confirmRequest samplePlatform)]))
    /\ [[44; 1815]; [1852; 2]; [9]]%N = gatherWitnessPaths ordinarySample
    /\ forall j w,
         nth_error
           [ {| witness_path := [44; 1815]%N; witnessSignatureHex := hex "0a" |};
             {| witness_path := [1852; 2]%N; witnessSignatureHex := hex "0b" |};
             {| witness_path := [9]%N; witnessSignatureHex := hex "0c" |} ] j
         = Some w ->
         witnessSignatureHex w
         = buf_to_hex
             (countingDevice
                (before ++ (@confirmRequest samplePlatform)
                   :: firstn (S j)
                        (map (@witnessRequest sampleLibrary)
                           (gatherWitnessPaths ordinarySample)))).
Proof.
  exact (@signed_data_from_responses sampleLibrary samplePlatform
           (mkVersion 6 0 0) ordinarySample countingDevice
           {| txHashHex := hex "09";
              witnesses :=
                [ {| witness_path := [44; 1815]%N; witnessSignatureHex := hex "0a" |};
                  {| witness_path := [1852; 2]%N; witnessSignatureHex := hex "0b" |};
                  {| witness_path := [9]%N; witnessSignatureHex := hex "0c" |} ];
              auxiliaryDataSupplement := None |}
           eq_refl).
Defined.

(** ** The supplement of a voting registration *)

Lemma hex_roundtrip (b : Buffer) : hex_to_buf (buf_to_hex b) = b.
Proof.
  induction b as [| x b IH]; [reflexivity |].
  change (buf_to_hex (x :: b))
    with (hex_char (Byte.to_N x / 16) :: hex_char (Byte.to_N x mod 16)
          :: buf_to_hex b).
  cbn [hex_to_buf]. rewrite IH.
  destruct x; reflexivity.
Qed.

Lemma firstn_then_firstn {X} (n m : nat) (l : list X) :
  firstn n l ++ firstn m (skipn n l) = firstn (n + m) l.
Proof.
  revert l. induction n as [| n IH]; intros l; [reflexivity |].
  destruct l as [| x l]; cbn [firstn skipn Nat.add app].
  - now rewrite firstn_nil.
  - now rewrite IH.
Qed.

Section Supplement.

Context {library : Serialization} {platform : Platform}.

(** The request that closes a voting registration. *)
Definition cvoteConfirmRequest : SendParams :=
  send P1.STAGE_AUX_DATA AuxDataP2.CONFIRM []
    (Some (AUXILIARY_DATA_HASH_LENGTH + 64)).

(** The last step of [signTx_setAuxiliaryData] for a registration. *)
Definition cvoteConfirm (_ : unit) : Interaction (option TxAuxiliaryDataSupplement) :=
  response <- yield cvoteConfirmRequest ;;
  Return (Some {| supplement_type := Supplement_CIP36_REGISTRATION;
                  auxiliaryDataHashHex :=
                    buf_to_hex (firstn AUXILIARY_DATA_HASH_LENGTH response);
                  cip36VoteRegistrationSignatureHex :=
                    buf_to_hex
                      (firstn 64 (skipn AUXILIARY_DATA_HASH_LENGTH response)) |}).

Lemma drive_cvoteConfirm (d : Device) sent :
  drive d sent (cvoteConfirm tt)
  = (sent ++ [cvoteConfirmRequest],
     Done (Some {| supplement_type := Supplement_CIP36_REGISTRATION;
                   auxiliaryDataHashHex :=
                     buf_to_hex
                       (firstn AUXILIARY_DATA_HASH_LENGTH
                          (d (sent ++ [cvoteConfirmRequest])));
                   cip36VoteRegistrationSignatureHex :=
                     buf_to_hex
                       (firstn 64
                          (skipn AUXILIARY_DATA_HASH_LENGTH
                             (d (sent ++ [cvoteConfirmRequest])))) |})).
Proof. reflexivity. Qed.

Lemma setAuxiliaryData_ends_as params version :
  ends_as cvoteConfirm (signTx_setAuxiliaryData (CIP36_REGISTRATION params) version).
Proof.
  unfold signTx_setAuxiliaryData. cbv zeta.
  do 8 (apply ends_as_bind; intros ?).
  apply (ends_as_tail cvoteConfirm tt).
Qed.

End Supplement.

(** X4: when [signTx_setAuxiliaryData] returns for a voting
    registration, its last request is the one that confirms the
    registration, and the supplement is cut from the response to it: the
    hash is the first [AUXILIARY_DATA_HASH_LENGTH] bytes in hex, the
    signature the 64 bytes after them; together they are the response
    when it has the expected length, and no byte of a longer response
    beyond that length is kept. *)
Theorem supplement_from_response
    {library : Serialization} {platform : Platform}
    (params : ParsedCVoteRegistrationParams) (version : Version)
    (d : Device) (sent sent' : list SendParams)
    (s : option TxAuxiliaryDataSupplement) :
  drive d sent (signTx_setAuxiliaryData (CIP36_REGISTRATION params) version)
  = (sent', Done s) ->
  exists before hashHex signatureHex,
    sent' = before ++ [cvoteConfirmRequest]
    /\ s = Some {| supplement_type := Supplement_CIP36_REGISTRATION;
                   auxiliaryDataHashHex := hashHex;
                   cip36VoteRegistrationSignatureHex := signatureHex |}
    /\ hex_to_buf hashHex = firstn AUXILIARY_DATA_HASH_LENGTH (d sent')
    /\ hex_to_buf hashHex ++ hex_to_buf signatureHex
       = firstn (AUXILIARY_DATA_HASH_LENGTH + 64) (d sent')
    /\ (List.length (d sent') = AUXILIARY_DATA_HASH_LENGTH + 64 ->
        hex_to_buf hashHex ++ hex_to_buf signatureHex = d sent').
Proof.
  intros Hd.
  destruct (setAuxiliaryData_ends_as params version d sent s) as (before & [] & E).
  { now rewrite Hd. }
  rewrite E, drive_cvoteConfirm in Hd. injection Hd as <- <-.
  exists before.
  exists (buf_to_hex (firstn AUXILIARY_DATA_HASH_LENGTH
                        (d (before ++ [cvoteConfirmRequest])))).
  exists (buf_to_hex (firstn 64 (skipn AUXILIARY_DATA_HASH_LENGTH
                                   (d (before ++ [cvoteConfirmRequest]))))).
  split; [reflexivity |]. split; [reflexivity |].
  rewrite !hex_roundtrip, firstn_then_firstn.
  split; [reflexivity |]. split; [reflexivity |].
  intros Hlen. rewrite <- Hlen. apply firstn_all.
Qed.

(** A device that answers every request with 32 bytes [01] and 64
    bytes [02]. *)
Definition hashAndSignatureDevice : Device :=
  fun _ => repeat x01 32 ++ repeat x02 64.

Lemma supplement_from_response_witness :
  exists before hashHex signatureHex,
    trace (@signTx_setAuxiliaryData sampleLibrary samplePlatform
             (CIP36_REGISTRATION (votingParams CIP_36 (Some (hex "aa")) None))
             (mkVersion 6 0 0))
    = before ++ [@cvoteConfirmRequest samplePlatform]
    /\ Some {| supplement_type := Supplement_CIP36_REGISTRATION;
               auxiliaryDataHashHex := buf_to_hex (repeat x01 32);
               cip36VoteRegistrationSignatureHex := buf_to_hex (repeat x02 64) |}
       = Some {| supplement_type := Supplement_CIP36_REGISTRATION;
                 auxiliaryDataHashHex := hashHex;
                 cip36VoteRegistrationSignatureHex := signatureHex |}
    /\ hex_to_buf hashHex
       = firstn (@AUXILIARY_DATA_HASH_LENGTH samplePlatform)
           (repeat x01 32 ++ repeat x02 64)
    /\ hex_to_buf hashHex ++ hex_to_buf signatureHex
       = firstn (@AUXILIARY_DATA_HASH_LENGTH samplePlatform + 64)
           (repeat x01 32 ++ repeat x02 64)
    /\ (List.length (repeat x01 32 ++ repeat x02 64)
        = @AUXILIARY_DATA_HASH_LENGTH samplePlatform + 64 ->
        hex_to_buf hashHex ++ hex_to_buf signatureHex
        = repeat x01 32 ++ repeat x02 64).
Proof.
  exact (@supplement_from_response sampleLibrary samplePlatform
           (votingParams CIP_36 (Some (hex "aa")) None) (mkVersion 6 0 0)
           hashAndSignatureDevice []
           (trace (@signTx_setAuxiliaryData sampleLibrary samplePlatform
                     (CIP36_REGISTRATION
                        (votingParams CIP_36 (Some (hex "aa")) None))
                     (mkVersion 6 0 0)))
           (Some {| supplement_type := Supplement_CIP36_REGISTRATION;
                    auxiliaryDataHashHex := buf_to_hex (repeat x01 32);
                    cip36VoteRegistrationSignatureHex :=
                      buf_to_hex (repeat x02 64) |})
           eq_refl).
Defined.

(** ** Token bundles, mint and collateral output *)

(** The number of tokens of a bundle, over all its asset groups. *)
Definition tokenCount {T} (bundle : list (ParsedAssetGroup T)) : nat :=
  List.length (flat_map (fun assetGroup => tokens assetGroup) bundle).

Lemma map_const_repeat {X Y} (f : X -> Y) (y : Y) (l : list X) :
  (forall x, f x = y) -> map f l = repeat y (List.length l).
Proof.
  intros H. induction l as [| x l IH]; cbn; [reflexivity | now rewrite H, IH].
Qed.

Lemma messages_plain (i : Interaction unit) (d : Device) :
  plain i -> messages d i = trace i /\ outcome d i = Done tt.
Proof.
  intros H. unfold messages, outcome. now rewrite (plain_drive i d [] H).
Qed.

Section Bundles.

Context {library : Serialization} {platform : Platform}.

#[local] Hint Resolve sends_sendChunks sends_addTokenBundle
  sends_init sends_addInput sends_addOutput sends_addCertificate
  sends_addWithdrawal sends_setFee sends_setTtl sends_setValidityIntervalStart
  sends_setMint sends_setScriptDataHash sends_addCollateralInput
  sends_addRequiredSigner sends_addCollateralOutput sends_addTotalCollateral
  sends_addReferenceInput : plain.

(** The requests of one asset group: the group, then its tokens. *)
Definition assetGroupRequests {T} (p1 : Z) (serializeTokenAmountFn : T -> Buffer)
    (assetGroup : ParsedAssetGroup T) : list SendParams :=
  send p1 TokenBundleP2.ASSET_GROUP (serializeAssetGroup assetGroup) (Some 0)
  :: map (fun token =>
            send p1 TokenBundleP2.TOKEN
              (serializeToken token serializeTokenAmountFn) (Some 0))
       (tokens assetGroup).

Lemma trace_addTokenBundle {T} (bundle : list (ParsedAssetGroup T)) p1 f :
  trace (signTx_addTokenBundle bundle p1 f)
  = flat_map (assetGroupRequests p1 f) bundle.
Proof.
  unfold signTx_addTokenBundle.
  induction bundle as [| g bundle IH]; cbn [forEach flat_map]; [reflexivity |].
  rewrite trace_seq_plain by plainly. rewrite IH. f_equal.
  cbn [bind yield_ trace]. unfold assetGroupRequests. f_equal.
  apply (trace_forEach_yield (tokens g)
           (fun token => send p1 TokenBundleP2.TOKEN (serializeToken token f) (Some 0))).
Qed.

Lemma length_addTokenBundle {T} (bundle : list (ParsedAssetGroup T)) p1 f :
  List.length (trace (signTx_addTokenBundle bundle p1 f))
  = List.length bundle + tokenCount bundle.
Proof.
  rewrite trace_addTokenBundle. unfold tokenCount.
  induction bundle as [| g bundle IH]; cbn [flat_map]; [reflexivity |].
  rewrite !length_app, IH. unfold assetGroupRequests.
  cbn [List.length]. rewrite length_map. lia.
Qed.

Lemma subtags_assetGroups {T} (bundle : list (ParsedAssetGroup T)) p1 f :
  map p2 (flat_map (assetGroupRequests p1 f) bundle)
  = flat_map (fun assetGroup =>
                TokenBundleP2.ASSET_GROUP
                :: repeat TokenBundleP2.TOKEN (List.length (tokens assetGroup)))
      bundle.
Proof.
  induction bundle as [| g bundle IH]; cbn [flat_map map]; [reflexivity |].
  rewrite map_app, IH. f_equal. unfold assetGroupRequests. cbn [map]. f_equal.
  rewrite map_map. now apply map_const_repeat.
Qed.

End Bundles.

(** X6: [signTx_addTokenBundle] never fails and sends, for each asset
    group in order, one ASSET_GROUP request followed by one TOKEN request
    per token of the group, whatever the device answers: as many
    requests as there are groups and tokens.  [signTx_setMint] and
    [signTx_addCollateralOutput] wrap the bundle in one opening and one
    confirming request; a collateral output sends nothing for a datum or
    a reference script. *)
Theorem token_bundle_requests
    {library : Serialization} {platform : Platform} (d : Device) :
  (forall T (bundle : list (ParsedAssetGroup T)) stage (f : T -> Buffer),
     outcome d (signTx_addTokenBundle bundle stage f) = Done tt
     /\ map p2 (messages d (signTx_addTokenBundle bundle stage f))
        = flat_map (fun assetGroup =>
                      TokenBundleP2.ASSET_GROUP
                      :: repeat TokenBundleP2.TOKEN (List.length (tokens assetGroup)))
            bundle
     /\ List.length (messages d (signTx_addTokenBundle bundle stage f))
        = List.length bundle + tokenCount bundle)
  /\ (forall mint,
        outcome d (signTx_setMint mint) = Done tt
        /\ messages d (signTx_setMint mint)
           = send P1.STAGE_MINT MintP2.BASIC_DATA (serializeMintBasicParams mint) (Some 0)
             :: flat_map (assetGroupRequests P1.STAGE_MINT int64_to_buf) mint
             ++ [send P1.STAGE_MINT MintP2.CONFIRM [] (Some 0)])
  /\ (forall output version,
        outcome d (signTx_addCollateralOutput output version) = Done tt
        /\ messages d (signTx_addCollateralOutput output version)
           = send P1.STAGE_COLLATERAL_OUTPUT OutputP2.BASIC_DATA
               (serializeTxOutputBasicParams output version) (Some 0)
             :: flat_map (assetGroupRequests P1.STAGE_COLLATERAL_OUTPUT uint64_to_buf)
                  (tokenBundle output)
             ++ [send P1.STAGE_COLLATERAL_OUTPUT OutputP2.CONFIRM [] (Some 0)]
        /\ List.length (messages d (signTx_addCollateralOutput output version))
           = 2 + List.length (tokenBundle output) + tokenCount (tokenBundle output)).
Proof.
  split; [| split].
  - intros T bundle stage f.
    destruct (messages_plain (signTx_addTokenBundle bundle stage f) d) as [-> ->].
    { exact (sends_only_plain _ _ (sends_addTokenBundle bundle stage f)). }
    split; [reflexivity |]. split.
    + rewrite trace_addTokenBundle. apply subtags_assetGroups.
    + apply length_addTokenBundle.
  - intros mint.
    destruct (messages_plain (signTx_setMint mint) d) as [-> ->].
    { exact (sends_only_plain _ _ (sends_setMint mint)). }
    split; [reflexivity |].
    unfold signTx_setMint. cbn [bind yield_ trace]. f_equal.
    rewrite trace_seq_plain
      by exact (sends_only_plain _ _
                  (sends_addTokenBundle mint P1.STAGE_MINT int64_to_buf)).
    now rewrite trace_addTokenBundle.
  - intros output version.
    destruct (messages_plain (signTx_addCollateralOutput output version) d)
      as [-> ->].
    { exact (sends_only_plain _ _ (sends_addCollateralOutput output version)). }
    split; [reflexivity |].
    assert (Ht : trace (signTx_addCollateralOutput output version)
                 = send P1.STAGE_COLLATERAL_OUTPUT OutputP2.BASIC_DATA
                     (serializeTxOutputBasicParams output version) (Some 0)
                   :: trace (signTx_addTokenBundle (tokenBundle output)
                               P1.STAGE_COLLATERAL_OUTPUT uint64_to_buf)
                   ++ [send P1.STAGE_COLLATERAL_OUTPUT OutputP2.CONFIRM [] (Some 0)]).
    { unfold signTx_addCollateralOutput. cbn [bind yield_ trace]. f_equal.
      now rewrite trace_seq_plain
        by exact (sends_only_plain _ _
                    (sends_addTokenBundle (tokenBundle output)
                       P1.STAGE_COLLATERAL_OUTPUT uint64_to_buf)). }
    rewrite Ht. split.
    + now rewrite trace_addTokenBundle.
    + cbn [List.length]. rewrite length_app, length_addTokenBundle.
      cbn [List.length]. lia.
Qed.

(** ** Certificates *)

(** The sub-tags of the requests that follow the certificate itself for
    a pool registration, in the current and in the legacy protocol. *)
Definition poolSubtags (pool : ParsedPoolParams) : list Z :=
  [ PoolP2.INIT; PoolP2.POOL_KEY; PoolP2.VRF_KEY; PoolP2.FINANCIALS;
    PoolP2.REWARD_ACCOUNT ]
  ++ repeat PoolP2.OWNERS (List.length (owners pool))
  ++ repeat PoolP2.RELAYS (List.length (relays pool))
  ++ [ PoolP2.METADATA; PoolP2.CONFIRMATION ].

Definition poolSubtagsLegacy (pool : ParsedPoolParams) : list Z :=
  [ PoolLegacyP2.POOL_PARAMS ]
  ++ repeat PoolLegacyP2.OWNERS (List.length (owners pool))
  ++ repeat PoolLegacyP2.RELAYS (List.length (relays pool))
  ++ [ PoolLegacyP2.METADATA; PoolLegacyP2.CONFIRMATION ].

Section Certificates.

Context {library : Serialization} {platform : Platform}.

Lemma subtags_forEach_yield {X} (l : list X) (f : X -> SendParams) (z : Z)
    (j : Interaction unit) :
  (forall x, p2 (f x) = z) ->
  plain j ->
  map p2 (trace (forEach l (fun x => yield_ (f x)) ;; j))
  = repeat z (List.length l) ++ map p2 (trace j).
Proof.
  intros Hf Hj. rewrite trace_seq_plain.
  - rewrite trace_forEach_yield, map_app, map_map.
    now rewrite (map_const_repeat (fun x => p2 (f x)) z l Hf).
  - apply plain_forEach. intros x. apply plain_yield_.
Qed.

Lemma subtags_pool pool :
  map p2 (trace (signTx_addStakePoolRegistrationCertificate
                   (STAKE_POOL_REGISTRATION pool)))
  = poolSubtags pool.
Proof.
  unfold signTx_addStakePoolRegistrationCertificate, poolSubtags.
  cbn [bind yield_ trace map app]. do 5 f_equal.
  rewrite (subtags_forEach_yield _ _ PoolP2.OWNERS);
    [f_equal | reflexivity |].
  - rewrite (subtags_forEach_yield _ _ PoolP2.RELAYS);
      [reflexivity | reflexivity | repeat constructor].
  - apply plain_seq; [| repeat constructor].
    apply plain_forEach. intros relay. apply plain_yield_.
Qed.

Lemma subtags_poolLegacy pool :
  map p2 (trace (signTx_addStakePoolRegistrationCertificateLegacy
                   (STAKE_POOL_REGISTRATION pool)))
  = poolSubtagsLegacy pool.
Proof.
  unfold signTx_addStakePoolRegistrationCertificateLegacy, poolSubtagsLegacy.
  cbn [bind yield_ trace map app]. f_equal.
  rewrite (subtags_forEach_yield _ _ PoolLegacyP2.OWNERS);
    [f_equal | reflexivity |].
  - rewrite (subtags_forEach_yield _ _ PoolLegacyP2.RELAYS);
      [reflexivity | reflexivity | repeat constructor].
  - apply plain_seq; [| repeat constructor].
    apply plain_forEach. intros relay. apply plain_yield_.
Qed.

End Certificates.


(** ** The requests of one output *)

(** X8: [signTx_addOutput] never fails, and its requests come in this
    order, whatever the device answers: BASIC_DATA; the token bundle; for
    a datum, DATUM and then only DATUM_CHUNK requests, none of them for
    a datum hash or for an inline datum of at most [MAX_CHUNK_SIZE]
    bytes; for a reference script that is not the empty string, SCRIPT
    and then only SCRIPT_CHUNK requests; CONFIRM.  An output without
    datum sends no request for one, and an empty reference script is
    treated as none. *)
Theorem output_requests_in_order
    {library : Serialization} {platform : Platform}
    (output : ParsedOutput) (version : Version) (d : Device) :
  outcome d (signTx_addOutput output version) = Done tt
  /\ exists bundle datumPart scriptPart,
       messages d (signTx_addOutput output version)
       = send P1.STAGE_OUTPUTS OutputP2.BASIC_DATA
           (serializeTxOutputBasicParams output version) (Some 0)
         :: bundle ++ datumPart ++ scriptPart
         ++ [send P1.STAGE_OUTPUTS OutputP2.CONFIRM [] (Some 0)]
       /\ Forall (subtag_in [TokenBundleP2.ASSET_GROUP; TokenBundleP2.TOKEN]) bundle
       /\ List.length bundle
          = List.length (tokenBundle output) + tokenCount (tokenBundle output)
       /\ match datum output with
          | None => datumPart = []
          | Some datum =>
              exists chunks,
                datumPart
                = send P1.STAGE_OUTPUTS OutputP2.DATUM
                    (serializeTxOutputDatum datum version) (Some 0) :: chunks
                /\ Forall (subtag_in [OutputP2.DATUM_CHUNK]) chunks
                /\ match datum with
                   | Datum_HASH _ => chunks = []
                   | Datum_INLINE datumHex =>
                       if MAX_CHUNK_SIZE * 2 <? List.length datumHex then True
                       else chunks = []
                   end
          end
       /\ match referenceScriptHex output with
          | None | Some [] => scriptPart = []
          | Some script =>
              exists chunks,
                scriptPart
                = send P1.STAGE_OUTPUTS OutputP2.SCRIPT
                    (serializeTxOutputRefScript script) (Some 0) :: chunks
                /\ Forall (subtag_in [OutputP2.SCRIPT_CHUNK]) chunks
                /\ if MAX_CHUNK_SIZE * 2 <? List.length script then True
                   else chunks = []
          end.
Proof.
  destruct (messages_plain (signTx_addOutput output version) d) as [-> ->].
  { exact (sends_only_plain _ _ (sends_addOutput output version)). }
  split; [reflexivity |].
  exists (trace (signTx_addTokenBundle (tokenBundle output)
                   P1.STAGE_OUTPUTS uint64_to_buf)),
    (datumRequests output version), (referenceScriptRequests output).
  split; [apply trace_addOutput |].
  split; [apply sends_only_Forall, subtags_addTokenBundle |].
  split; [apply length_addTokenBundle |].
  split.
  - unfold datumRequests. destruct (datum output) as [[h | h] |]; [| | reflexivity].
    + exists []. repeat split. constructor.
    + eexists. split; [reflexivity |]. split.
      * apply sends_only_Forall, sends_only_when.
        exact (subtags_sendChunks h OutputP2.DATUM_CHUNK).
      * now destruct (MAX_CHUNK_SIZE * 2 <? List.length h).
  - unfold referenceScriptRequests.
    destruct (referenceScriptHex output) as [[| c h] |]; [reflexivity | | reflexivity].
    eexists. split; [reflexivity |]. split.
    + apply sends_only_Forall, sends_only_when.
      exact (subtags_sendChunks (c :: h) OutputP2.SCRIPT_CHUNK).
    + now destruct (MAX_CHUNK_SIZE * 2 <? List.length (c :: h)).
Qed.

(** ** The request validator and the capabilities *)

(** Every capability of [a] is one of [b]. *)
Definition capabilities_le (a b : DeviceCompatibility) : Prop :=
  (supportsMary a = true -> supportsMary b = true)
  /\ (supportsCatalystRegistration a = true -> supportsCatalystRegistration b = true)
  /\ (supportsCIP36 a = true -> supportsCIP36 b = true)
  /\ (supportsZeroTtl a = true -> supportsZeroTtl b = true)
  /\ (supportsPoolRegistrationAsOperator a = true
      -> supportsPoolRegistrationAsOperator b = true)
  /\ (supportsPoolRetirement a = true -> supportsPoolRetirement b = true)
  /\ (supportsMultisigTransaction a = true -> supportsMultisigTransaction b = true)
  /\ (supportsMint a = true -> supportsMint b = true)
  /\ (supportsAlonzo a = true -> supportsAlonzo b = true)
  /\ (supportsReqSignersInOrdinaryTx a = true
      -> supportsReqSignersInOrdinaryTx b = true)
  /\ (supportsBabbage a = true -> supportsBabbage b = true)
  /\ (supportsCIP36Vote a = true -> supportsCIP36Vote b = true).

Lemma find_none_pointwise (l l' : list (bool * string)) :
  Forall2 (fun c c' => fst c = false -> fst c' = false) l l' ->
  find fst l = None -> find fst l' = None.
Proof.
  induction 1 as [| c c' l l' Hc _ IH]; [reflexivity |].
  cbn [find]. destruct (fst c); [discriminate |].
  rewrite (Hc eq_refl). exact IH.
Qed.

Section Capabilities.

Context {platform : Platform}.

Lemma conditions_monotone version version' request :
  capabilities_le (getCompatibility version) (getCompatibility version') ->
  Forall2 (fun c c' => fst c = false -> fst c' = false)
    (conditionsInCodeOrder version request)
    (conditionsInCodeOrder version' request).
Proof.
  intros (H1 & H2 & H3 & H4 & H5 & H6 & H7 & H8 & H9 & H10 & H11 & H12).
  unfold conditionsInCodeOrder, conditionsUpToWithdrawals, conditionPoolRetirement,
    conditionsCertificateCredentials, conditionsFromMint.
  cbv zeta. cbn [app].
  repeat (constructor;
    [ cbn [fst];
      repeat match goal with
             | |- context [negb (?s (getCompatibility version))] =>
                 destruct (s (getCompatibility version)) eqn:?
             | |- context [negb (?s (getCompatibility version'))] =>
                 destruct (s (getCompatibility version')) eqn:?
             end;
      cbn [negb]; rewrite ?andb_false_r, ?andb_true_r; cbn [andb];
      first [ intros H; exact H
            | intros _; reflexivity
            | exfalso; intuition congruence ]
    | ]).
  constructor.
Qed.

End Capabilities.

(** The device that supports everything. *)
Definition fullCompatibility : DeviceCompatibility :=
  {| supportsMary := true;
     supportsCatalystRegistration := true;
     supportsCIP36 := true;
     supportsZeroTtl := true;
     supportsPoolRegistrationAsOperator := true;
     supportsPoolRetirement := true;
     supportsMultisigTransaction := true;
     supportsMint := true;
     supportsAlonzo := true;
     supportsReqSignersInOrdinaryTx := true;
     supportsBabbage := true;
     supportsCIP36Vote := true |}.

(** X9: the validator is monotone in the capabilities: a request that
    it accepts for one version it accepts for every version that has at
    least the capabilities of the first. *)
Theorem validator_monotone_in_capabilities
    {platform : Platform} (version version' : Version)
    (request : ParsedSigningRequest) :
  capabilities_le (getCompatibility version) (getCompatibility version') ->
  ensureRequestSupportedByAppVersion version request = None ->
  ensureRequestSupportedByAppVersion version' request = None.
Proof.
  intros Hle. rewrite !validator_first_violation. unfold firstViolation.
  intros Hpass.
  rewrite (find_none_pointwise _ _
             (conditions_monotone version version' request Hle)); [reflexivity |].
  destruct (find fst (conditionsInCodeOrder version request));
    [discriminate | reflexivity].
Qed.

Lemma validator_monotone_in_capabilities_witness :
  @ensureRequestSupportedByAppVersion samplePlatform (mkVersion 6 0 0) ordinarySample
  = None.
Proof.
  apply (@validator_monotone_in_capabilities samplePlatform
           (mkVersion 2 2 0) (mkVersion 6 0 0) ordinarySample).
  - vm_compute. repeat split; intros _; reflexivity.
  - reflexivity.
Defined.

(** X10: for a version that has every capability the validator accepts
    every request. *)
Theorem validator_accepts_with_all_capabilities
    {platform : Platform} (version : Version) (request : ParsedSigningRequest) :
  getCompatibility version = fullCompatibility ->
  ensureRequestSupportedByAppVersion version request = None.
Proof.
  intros Hfull. rewrite validator_first_violation.
  unfold firstViolation, conditionsInCodeOrder, conditionsUpToWithdrawals,
    conditionPoolRetirement, conditionsCertificateCredentials, conditionsFromMint.
  cbv zeta. rewrite Hfull.
  cbn [fullCompatibility supportsMary supportsCatalystRegistration supportsCIP36
       supportsZeroTtl supportsPoolRegistrationAsOperator supportsPoolRetirement
       supportsMultisigTransaction supportsMint supportsAlonzo
       supportsReqSignersInOrdinaryTx supportsBabbage supportsCIP36Vote negb].
  rewrite ?andb_false_r. cbn [app find fst andb]. reflexivity.
Qed.

Lemma validator_accepts_with_all_capabilities_witness :
  @ensureRequestSupportedByAppVersion samplePlatform (mkVersion 6 0 0) bothSample
  = None.
Proof.
  exact (@validator_accepts_with_all_capabilities samplePlatform
           (mkVersion 6 0 0) bothSample eq_refl).
Defined.

(** ** When the ceremony completes, and with which supplement *)

(** Whether [signTransaction] runs to its end: the pre-flight checks
    pass, and a voting registration has a vote key or a list of
    delegations. *)
Definition completes {library : Serialization} {platform : Platform}
    (version : Version) (request : ParsedSigningRequest) : bool :=
  negb (is_some (preflight version request))
  && match auxiliaryData (tx request) with
     | Some (CIP36_REGISTRATION params) =>
         hasVoteKey params || is_some (delegations params)
     | _ => true
     end.

(** The supplement that goes with the auxiliary data of a request. *)
Definition supplementFor (auxiliaryData : option ParsedTxAuxiliaryData)
    (supplement : option TxAuxiliaryDataSupplement) : Prop :=
  match auxiliaryData with
  | Some (CIP36_REGISTRATION _) =>
      exists hashHex signatureHex,
        supplement
        = Some {| supplement_type := Supplement_CIP36_REGISTRATION;
                  auxiliaryDataHashHex := hashHex;
                  cip36VoteRegistrationSignatureHex := signatureHex |}
  | _ => supplement = None
  end.

Lemma returns_bind_id {A} (Q P : A -> Prop) (i : Interaction A) :
  returns Q i -> (forall a, Q a -> P a) -> returns P i.
Proof. intros Hi HQP d sent a H. apply HQP, (Hi d sent a H). Qed.

Section Completion.

Context {library : Serialization} {platform : Platform}.

Lemma returns_setAuxiliaryData a version :
  returns (supplementFor (Some a)) (signTx_setAuxiliaryData a version).
Proof.
  unfold signTx_setAuxiliaryData. do 2 apply returns_seq.
  destruct a as [h | params].
  - now apply returns_Return.
  - do 6 apply returns_seq. cbv zeta.
    apply (returns_bind (fun _ => True)); [apply returns_anything |].
    intros response _. apply returns_Return. cbn. eauto.
Qed.

Lemma returns_supplement version request :
  (forall params,
     auxiliaryData (tx request) = Some (CIP36_REGISTRATION params) ->
     auxDataBeforeTxBody version = true) ->
  returns (fun res =>
             supplementFor (auxiliaryData (tx request)) (auxiliaryDataSupplement res))
    (signTransaction version request).
Proof.
  intros Hearly. unfold signTransaction. do 3 apply returns_seq. cbv zeta.
  fold (auxDataBeforeTxBody version).
  apply (returns_bind (fun s => supplementFor (auxiliaryData (tx request)) s
                                \/ (auxDataBeforeTxBody version = false /\ s = None))).
  { destruct (auxiliaryData (tx request)) as [a |] eqn:Haux.
    - destruct (auxDataBeforeTxBody version) eqn:Hb.
      + eapply (returns_bind_id (supplementFor (Some a)));
          [apply returns_setAuxiliaryData | intros s Hs; now left].
      + apply returns_Return. now right.
    - apply returns_Return. now left. }
  intros s Hs. do 6 apply returns_seq.
  apply (returns_bind (supplementFor (auxiliaryData (tx request)))).
  { destruct (auxiliaryData (tx request)) as [[h | params] |] eqn:Haux.
    - destruct (negb (auxDataBeforeTxBody version));
        cbn [signTx_setAuxiliaryData_before_v2_3].
      + apply returns_seq. now apply returns_Return.
      + apply returns_Return. destruct Hs as [Hs | [_ ->]]; [exact Hs | reflexivity].
    - rewrite (Hearly params eq_refl) in *. cbn [negb].
      apply returns_Return. destruct Hs as [Hs | [Hb _]]; [exact Hs | discriminate].
    - apply returns_Return. destruct Hs as [Hs | [_ ->]]; [exact Hs | reflexivity]. }
  intros s' Hs'. do 8 apply returns_seq.
  apply (returns_bind (fun _ => True)); [apply returns_anything |]. intros txHash _.
  apply (returns_bind (fun _ => True)); [apply returns_anything |]. intros ws _.
  now apply returns_Return.
Qed.

End Completion.


(** X12: when [signTransaction] returns, its result holds a supplement
    exactly for a voting registration, and the supplement is of the
    registration type; for a plain hash and without auxiliary data the
    supplement is null, whichever of the two places the AUX_DATA stage
    has. *)
Theorem supplement_only_for_registrations
    {library : Serialization} {platform : Platform}
    (version : Version) (request : ParsedSigningRequest) (d : Device)
    (res : SignedTransactionData) :
  outcome d (signTransaction version request) = Done res ->
  supplementFor (auxiliaryData (tx request)) (auxiliaryDataSupplement res).
Proof.
  intros Hres.
  assert (Hp : preflight version request = None).
  { pose proof (thrown_signTransaction d version request) as Hth.
    rewrite Hres, thrown_signTransaction_ending in Hth. cbn [thrown] in Hth.
    destruct (preflight version request); [discriminate | reflexivity]. }
  apply (returns_supplement version request
           (fun params => cvote_is_sent_early version request params Hp)
           d [] res Hres).
Qed.

Lemma supplement_only_for_registrations_witness :
  supplementFor
    (auxiliaryData
       (tx (votingSample (votingParams CIP_36 (Some (hex "aa")) None))))
    (Some {| supplement_type := Supplement_CIP36_REGISTRATION;
             auxiliaryDataHashHex := buf_to_hex (repeat x01 32);
             cip36VoteRegistrationSignatureHex := buf_to_hex (repeat x02 64) |}).
Proof.
  exact (@supplement_only_for_registrations sampleLibrary samplePlatform
           (mkVersion 6 0 0)
           (votingSample (votingParams CIP_36 (Some (hex "aa")) None))
           hashAndSignatureDevice
           {| txHashHex := buf_to_hex (repeat x01 32 ++ repeat x02 64);
              witnesses :=
                [ {| witness_path := [44; 1815]%N;
                     witnessSignatureHex :=
                       buf_to_hex (repeat x01 32 ++ repeat x02 64) |} ];
              auxiliaryDataSupplement :=
                Some {| supplement_type := Supplement_CIP36_REGISTRATION;
                        auxiliaryDataHashHex := buf_to_hex (repeat x01 32);
                        cip36VoteRegistrationSignatureHex :=
                          buf_to_hex (repeat x02 64) |} |}
           eq_refl).
Defined.

(** * Address derivation *)

(** [DeriveAddressResponse]. *)
Record DeriveAddressResponse : Type := mkDeriveAddressResponse {
  addressHex : HexString
}.

Section DeriveAddress.

(** [cardano.serializeAddressParams], which is not among the sources. *)
Variable serializeAddressParams : ParsedAddressParams -> Buffer.

(** [deriveAddress]: an [async] function that awaits [_send] once; the
    awaited call is the one request of the interaction.  The request is
    built without [expectedResponseLength]. *)
Definition deriveAddress (_version : Version) (addressParams : ParsedAddressParams)
  : Interaction DeriveAddressResponse :=
  let P1_RETURN := 0x01%Z in
  let P2_UNUSED := 0x00%Z in
  let data := serializeAddressParams addressParams in
  response <- yield {| ins := INS_DERIVE_ADDRESS;
                       p1 := P1_RETURN;
                       p2 := P2_UNUSED;
                       data := data;
                       expectedResponseLength := None |} ;;
  Return {| addressHex := buf_to_hex response |}.

End DeriveAddress.

Lemma length_buf_to_hex (b : Buffer) :
  List.length (buf_to_hex b) = 2 * List.length b.
Proof.
  induction b as [| x b IH]; [reflexivity |].
  change (buf_to_hex (x :: b))
    with (hex_char (Byte.to_N x / 16) :: hex_char (Byte.to_N x mod 16)
          :: buf_to_hex b).
  cbn [List.length]. rewrite IH. lia.
Qed.

